(** * EchoVerse: the reality server (server.js) as a shallow embedding

    The development follows the primary server of the repository: the
    [AIService] narrative generator, the SQLite store with its three
    tables, and the Express handlers that sit on top of them.

    - JavaScript strings are sequences of UTF-16 code units ([list N]).
    - JavaScript numbers are IEEE-754 binary64 values, taken from the
      Standard Library's executable specification [SpecFloat] at
      precision 53 and maximal exponent 1024.
    - [Math.random], [uuidv4] and the clock are oracles read through the
      state of the world; the handlers thread that state explicitly. *)

From Stdlib Require Import List ZArith NArith Lia Bool String Ascii.
From Stdlib Require Import SpecFloat QArith Qround Qpower Lqa Psatz.
Import ListNotations.

Set Warnings "-register-all".

Local Open Scope Z_scope.

(** ** Strings *)

Module JsString.

(** A string value: its UTF-16 code units. *)
Definition jsstring := list N.

(** Literals are written as Rocq strings of ASCII characters. *)
Definition js (s : string) : jsstring :=
  map N_of_ascii (list_ascii_of_string s).

(** A literal in which an apostrophe stands for a double quote. *)
Definition jsq (s : string) : jsstring :=
  map (fun c => if N.eqb c 39 then 34%N else c) (js s).

Definition code_eqb (a b : N) : bool := N.eqb a b.

Fixpoint str_eqb (a b : jsstring) : bool :=
  match a, b with
  | [], [] => true
  | x :: a', y :: b' => code_eqb x y && str_eqb a' b'
  | _, _ => false
  end.

(** ECMAScript WhiteSpace and LineTerminator code points: the set that
    [String.prototype.trim] strips and that the regular-expression
    class [\s] matches. *)
Definition is_space (c : N) : bool :=
  let c := Z.of_N c in
  (c =? 9) || (c =? 10) || (c =? 11) || (c =? 12) || (c =? 13) ||
  (c =? 32) || (c =? 160) || (c =? 5760) ||
  ((8192 <=? c) && (c <=? 8202)) ||
  (c =? 8232) || (c =? 8233) || (c =? 8239) || (c =? 8287) ||
  (c =? 12288) || (c =? 65279).

Fixpoint drop_space (s : jsstring) : jsstring :=
  match s with
  | [] => []
  | c :: s' => if is_space c then drop_space s' else s
  end.

(** [s.trim()] *)
Definition trim (s : jsstring) : jsstring :=
  rev (drop_space (rev (drop_space s))).

(** Canonicalize of a case-insensitive, non-unicode regular expression,
    on the Basic Latin range.  A code unit above 127 is never mapped into
    the Basic Latin range by Canonicalize, so it is left alone here: the
    patterns below only hold Basic Latin characters. *)
Definition canonicalize (c : N) : N :=
  if (97 <=? c)%N && (c <=? 122)%N then (c - 32)%N else c.

End JsString.
Import JsString.

(** ** Regular expressions

    The fragment of the regular-expression language that the server uses,
    with the backtracking semantics of ECMAScript: alternatives are tried
    left to right and [+] is greedy. *)

Module Regex.

Inductive regex :=
| REps
| RChar (c : N)
| RSpace
| RSeq (r1 r2 : regex)
| RAlt (r1 r2 : regex)
| RPlus (r : regex).

(** The iterations of a greedy [+]: one match of the body, then as many
    further ones as succeed.  Each iteration consumes at least one code
    unit, so [n], the length of the input, bounds the further ones. *)
Fixpoint plus_iter
         (body : jsstring -> (jsstring -> option jsstring) -> option jsstring)
         (k : jsstring -> option jsstring) (n : nat) (s : jsstring)
  : option jsstring :=
  body s (fun s1 =>
    match n with
    | O => k s1
    | S n' =>
        match plus_iter body k n' s1 with
        | Some out => Some out
        | None => k s1
        end
    end).

(** [rmatch r s k]: match [r] at the head of [s] and hand what is left
    to the continuation [k]; the first success in priority order wins. *)
Fixpoint rmatch (r : regex) (s : jsstring)
         (k : jsstring -> option jsstring) : option jsstring :=
  match r with
  | REps => k s
  | RChar c =>
      match s with
      | u :: s' =>
          if code_eqb (canonicalize u) (canonicalize c) then k s' else None
      | [] => None
      end
  | RSpace =>
      match s with
      | u :: s' => if is_space u then k s' else None
      | [] => None
      end
  | RSeq r1 r2 => rmatch r1 s (fun s1 => rmatch r2 s1 k)
  | RAlt r1 r2 =>
      match rmatch r1 s k with
      | Some out => Some out
      | None => rmatch r2 s k
      end
  | RPlus r1 => plus_iter (rmatch r1) k (List.length s) s
  end.

(** A literal word, character by character. *)
Fixpoint lit (w : jsstring) : regex :=
  match w with
  | [] => REps
  | c :: w' => RSeq (RChar c) (lit w')
  end.

(** [s.replace(/^r/i, '')]: the pattern is anchored at the start of the
    input (no [m] flag), so a match can only begin at index 0; the
    matched prefix is removed, and a string without a match is returned
    as it is. *)
Definition replace_anchored (r : regex) (s : jsstring) : jsstring :=
  match rmatch r s (fun rest => Some rest) with
  | Some rest => rest
  | None => s
  end.

End Regex.
Import Regex.

(** [/^(what if|if)\s+/i] *)
Definition title_regex : regex :=
  RSeq (RAlt (lit (js "what if")) (lit (js "if"))) (RPlus RSpace).

(** [event.replace(/^(what if|if)\s+/i, '').trim()], the body of
    [AIService.extractTitle] on a string. *)
Definition extractTitle_str (event : jsstring) : jsstring :=
  trim (replace_anchored title_regex event).


(** The same function in the words of the specification: one leading
    "what if" or "if", in any case and followed by white space, is
    stripped, and what remains is trimmed. *)

Definition same_letter (a b : N) : bool :=
  code_eqb (canonicalize a) (canonicalize b).

(** What follows the word [w] in [s], when [s] begins with [w] up to the
    case of its letters. *)
Fixpoint strip_word (w s : jsstring) : option jsstring :=
  match w, s with
  | [], _ => Some s
  | a :: w', b :: s' => if same_letter b a then strip_word w' s' else None
  | _ :: _, [] => None
  end.

Definition followed_by_space (s : jsstring) : bool :=
  match s with
  | c :: _ => is_space c
  | [] => false
  end.

Definition strip_prefix_word (w s : jsstring) : option jsstring :=
  match strip_word w s with
  | Some rest => if followed_by_space rest then Some rest else None
  | None => None
  end.

Definition extractTitle_spec (s : jsstring) : jsstring :=
  match strip_prefix_word (js "what if") s with
  | Some rest => trim rest
  | None =>
      match strip_prefix_word (js "if") s with
      | Some rest => trim rest
      | None => trim s
      end
  end.
(** ** Numbers

    A JavaScript number is a binary64 value.  Arithmetic is the
    round-to-nearest-even arithmetic of [SpecFloat]. *)

Module Num.

Definition prec : Z := 53.
Definition emax : Z := 1024.

Definition number := spec_float.

(** The number nearest to an integer (exact below 2^53). *)
Definition num_of_Z (z : Z) : number := binary_normalize prec emax z 0 false.

(** The number nearest to the decimal [m * 10^e10], as the reader of
    numeric literals and [JSON.parse] produce it: an integer is rounded
    once, a fraction is the correctly rounded quotient of two integers. *)
Definition decimal (neg : bool) (m : N) (e10 : Z) : number :=
  match m with
  | N0 => S754_zero neg
  | Npos p =>
      if 0 <=? e10 then
        binary_round prec emax neg (p * Z.to_pos (10 ^ e10)) 0
      else
        let '(q, e, l) :=
          SFdiv_core_binary prec emax (Zpos p) 0 (10 ^ (- e10)) 0 in
        binary_round_aux prec emax neg q e l
  end.

Definition num_add : number -> number -> number := SFadd prec emax.
Definition num_mul : number -> number -> number := SFmul prec emax.
Definition num_ltb : number -> number -> bool := SFltb.

(** The integer part towards minus infinity of a finite number. *)
Definition floorZ (x : number) : option Z :=
  match x with
  | S754_zero _ => Some 0
  | S754_finite s m e => Some (Z.shiftl (cond_Zopp s (Zpos m)) e)
  | _ => None
  end.

(** [Math.floor] *)
Definition Math_floor (x : number) : number :=
  match x with
  | S754_finite s m e =>
      binary_normalize prec emax (Z.shiftl (cond_Zopp s (Zpos m)) e) 0 s
  | _ => x
  end.

(** A number used as an array index: the index when the number is a
    non-negative integer, nothing otherwise (the property does not
    exist and the read gives [undefined]). *)
Definition array_index (x : number) : option nat :=
  match x with
  | S754_zero _ => Some O
  | S754_finite false m e =>
      if 0 <=? e then Some (Z.to_nat (Z.shiftl (Zpos m) e))
      else if Zpos m mod 2 ^ (- e) =? 0
           then Some (Z.to_nat (Z.shiftl (Zpos m) e))
           else None
  | _ => None
  end.

(** Two to the power [e], and the rational [m * 2^e]. *)
Definition bpow (e : Z) : Q := Qpower 2 e.
Definition F2Q (m e : Z) : Q := inject_Z m * bpow e.

(** The exact rational value of a finite number. *)
Definition SF2Q (x : number) : Q :=
  match x with
  | S754_finite s m e => F2Q (cond_Zopp s (Zpos m)) e
  | _ => 0%Q
  end.

Definition is_finite (x : number) : bool :=
  match x with
  | S754_zero _ | S754_finite _ _ _ => true
  | _ => false
  end.

(** Contract of [Math.random]: a number "with positive sign, greater than
    or equal to 0 but strictly less than 1". *)
Definition unit_interval (x : number) : Prop :=
  match x with
  | S754_zero s => s = false
  | S754_finite s m e =>
      s = false /\ bounded prec emax m e = true /\ Zpos m < 2 ^ (- e)
  | _ => False
  end.

End Num.
Import Num.
(** ** Values and JSON *)

(** What the host gives and the sources do not define: Unicode lower-casing
    of a string and the decimal rendering of a number ([Number::toString]).
    Both are total functions of the platform; nothing below depends on
    which text they produce. *)
Class Platform := {
  toLowerCase : jsstring -> jsstring;
  number_to_string : number -> jsstring
}.

Module Json.

(** The values that travel through request bodies, responses and
    JSON columns. *)
Inductive jsval :=
| VUndefined
| VNull
| VBool (b : bool)
| VNum (x : number)
| VStr (s : jsstring)
| VArr (items : list jsval)
| VObj (fields : list (jsstring * jsval)).

Inductive js_error :=
| TypeError
| SyntaxError
| LoopBound.

Inductive result (A : Type) :=
| Ok (a : A)
| Throw (e : js_error).
Arguments Ok {A} a.
Arguments Throw {A} e.

(** ToBoolean *)
Definition truthy (v : jsval) : bool :=
  match v with
  | VUndefined | VNull => false
  | VBool b => b
  | VNum (S754_zero _) | VNum S754_nan => false
  | VNum _ => true
  | VStr [] => false
  | VStr _ => true
  | VArr _ | VObj _ => true
  end.

(** *** Reading JSON text *)

Definition is_json_ws (c : N) : bool :=
  ((c =? 9) || (c =? 10) || (c =? 13) || (c =? 32))%N.

Fixpoint skip_ws (s : jsstring) : jsstring :=
  match s with
  | c :: t => if is_json_ws c then skip_ws t else s
  | [] => []
  end.

Definition digit_val (c : N) : option N :=
  if ((48 <=? c) && (c <=? 57))%N then Some (c - 48)%N else None.

Definition hex_val (c : N) : option N :=
  if ((48 <=? c) && (c <=? 57))%N then Some (c - 48)%N
  else if ((97 <=? c) && (c <=? 102))%N then Some (c - 87)%N
  else if ((65 <=? c) && (c <=? 70))%N then Some (c - 55)%N
  else None.

(** Reads a run of decimal digits onto [acc]; also gives its length. *)
Fixpoint read_digits (s : jsstring) (acc : N) (n : Z) : N * Z * jsstring :=
  match s with
  | c :: t =>
      match digit_val c with
      | Some d => read_digits t (10 * acc + d)%N (n + 1)
      | None => (acc, n, s)
      end
  | [] => (acc, n, s)
  end.

Definition parse_frac (m : N) (s : jsstring) : option (N * Z * jsstring) :=
  match s with
  | c :: t =>
      if (c =? 46)%N then
        let '(m', n, rest) := read_digits t m 0 in
        if n =? 0 then None else Some (m', n, rest)
      else Some (m, 0, s)
  | [] => Some (m, 0, s)
  end.

Definition parse_exp (s : jsstring) : option (Z * jsstring) :=
  match s with
  | c :: t =>
      if ((c =? 101) || (c =? 69))%N then
        let '(neg, t1) :=
          match t with
          | sg :: t' =>
              if (sg =? 45)%N then (true, t')
              else if (sg =? 43)%N then (false, t')
              else (false, t)
          | [] => (false, t)
          end in
        let '(x, n, rest) := read_digits t1 0%N 0 in
        if n =? 0 then None
        else Some (if neg then - Z.of_N x else Z.of_N x, rest)
      else Some (0, s)
  | [] => Some (0, s)
  end.

Definition parse_number (s : jsstring) : option (number * jsstring) :=
  let '(neg, s1) :=
    match s with
    | c :: t => if (c =? 45)%N then (true, t) else (false, s)
    | [] => (false, s)
    end in
  let int_part :=
    match s1 with
    | c :: t =>
        if (c =? 48)%N then Some (0%N, t)
        else if ((49 <=? c) && (c <=? 57))%N then
          let '(m, _, rest) := read_digits s1 0%N 0 in Some (m, rest)
        else None
    | [] => None
    end in
  match int_part with
  | None => None
  | Some (m, s2) =>
      match parse_frac m s2 with
      | None => None
      | Some (m', nfrac, s3) =>
          match parse_exp s3 with
          | None => None
          | Some (x, s4) => Some (decimal neg m' (x - nfrac), s4)
          end
      end
  end.

(** The value of [c] as a digit of [radix], at most 36. *)
Definition radix_digit (radix c : N) : option N :=
  let v :=
    if ((48 <=? c) && (c <=? 57))%N then Some (c - 48)%N
    else if ((97 <=? c) && (c <=? 122))%N then Some (c - 87)%N
    else if ((65 <=? c) && (c <=? 90))%N then Some (c - 55)%N
    else None in
  match v with
  | Some d => if (d <? radix)%N then Some d else None
  | None => None
  end.

(** The longest run of digits of [radix] at the head of [s]: its value
    and whether it holds a digit at all. *)
Fixpoint read_radix (radix : N) (s : jsstring) (acc : N) (any : bool)
  : N * bool :=
  match s with
  | c :: t =>
      match radix_digit radix c with
      | Some d => read_radix radix t (radix * acc + d)%N true
      | None => (acc, any)
      end
  | [] => (acc, any)
  end.

(** [parseInt(s)] without a radix: leading white space is skipped, a
    sign is read, [0x] or [0X] selects radix 16, the longest run of
    digits is the value and what follows is ignored; no digit at all is
    [NaN].  The value is rounded to the nearest number.  (Past twenty
    significant decimal digits an implementation may round the digits
    first; such values lie above 10^20.) *)
Definition parseInt (s : jsstring) : number :=
  let s1 := drop_space s in
  let '(neg, s2) :=
    match s1 with
    | c :: t =>
        if (c =? 45)%N then (true, t)
        else if (c =? 43)%N then (false, t)
        else (false, s1)
    | [] => (false, s1)
    end in
  let '(radix, s3) :=
    match s2 with
    | a :: b :: t =>
        if ((a =? 48) && ((b =? 120) || (b =? 88)))%N then (16%N, t)
        else (10%N, s2)
    | _ => (10%N, s2)
    end in
  let '(m, any) := read_radix radix s3 0%N false in
  if any
  then binary_normalize prec emax (if neg then - Z.of_N m else Z.of_N m) 0 neg
  else S754_nan.

(** The characters of a string literal after its opening quote, up to
    and including the closing one; [acc] holds what was read, reversed. *)
Fixpoint parse_string_body (s acc : jsstring) : option (jsstring * jsstring) :=
  match s with
  | [] => None
  | c :: t =>
      if (c =? 34)%N then Some (rev acc, t)
      else if (c =? 92)%N then
        match t with
        | e :: t' =>
            if ((e =? 34) || (e =? 92) || (e =? 47))%N
            then parse_string_body t' (e :: acc)
            else if (e =? 98)%N then parse_string_body t' (8%N :: acc)
            else if (e =? 102)%N then parse_string_body t' (12%N :: acc)
            else if (e =? 110)%N then parse_string_body t' (10%N :: acc)
            else if (e =? 114)%N then parse_string_body t' (13%N :: acc)
            else if (e =? 116)%N then parse_string_body t' (9%N :: acc)
            else if (e =? 117)%N then
              match t' with
              | h1 :: h2 :: h3 :: h4 :: t'' =>
                  match hex_val h1, hex_val h2, hex_val h3, hex_val h4 with
                  | Some a, Some b, Some c', Some d =>
                      parse_string_body t''
                        (((a * 16 + b) * 16 + c') * 16 + d :: acc)%N
                  | _, _, _, _ => None
                  end
              | _ => None
              end
            else None
        | [] => None
        end
      else if (c <? 32)%N then None
      else parse_string_body t (c :: acc)
  end.

(** [expect w s]: the rest of [s] after the word [w]. *)
Fixpoint expect (w s : jsstring) : option jsstring :=
  match w, s with
  | [], _ => Some s
  | a :: w', b :: s' => if code_eqb a b then expect w' s' else None
  | _ :: _, [] => None
  end.

(** An array index as a property key: the canonical decimal text of an
    integer below 2^32 - 1. *)
Definition index_key (k : jsstring) : option N :=
  match k with
  | [] => None
  | c :: t =>
      if ((c =? 48)%N && negb (match t with [] => true | _ => false end))
      then None
      else
        let '(m, n, rest) := read_digits k 0%N 0 in
        match rest with
        | [] => if (m <? 4294967295)%N then Some m else None
        | _ => None
        end
  end.

(** Whether key [a] is enumerated before key [b] when both are new:
    array indices first, in ascending order, then the other keys in
    the order of their creation. *)
Definition key_before (a b : jsstring) : bool :=
  match index_key a, index_key b with
  | Some x, Some y => (x <? y)%N
  | Some _, None => true
  | None, _ => false
  end.

(** Defining property [k] on an object: an existing property keeps its
    place and takes the new value. *)
Fixpoint obj_set (k : jsstring) (v : jsval) (fields : list (jsstring * jsval))
  : list (jsstring * jsval) :=
  match fields with
  | [] => [(k, v)]
  | (k', v') :: rest =>
      if str_eqb k k' then (k, v) :: rest
      else if key_before k k'
           && negb (existsb (fun kv => str_eqb k (fst kv)) rest)
      then (k, v) :: fields
      else (k', v') :: obj_set k v rest
  end.

Fixpoint parse_value (fuel : nat) (s : jsstring) {struct fuel}
  : option (jsval * jsstring) :=
  match fuel with
  | O => None
  | S f =>
      match skip_ws s with
      | [] => None
      | c :: t =>
          if (c =? 110)%N then
            option_map (fun r => (VNull, r)) (expect (js "ull") t)
          else if (c =? 116)%N then
            option_map (fun r => (VBool true, r)) (expect (js "rue") t)
          else if (c =? 102)%N then
            option_map (fun r => (VBool false, r)) (expect (js "alse") t)
          else if (c =? 34)%N then
            option_map (fun p => (VStr (fst p), snd p)) (parse_string_body t [])
          else if (c =? 91)%N then
            match skip_ws t with
            | c' :: t' =>
                if (c' =? 93)%N then Some (VArr [], t')
                else parse_elements f t []
            | [] => None
            end
          else if (c =? 123)%N then
            match skip_ws t with
            | c' :: t' =>
                if (c' =? 125)%N then Some (VObj [], t')
                else parse_members f t []
            | [] => None
            end
          else
            option_map (fun p => (VNum (fst p), snd p)) (parse_number (c :: t))
      end
  end
with parse_elements (fuel : nat) (s : jsstring) (acc : list jsval) {struct fuel}
  : option (jsval * jsstring) :=
  match fuel with
  | O => None
  | S f =>
      match parse_value f s with
      | None => None
      | Some (v, rest) =>
          match skip_ws rest with
          | c :: t =>
              if (c =? 44)%N then parse_elements f t (v :: acc)
              else if (c =? 93)%N then Some (VArr (rev (v :: acc)), t)
              else None
          | [] => None
          end
      end
  end
with parse_members (fuel : nat) (s : jsstring) (acc : list (jsstring * jsval))
  {struct fuel} : option (jsval * jsstring) :=
  match fuel with
  | O => None
  | S f =>
      match skip_ws s with
      | q :: t =>
          if (q =? 34)%N then
            match parse_string_body t [] with
            | None => None
            | Some (key, rest) =>
                match skip_ws rest with
                | c :: t1 =>
                    if (c =? 58)%N then
                      match parse_value f t1 with
                      | None => None
                      | Some (v, rest') =>
                          match skip_ws rest' with
                          | c' :: t2 =>
                              if (c' =? 44)%N
                              then parse_members f t2 (obj_set key v acc)
                              else if (c' =? 125)%N
                              then Some (VObj (obj_set key v acc), t2)
                              else None
                          | [] => None
                          end
                      end
                    else None
                | [] => None
                end
            end
          else None
      | [] => None
      end
  end.

(** [JSON.parse(text)] on a string.  A value nested [d] levels deep in a
    text of [n] code units needs less than [2 * n + 2] nested calls. *)
Definition JSON_parse (text : jsstring) : result jsval :=
  match parse_value (2 * List.length text + 2) text with
  | Some (v, rest) =>
      match skip_ws rest with
      | [] => Ok v
      | _ :: _ => Throw SyntaxError
      end
  | None => Throw SyntaxError
  end.

(** *** Writing JSON text *)

Definition hex_digit (d : N) : N :=
  if (d <? 10)%N then (d + 48)%N else (d + 87)%N.

(** [\uXXXX] *)
Definition uescape (c : N) : jsstring :=
  [92%N; 117%N;
   hex_digit ((c / 4096) mod 16); hex_digit ((c / 256) mod 16);
   hex_digit ((c / 16) mod 16); hex_digit (c mod 16)]%N.

Definition is_high_surrogate (c : N) : bool := ((55296 <=? c) && (c <=? 56319))%N.
Definition is_low_surrogate (c : N) : bool := ((56320 <=? c) && (c <=? 57343))%N.

(** QuoteJSONString, without the enclosing quotes. *)
Fixpoint quote_body (s : jsstring) : jsstring :=
  match s with
  | [] => []
  | c :: t =>
      if (c =? 34)%N then 92%N :: 34%N :: quote_body t
      else if (c =? 92)%N then 92%N :: 92%N :: quote_body t
      else if (c =? 8)%N then 92%N :: 98%N :: quote_body t
      else if (c =? 12)%N then 92%N :: 102%N :: quote_body t
      else if (c =? 10)%N then 92%N :: 110%N :: quote_body t
      else if (c =? 13)%N then 92%N :: 114%N :: quote_body t
      else if (c =? 9)%N then 92%N :: 116%N :: quote_body t
      else if (c <? 32)%N then uescape c ++ quote_body t
      else if is_high_surrogate c then
        match t with
        | d :: t' =>
            if is_low_surrogate d then c :: d :: quote_body t'
            else uescape c ++ quote_body t
        | [] => uescape c
        end
      else if is_low_surrogate c then uescape c ++ quote_body t
      else c :: quote_body t
  end.

Definition quote (s : jsstring) : jsstring :=
  34%N :: quote_body s ++ [34%N].

Fixpoint join (sep : jsstring) (l : list jsstring) : jsstring :=
  match l with
  | [] => []
  | [x] => x
  | x :: l' => x ++ sep ++ join sep l'
  end.

Section WithPlatform.
Context {P : Platform}.

(** [JSON.stringify(v)]: [undefined] has no text; inside an array it
    is written [null], inside an object its property is left out.
    A number that is not finite is written [null]. *)
Fixpoint JSON_stringify (v : jsval) : option jsstring :=
  match v with
  | VUndefined => None
  | VNull => Some (js "null")
  | VBool true => Some (js "true")
  | VBool false => Some (js "false")
  | VNum x => Some (if is_finite x then number_to_string x else js "null")
  | VStr s => Some (quote s)
  | VArr items =>
      Some (js "[" ++
            join (js ",")
              ((fix elems (l : list jsval) : list jsstring :=
                  match l with
                  | [] => []
                  | e :: l' =>
                      match JSON_stringify e with
                      | Some t => t
                      | None => js "null"
                      end :: elems l'
                  end) items) ++ js "]")
  | VObj fields =>
      Some (js "{" ++
            join (js ",")
              ((fix members (l : list (jsstring * jsval)) : list jsstring :=
                  match l with
                  | [] => []
                  | (k, e) :: l' =>
                      match JSON_stringify e with
                      | Some t => (quote k ++ js ":" ++ t) :: members l'
                      | None => members l'
                      end
                  end) fields) ++ js "}")
  end.

(** ToString, as a template literal applies it to a substitution, on a
    value that came out of [JSON.parse].  An object goes through its
    [toString] method: a plain object inherits the one that answers
    [object Object], unless it has an own property of that name, which
    is never callable in a JSON value; [valueOf] then gives the object
    back and the conversion raises.  An array joins the conversions of
    its elements. *)
Fixpoint ToString (v : jsval) : result jsstring :=
  match v with
  | VUndefined => Ok (js "undefined")
  | VNull => Ok (js "null")
  | VBool true => Ok (js "true")
  | VBool false => Ok (js "false")
  | VNum x => Ok (number_to_string x)
  | VStr s => Ok s
  | VArr items =>
      match (fix elems (l : list jsval) : result (list jsstring) :=
               match l with
               | [] => Ok []
               | e :: l' =>
                   match (match e with
                          | VUndefined | VNull => Ok []
                          | _ => ToString e
                          end) with
                   | Throw x => Throw x
                   | Ok t =>
                       match elems l' with
                       | Throw x => Throw x
                       | Ok ts => Ok (t :: ts)
                       end
                   end
               end) items with
      | Ok ts => Ok (join (js ",") ts)
      | Throw x => Throw x
      end
  | VObj fields =>
      if existsb (fun kv => str_eqb (js "toString") (fst kv)) fields
      then Throw TypeError
      else Ok (js "[object Object]")
  end.

End WithPlatform.

(** Property read [o.k] on a value that came out of [JSON.parse]: a
    missing property is [undefined]; reading from [undefined] or [null]
    raises. *)
Definition get_prop (o : jsval) (k : jsstring) : result jsval :=
  match o with
  | VUndefined | VNull => Throw TypeError
  | VObj fields =>
      match find (fun kv => str_eqb k (fst kv)) fields with
      | Some kv => Ok (snd kv)
      | None => Ok VUndefined
      end
  | _ => Ok VUndefined
  end.

End Json.
Import Json.
(** ** The store

    The three tables of [initDatabase]; a table is the list of its rows in
    order of insertion.  Nullable columns that the handlers read or write
    with [null] are options. *)

Module Store.

Record reality_row := {
  r_id : jsstring;
  r_user_session : jsstring;
  r_title : jsstring;
  r_description : option jsstring;
  r_original_event : jsstring;
  r_outcomes : option jsstring;
  r_probability_score : number;
  r_impact_score : number;
  r_created_at : Z;
  r_updated_at : Z
}.

Record tree_row := {
  t_id : jsstring;
  t_user_session : jsstring;
  t_tree_data : option jsstring;
  t_share_token : option jsstring;
  t_is_public : Z;
  t_view_count : Z;
  t_created_at : Z
}.

Record analytics_row := {
  a_id : Z;
  a_user_session : jsstring;
  a_event_type : jsstring;
  a_event_data : option jsstring;
  a_timestamp : Z
}.

Record DB := {
  realities : list reality_row;
  reality_trees : list tree_row;
  analytics : list analytics_row;
  analytics_seq : Z
}.

(** A string bound to a TEXT parameter is written in UTF-8 and read
    back from it: a surrogate that is not half of a pair has no UTF-8
    form and is stored as U+FFFD. *)
Fixpoint utf8_text (s : jsstring) : jsstring :=
  match s with
  | [] => []
  | c :: t =>
      if is_high_surrogate c then
        match t with
        | d :: t' =>
            if is_low_surrogate d then c :: d :: utf8_text t'
            else 65533%N :: utf8_text t
        | [] => [65533%N]
        end
      else if is_low_surrogate c then 65533%N :: utf8_text t
      else c :: utf8_text t
  end.

(** A number bound to LIMIT or OFFSET: SQLite takes an integer, or a
    real that is a whole number strictly between -2^63 and 2^63; its
    answer to anything else ([NaN] is bound as NULL) is a datatype
    mismatch. *)
Definition sql_integer (x : number) : option Z :=
  match x with
  | S754_zero _ => Some 0
  | S754_finite s m e =>
      let v := cond_Zopp s (Zpos m) in
      if 0 <=? e then
        let z := v * 2 ^ e in
        if (- 2 ^ 63 <? z) && (z <? 2 ^ 63) then Some z else None
      else if Zpos m mod 2 ^ (- e) =? 0
      then Some (v / 2 ^ (- e))
      else None
  | _ => None
  end.

Definition empty_db : DB :=
  {| realities := []; reality_trees := []; analytics := []; analytics_seq := 0 |}.

(** [INSERT INTO realities]: [id] is the primary key. *)
Definition insert_reality (row : reality_row) (d : DB) : option DB :=
  if existsb (fun r => str_eqb (r_id r) (r_id row)) (realities d) then None
  else Some {| realities := realities d ++ [row];
               reality_trees := reality_trees d;
               analytics := analytics d;
               analytics_seq := analytics_seq d |}.

Definition token_eqb (a : option jsstring) (b : jsstring) : bool :=
  match a with
  | Some t => str_eqb t b
  | None => false
  end.

(** [INSERT INTO reality_trees]: [id] is the primary key and
    [share_token] is UNIQUE (any number of rows may hold NULL). *)
Definition insert_tree (row : tree_row) (d : DB) : option DB :=
  if existsb (fun r => str_eqb (t_id r) (t_id row)) (reality_trees d) then None
  else if match t_share_token row with
          | Some tok =>
              existsb (fun r => token_eqb (t_share_token r) tok) (reality_trees d)
          | None => false
          end then None
  else Some {| realities := realities d;
               reality_trees := reality_trees d ++ [row];
               analytics := analytics d;
               analytics_seq := analytics_seq d |}.

(** [INSERT INTO analytics]: the key is AUTOINCREMENT. *)
Definition insert_analytics (session type : jsstring) (data : option jsstring)
           (now : Z) (d : DB) : DB :=
  {| realities := realities d;
     reality_trees := reality_trees d;
     analytics := analytics d ++
                  [{| a_id := analytics_seq d + 1;
                      a_user_session := session;
                      a_event_type := type;
                      a_event_data := data;
                      a_timestamp := now |}];
     analytics_seq := analytics_seq d + 1 |}.

(** [ORDER BY created_at DESC], rows of equal time in order of insertion. *)
Fixpoint insert_desc (row : reality_row) (sorted : list reality_row)
  : list reality_row :=
  match sorted with
  | [] => [row]
  | r :: rest =>
      if r_created_at r <? r_created_at row then row :: sorted
      else r :: insert_desc row rest
  end.

Definition order_desc (rows : list reality_row) : list reality_row :=
  fold_left (fun sorted row => insert_desc row sorted) rows [].

(** [LIMIT ? OFFSET ?]: a negative limit lifts the bound, a negative
    offset skips nothing. *)
Definition limit_offset {A} (limit offset : Z) (rows : list A) : list A :=
  let skipped := skipn (Z.to_nat offset) rows in
  if limit <? 0 then skipped else firstn (Z.to_nat limit) skipped.

(** [SELECT * FROM realities WHERE user_session = ?
     ORDER BY created_at DESC LIMIT ? OFFSET ?] *)
Definition select_realities (session : jsstring) (limit offset : Z) (d : DB)
  : list reality_row :=
  limit_offset limit offset
    (order_desc
       (filter (fun r => str_eqb (r_user_session r) session) (realities d))).

(** [SELECT * FROM reality_trees WHERE share_token = ? AND is_public = 1],
    read with [db.get]: the first row, if any. *)
Definition select_shared_tree (token : jsstring) (d : DB) : option tree_row :=
  find (fun r => token_eqb (t_share_token r) token && (t_is_public r =? 1))
       (reality_trees d).

Definition count_view (r : tree_row) : tree_row :=
  {| t_id := t_id r;
     t_user_session := t_user_session r;
     t_tree_data := t_tree_data r;
     t_share_token := t_share_token r;
     t_is_public := t_is_public r;
     t_view_count := t_view_count r + 1;
     t_created_at := t_created_at r |}.

(** [UPDATE reality_trees SET view_count = view_count + 1 WHERE id = ?] *)
Definition bump_view_count (id : jsstring) (d : DB) : DB :=
  {| realities := realities d;
     reality_trees :=
       map (fun r => if str_eqb (t_id r) id then count_view r else r)
           (reality_trees d);
     analytics := analytics d;
     analytics_seq := analytics_seq d |}.

(** [SELECT COUNT( * ) ... WHERE user_session = ?] on each table. *)
Definition count_realities (session : jsstring) (d : DB) : Z :=
  Z.of_nat (List.length
    (filter (fun r => str_eqb (r_user_session r) session) (realities d))).
Definition count_trees (session : jsstring) (d : DB) : Z :=
  Z.of_nat (List.length
    (filter (fun r => str_eqb (t_user_session r) session) (reality_trees d))).
Definition count_analytics (session : jsstring) (d : DB) : Z :=
  Z.of_nat (List.length
    (filter (fun r => str_eqb (a_user_session r) session) (analytics d))).

End Store.
Import Store.

(** ** The world of a request

    What a handler can observe and change: the stream of values that
    [Math.random] will return, the stream of identifiers that [uuidv4] will
    return, the clock, and the database.  A computation reads and updates
    the world and either returns or throws; what it did before throwing
    stays done. *)

Module World.

Record World := {
  rand_src : nat -> number;
  rand_pos : nat;
  uuid_src : nat -> jsstring;
  uuid_pos : nat;
  clock : Z;
  db : DB
}.

Definition M (A : Type) : Type := World -> result A * World.

Definition ret {A} (a : A) : M A := fun w => (Ok a, w).
Definition throw {A} (e : js_error) : M A := fun w => (Throw e, w).
Definition bind {A B} (m : M A) (f : A -> M B) : M B :=
  fun w =>
    match m w with
    | (Ok a, w') => f a w'
    | (Throw e, w') => (Throw e, w')
    end.
Definition lift {A} (r : result A) : M A := fun w => (r, w).

(** [try { body } catch (error) { handler }]; a run that never leaves
    its loop has nothing to catch. *)
Definition try_catch {A} (body : M A) (handler : js_error -> M A) : M A :=
  fun w =>
    match body w with
    | (Throw LoopBound, w') => (Throw LoopBound, w')
    | (Throw e, w') => handler e w'
    | ok => ok
    end.

Definition used_random (w : World) : World :=
  {| rand_src := rand_src w; rand_pos := S (rand_pos w);
     uuid_src := uuid_src w; uuid_pos := uuid_pos w;
     clock := clock w; db := db w |}.

Definition used_uuid (w : World) : World :=
  {| rand_src := rand_src w; rand_pos := rand_pos w;
     uuid_src := uuid_src w; uuid_pos := S (uuid_pos w);
     clock := clock w; db := db w |}.

Definition set_db (d : DB) (w : World) : World :=
  {| rand_src := rand_src w; rand_pos := rand_pos w;
     uuid_src := uuid_src w; uuid_pos := uuid_pos w;
     clock := clock w; db := d |}.

Definition set_clock (t : Z) (w : World) : World :=
  {| rand_src := rand_src w; rand_pos := rand_pos w;
     uuid_src := uuid_src w; uuid_pos := uuid_pos w;
     clock := t; db := db w |}.

(** [Math.random()] *)
Definition Math_random : M number :=
  fun w => (Ok (rand_src w (rand_pos w)), used_random w).

(** [uuidv4()] *)
Definition uuidv4 : M jsstring :=
  fun w => (Ok (uuid_src w (uuid_pos w)), used_uuid w).

Definition get_db : M DB := fun w => (Ok (db w), w).
Definition get_clock : M Z := fun w => (Ok (clock w), w).
Definition put_db (d : DB) : M unit := fun w => (Ok tt, set_db d w).

End World.
Import World.

Declare Scope js_scope.
Delimit Scope js_scope with js.
Notation "x <- m ;; k" := (bind m (fun x => k))
  (at level 61, m at next level, right associativity) : js_scope.
Notation "m ;;; k" := (bind m (fun _ => k))
  (at level 61, right associativity) : js_scope.
(** ** The narrative generator ([class AIService]) *)

Local Open Scope js_scope.

Module AIService.
Section Generator.
Context {P : Platform}.

Definition fallbackOutcomes : list jsstring :=
  [ js "opened unexpected opportunities"; js "created new challenges to overcome";
    js "led to meeting influential people"; js "sparked a passion for learning";
    js "resulted in a career pivot"; js "strengthened personal relationships";
    js "developed valuable life skills"; js "inspired creative pursuits";
    js "built financial independence"; js "fostered personal growth" ].

Definition fallbackConsequences : list jsstring :=
  [ js "starting a successful business"; js "moving to a dream location";
    js "discovering hidden talents"; js "building lasting friendships";
    js "overcoming personal fears"; js "achieving work-life balance";
    js "contributing to meaningful causes"; js "mastering new technologies" ].

Record Outcome := {
  o_id : jsstring;
  o_title : jsstring;
  o_description : jsstring;
  o_probability : number;
  o_impact : number;
  o_consequences : list jsval
}.

Record Reality := {
  title : jsstring;
  description : jsval;
  outcomes : list Outcome;
  probability : number;
  impact : number
}.

(** [arr[i]]: [undefined] outside the array. *)
Definition array_get (arr : list jsstring) (i : number) : jsval :=
  match array_index i with
  | Some n =>
      match nth_error arr n with
      | Some s => VStr s
      | None => VUndefined
      end
  | None => VUndefined
  end.

(** [arr.length] *)
Definition array_length {A} (arr : list A) : number :=
  num_of_Z (Z.of_nat (List.length arr)).

(** [arr[Math.floor(Math.random() * arr.length)]] *)
Definition pick (arr : list jsstring) : M jsval :=
  r <- Math_random ;;
  ret (array_get arr (Math_floor (num_mul r (array_length arr)))).

(** A method of [String.prototype] called on a value: a value that is
    not a string has no such method and the call raises. *)
Definition str_method {A} (f : jsstring -> A) (v : jsval) : result A :=
  match v with
  | VStr s => Ok (f s)
  | _ => Throw TypeError
  end.

(** The body of [for (let i = 0; i < numOutcomes; i++)] in
    [generateOutcomes], from the test on. *)
Fixpoint outcomes_loop (fuel : nat) (i numOutcomes : number)
         (outcomes : list Outcome) : M (list Outcome) :=
  match fuel with
  | O => throw LoopBound
  | S fuel' =>
      if num_ltb i numOutcomes then
        outcome <- pick fallbackOutcomes ;;
        consequence <- pick fallbackConsequences ;;
        id <- uuidv4 ;;
        outcome_text <- lift (ToString outcome) ;;
        consequence_text <- lift (ToString consequence) ;;
        p <- Math_random ;;
        im <- Math_random ;;
        outcomes_loop fuel' (num_add i (num_of_Z 1)) numOutcomes
          (outcomes ++
           [{| o_id := id;
               o_title := js "Path " ++ number_to_string (num_add i (num_of_Z 1));
               o_description :=
                 js "This decision " ++ outcome_text ++
                 js ", ultimately leading to " ++ consequence_text;
               o_probability :=
                 num_add (num_mul p (decimal false 8 (-1))) (decimal false 1 (-1));
               o_impact :=
                 num_add (Math_floor (num_mul im (num_of_Z 10))) (num_of_Z 1);
               o_consequences := [consequence] |}])
      else ret outcomes
  end.

(** Tests that the loop can need before it ends: one more than the
    number of passes, which for a finite bound is at most its integer
    part plus one. *)
Definition loop_fuel (numOutcomes : number) : nat :=
  match floorZ numOutcomes with
  | Some z => Z.to_nat z + 2
  | None => 1
  end.

Definition generateOutcomes (event : jsval) : M (list Outcome) :=
  r <- Math_random ;;
  let numOutcomes := num_add (Math_floor (num_mul r (num_of_Z 3))) (num_of_Z 2) in
  outcomes_loop (loop_fuel numOutcomes) (num_of_Z 0) numOutcomes [].

Definition generateDescription (event : jsval) : M jsval :=
  t1 <- lift (str_method toLowerCase event) ;;
  t2 <- lift (str_method toLowerCase event) ;;
  t3 <- lift (str_method toLowerCase event) ;;
  t4 <- lift (str_method toLowerCase event) ;;
  let templates :=
    [ js "In this reality, " ++ t1 ++ js " fundamentally changed your life trajectory";
      js "The decision to " ++ t2 ++ js " created a cascade of unexpected events";
      js "By choosing " ++ t3 ++ js ", you entered a completely different timeline";
      js "This alternative where " ++ t4 ++ js " shaped who you became" ] in
  pick templates.

Definition extractTitle (event : jsval) : result jsstring :=
  str_method extractTitle_str event.

Definition generateFallbackReality (event : jsval) : M Reality :=
  t <- lift (extractTitle event) ;;
  lower <- lift (str_method toLowerCase event) ;;
  id <- uuidv4 ;;
  ret {| title := t;
         description :=
           VStr (js "A reality where " ++ lower ++ js " led to profound changes");
         outcomes :=
           [{| o_id := id;
               o_title := js "Alternative Path";
               o_description := js "This path led to unexpected developments";
               o_probability := decimal false 6 (-1);
               o_impact := num_of_Z 7;
               o_consequences := [VStr (js "significant life changes")] |}];
         probability := decimal false 5 (-1);
         impact := num_of_Z 6 |}.

(** The [try] block of [generateReality]. *)
Definition generateReality_body (originalEvent : jsval) : M Reality :=
  outs <- generateOutcomes originalEvent ;;
  desc <- generateDescription originalEvent ;;
  t <- lift (extractTitle originalEvent) ;;
  p <- Math_random ;;
  im <- Math_random ;;
  ret {| title := t;
         description := desc;
         outcomes := outs;
         probability :=
           num_add (num_mul p (decimal false 7 (-1))) (decimal false 2 (-1));
         impact := num_add (Math_floor (num_mul im (num_of_Z 8))) (num_of_Z 3) |}.

Definition generateReality (originalEvent : jsval) : M Reality :=
  try_catch (generateReality_body originalEvent)
            (fun _ => generateFallbackReality originalEvent).

Definition outcome_to_val (o : Outcome) : jsval :=
  VObj [ (js "id", VStr (o_id o));
         (js "title", VStr (o_title o));
         (js "description", VStr (o_description o));
         (js "probability", VNum (o_probability o));
         (js "impact", VNum (o_impact o));
         (js "consequences", VArr (o_consequences o)) ].

End Generator.
End AIService.
Import AIService.
(** ** The request handlers *)

Module Server.

(** The JSON body of a response, one shape per route.  Row counts and
    view counts are integers far below 2^53, where a JavaScript number
    holds them exactly; they are kept as integers. *)
Inductive body :=
| BError (error : jsstring)
| BHealth (status : jsstring) (timestamp : Z)
| BCreated (id userSession : jsstring) (reality : Reality) (timestamp : Z)
| BRealities (realities : list (reality_row * jsval)) (count : Z)
| BTree (treeId : jsstring) (shareToken shareUrl : option jsstring)
| BShared (id : jsstring) (treeData : jsval) (viewCount : Z) (createdAt : Z)
| BStats (realitiesCreated treesSaved totalInteractions : Z)
         (diversityScore : number)
| BValue (v : jsval).

(** What the client gets: a status with a body, or nothing when an
    exception escapes a database callback (no handler catches it and no
    response is written). *)
Inductive response :=
| Respond (status : Z) (b : body)
| Uncaught (e : js_error).

(** The requests.  The parameters of a path ([:userSession],
    [:shareToken]) are decoded from the URL as UTF-8 and hold no lone
    surrogate, so that binding them to a query leaves them as they are;
    the strings of a JSON body can hold one.  A query parameter is the
    text given for it, if any. *)
Inductive request :=
| GetHealth
| PostRealities (event : jsval) (userSession : option jsstring)
| GetRealities (userSession : jsstring) (limit offset : option jsstring)
| PostTrees (treeData : jsval) (userSession : option jsstring)
            (makePublic : jsval) (protocol host : jsstring)
| GetSharedTree (shareToken : jsstring)
| GetStats (userSession : jsstring)
| PostEnhance (reality : jsval).

(** A handler that lets an exception escape. *)
Definition run (m : M response) : World -> response * World :=
  fun w =>
    match m w with
    | (Ok r, w') => (r, w')
    | (Throw e, w') => (Uncaught e, w')
    end.

(** A destructuring default: [{ userSession = uuidv4() }]. *)
Definition or_uuid (v : option jsstring) : M jsstring :=
  match v with
  | Some s => ret s
  | None => uuidv4
  end.

(** A value bound to a TEXT parameter. *)
Definition sql_text (v : jsval) : option jsstring :=
  match v with
  | VStr s => Some (utf8_text s)
  | _ => None
  end.

(** [parseInt] of a query parameter given once, as text, or of its
    default, bound to LIMIT or OFFSET. *)
Definition query_integer (param : option jsstring) (default : Z) : option Z :=
  match param with
  | Some text => sql_integer (parseInt text)
  | None => Some default
  end.

Fixpoint map_result {A B} (f : A -> result B) (l : list A) : result (list B) :=
  match l with
  | [] => Ok []
  | a :: l' =>
      match f a with
      | Throw e => Throw e
      | Ok b =>
          match map_result f l' with
          | Throw e => Throw e
          | Ok bs => Ok (b :: bs)
          end
      end
  end.

(** [JSON.parse(row.outcomes || '[]')] *)
Definition parse_outcomes (row : reality_row) : result jsval :=
  JSON_parse (match r_outcomes row with
              | None | Some [] => js "[]"
              | Some text => text
              end).

(** [JSON.parse(row.tree_data)]: a NULL column reads as [null], whose
    text is [null]. *)
Definition parse_tree_data (row : tree_row) : result jsval :=
  JSON_parse (match t_tree_data row with
              | None => js "null"
              | Some text => text
              end).

(** The own enumerable properties that [{...v}] copies. *)
Fixpoint dec_digits (fuel : nat) (n : N) (acc : jsstring) : jsstring :=
  match fuel with
  | O => acc
  | S f =>
      if (n <? 10)%N then (n + 48)%N :: acc
      else dec_digits f (n / 10)%N ((n mod 10 + 48)%N :: acc)
  end.
Definition index_text (n : nat) : jsstring :=
  dec_digits (S n) (N.of_nat n) [].
Fixpoint indexed {A} (f : A -> jsval) (l : list A) (n : nat)
  : list (jsstring * jsval) :=
  match l with
  | [] => []
  | a :: l' => (index_text n, f a) :: indexed f l' (S n)
  end.
Definition spread (v : jsval) : list (jsstring * jsval) :=
  match v with
  | VObj fields => fields
  | VArr items => indexed (fun e => e) items 0
  | VStr s => indexed (fun c => VStr [c]) s 0
  | _ => []
  end.

(** [shareToken ? `${req.protocol}://${req.get('host')}/share/${shareToken}` : null] *)
Definition share_url (protocol host : jsstring) (shareToken : option jsstring)
  : option jsstring :=
  match shareToken with
  | Some t =>
      if truthy (VStr t)
      then Some (protocol ++ js "://" ++ host ++ js "/share/" ++ t)
      else None
  | None => None
  end.

Section Handlers.
Context {P : Platform}.

(** [logEvent]: the insertion is fire-and-forget.  The event type is
    one of two ASCII literals and the text of [JSON.stringify] holds no
    lone surrogate, so that UTF-8 changes neither. *)
Definition logEvent (userSession eventType : jsstring) (eventData : jsval)
  : M unit :=
  d <- get_db ;;
  now <- get_clock ;;
  put_db (insert_analytics (utf8_text userSession) eventType
            (JSON_stringify eventData) now d).

(** [app.get('/api/health')] *)
Definition get_health : M response :=
  now <- get_clock ;;
  ret (Respond 200 (BHealth (js "healthy") now)).

(** [app.post('/api/realities')] *)
Definition post_realities (event : jsval) (userSession : option jsstring)
  : M response :=
  try_catch
    (session <- or_uuid userSession ;;
     text <- (if negb (truthy event) then ret None
              else s <- lift (str_method (fun s => s) event) ;;
                   ret (if (List.length (trim s) =? 0)%nat then None else Some s)) ;;
     match text with
     | None => ret (Respond 400 (BError (js "Event description is required")))
     | Some original_event =>
         reality <- generateReality event ;;
         realityId <- uuidv4 ;;
         d <- get_db ;;
         now <- get_clock ;;
         match insert_reality
                 {| r_id := realityId;
                    r_user_session := utf8_text session;
                    r_title := utf8_text (title reality);
                    r_description := sql_text (description reality);
                    r_original_event := utf8_text original_event;
                    r_outcomes :=
                      JSON_stringify (VArr (map outcome_to_val (outcomes reality)));
                    r_probability_score := probability reality;
                    r_impact_score := impact reality;
                    r_created_at := now;
                    r_updated_at := now |} d with
         | None => ret (Respond 500 (BError (js "Failed to save reality")))
         | Some d' =>
             put_db d' ;;;
             logEvent session (js "create_reality")
               (VObj [(js "event", event); (js "realityId", VStr realityId)]) ;;;
             ret (Respond 200 (BCreated realityId session reality now))
         end
     end)
    (fun _ => ret (Respond 500 (BError (js "Failed to generate reality")))).

(** [app.get('/api/realities/:userSession')]; [limit] and [offset] are
    the query parameters, when the query has them.  A LIMIT or OFFSET
    that SQLite does not take makes the SELECT fail. *)
Definition get_realities (userSession : jsstring) (limit offset : option jsstring)
  : M response :=
  d <- get_db ;;
  match query_integer limit 20, query_integer offset 0 with
  | Some l, Some o =>
      let rows := select_realities userSession l o d in
      realities <- lift (map_result
                           (fun row =>
                              match parse_outcomes row with
                              | Ok v => Ok (row, v)
                              | Throw e => Throw e
                              end) rows) ;;
      ret (Respond 200 (BRealities realities (Z.of_nat (List.length rows))))
  | _, _ => ret (Respond 500 (BError (js "Failed to fetch realities")))
  end.

(** [app.post('/api/trees')] *)
Definition post_trees (treeData : jsval) (userSession : option jsstring)
           (makePublic : jsval) (protocol host : jsstring) : M response :=
  session <- or_uuid userSession ;;
  let makePublic :=
    match makePublic with VUndefined => VBool false | v => v end in
  treeId <- uuidv4 ;;
  shareToken <- (if truthy makePublic
                 then t <- uuidv4 ;; ret (Some t)
                 else ret None) ;;
  d <- get_db ;;
  now <- get_clock ;;
  match insert_tree
          {| t_id := treeId;
             t_user_session := utf8_text session;
             t_tree_data := JSON_stringify treeData;
             t_share_token := shareToken;
             t_is_public := if truthy makePublic then 1 else 0;
             t_view_count := 0;
             t_created_at := now |} d with
  | None => ret (Respond 500 (BError (js "Failed to save tree")))
  | Some d' =>
      put_db d' ;;;
      logEvent session (js "save_tree")
        (VObj [(js "treeId", VStr treeId); (js "makePublic", makePublic)]) ;;;
      ret (Respond 200
             (BTree treeId shareToken (share_url protocol host shareToken)))
  end.

(** [app.get('/api/trees/share/:shareToken')].  The UPDATE is only
    queued by [db.run]: it runs once the callback has returned, so that
    when [JSON.parse] raises in the callback no view is counted. *)
Definition get_shared_tree (shareToken : jsstring) : M response :=
  d <- get_db ;;
  match select_shared_tree shareToken d with
  | None => ret (Respond 404 (BError (js "Shared tree not found")))
  | Some row =>
      treeData <- lift (parse_tree_data row) ;;
      put_db (bump_view_count (t_id row) d) ;;;
      ret (Respond 200
             (BShared (t_id row) treeData (t_view_count row + 1) (t_created_at row)))
  end.

(** [app.get('/api/stats/:userSession')] *)
Definition get_stats (userSession : jsstring) : M response :=
  d <- get_db ;;
  let reality_count := count_realities userSession d in
  let tree_count := count_trees userSession d in
  let interaction_count := count_analytics userSession d in
  ret (Respond 200
         (BStats reality_count tree_count interaction_count
            (Math_floor
               (num_add
                  (num_mul (num_of_Z reality_count) (decimal false 17 (-1)))
                  (num_mul (num_of_Z interaction_count) (decimal false 3 (-1))))))).

(** [app.post('/api/ai/enhance-reality')] *)
Definition post_enhance (reality : jsval) : M response :=
  try_catch
    (let copied := spread reality in
     desc <- lift (get_prop reality (js "description")) ;;
     desc_text <- lift (ToString desc) ;;
     t <- lift (get_prop reality (js "title")) ;;
     alternatives <- generateOutcomes t ;;
     ret (Respond 200
            (BValue
               (VObj
                  (obj_set (js "insights")
                     (VArr [ VStr (js "Every decision creates ripple effects we can't predict");
                             VStr (js "Alternative paths often reveal our hidden potential");
                             VStr (js "The road not taken teaches us about who we are") ])
                  (obj_set (js "alternativeOutcomes")
                     (VArr (map outcome_to_val alternatives))
                  (obj_set (js "enhancedDescription")
                     (VStr (desc_text ++
                            js " This reality explores themes of personal growth, unexpected opportunities, and the interconnected nature of our choices."))
                     copied)))))))
    (fun _ => ret (Respond 500 (BError (js "Failed to enhance reality")))).

(** The routes. *)
Definition handle (req : request) : World -> response * World :=
  match req with
  | GetHealth => run get_health
  | PostRealities event userSession => run (post_realities event userSession)
  | GetRealities userSession limit offset =>
      run (get_realities userSession limit offset)
  | PostTrees treeData userSession makePublic protocol host =>
      run (post_trees treeData userSession makePublic protocol host)
  | GetSharedTree shareToken => run (get_shared_tree shareToken)
  | GetStats userSession => run (get_stats userSession)
  | PostEnhance reality => run (post_enhance reality)
  end.

(** The states of the world that the server can be in: it starts on the
    empty tables of [initDatabase], time passes, requests are served. *)
Inductive reachable : World -> Prop :=
| reach_init : forall w, db w = empty_db -> reachable w
| reach_tick : forall w t,
    reachable w -> clock w <= t ->
    reachable (set_clock t w)
| reach_request : forall w req,
    reachable w -> reachable (snd (handle req w)).

End Handlers.
End Server.
Import Server.
(** ** A platform and a world to run the model on

    [basic_platform] agrees with the host on Basic Latin text and on the
    numbers that are written without an exponent: lower-casing maps A-Z to
    a-z and leaves other code units alone, and a number is rendered with
    the fewest fraction digits that read back as the same number. *)

Module Sample.

Definition lower_basic (c : N) : N :=
  if ((65 <=? c) && (c <=? 90))%N then (c + 32)%N else c.

(** The digits of [n], padded with zeros to at least [width] digits. *)
Fixpoint pad_digits (width : nat) (n : N) (acc : jsstring) : jsstring :=
  match width with
  | O => if (n =? 0)%N then acc else dec_digits (N.to_nat n) n [] ++ acc
  | S w => pad_digits w (n / 10)%N ((n mod 10 + 48)%N :: acc)
  end.

(** Tries [f], [f + 1], ... fraction digits for the magnitude [m / d]. *)
Fixpoint shortest (fuel : nat) (f : nat) (x : number) (m d : Z) : jsstring :=
  match fuel with
  | O => js "NaN"
  | S fuel' =>
      let scaled := (2 * m * 10 ^ Z.of_nat f + d) / (2 * d) in
      if SFeqb (decimal false (Z.to_N scaled) (- Z.of_nat f)) x then
        let ip := Z.to_N (scaled / 10 ^ Z.of_nat f) in
        let fp := Z.to_N (scaled mod 10 ^ Z.of_nat f) in
        dec_digits (S (N.to_nat ip)) ip [] ++
        match f with
        | O => []
        | _ => 46%N :: pad_digits f fp []
        end
      else shortest fuel' (S f) x m d
  end.

Definition render (x : number) : jsstring :=
  match x with
  | S754_zero _ => js "0"
  | S754_nan => js "NaN"
  | S754_infinity false => js "Infinity"
  | S754_infinity true => js "-Infinity"
  | S754_finite s m e =>
      (if s then js "-" else []) ++
      (if 0 <=? e
       then let n := Z.to_N (Zpos m * 2 ^ e) in dec_digits (S (N.to_nat n)) n []
       else shortest 400 0 (S754_finite false m e) (Zpos m) (2 ^ (- e)))
  end.

Definition basic_platform : Platform :=
  {| toLowerCase := map lower_basic; number_to_string := render |}.

(** A world whose random source is constant and whose identifiers are
    numbered. *)
Definition sample_world (r : number) (d : DB) : World :=
  {| rand_src := fun _ => r;
     rand_pos := 0;
     uuid_src := fun n => js "uuid-" ++ index_text n;
     uuid_pos := 0;
     clock := 1700000000;
     db := d |}.

End Sample.
Import Sample.
(** ** Notions used to state the properties *)

Section Notions.
Context {P : Platform}.

(** The identifiers that [POST /trees] draws: the session when the body
    has none, then the tree, then the share token of a public tree. *)
Definition public_flag (makePublic : jsval) : bool :=
  truthy (match makePublic with VUndefined => VBool false | v => v end).

Definition new_tree_id (userSession : option jsstring) (w : World) : jsstring :=
  let w1 := snd (or_uuid userSession w) in uuid_src w1 (uuid_pos w1).

Definition new_share_token (userSession : option jsstring) (makePublic : jsval)
           (w : World) : option jsstring :=
  let w1 := snd (or_uuid userSession w) in
  if public_flag makePublic then Some (uuid_src w1 (S (uuid_pos w1))) else None.

(** The row that [POST /trees] binds to its INSERT. *)
Definition new_tree_row (treeData : jsval) (userSession : option jsstring)
           (makePublic : jsval) (w : World) : tree_row :=
  {| t_id := new_tree_id userSession w;
     t_user_session :=
       utf8_text
         (match userSession with Some s => s | None => uuid_src w (uuid_pos w) end);
     t_tree_data := JSON_stringify treeData;
     t_share_token := new_share_token userSession makePublic w;
     t_is_public := if public_flag makePublic then 1 else 0;
     t_view_count := 0;
     t_created_at := clock w |}.

(** The world after the identifiers of [POST /trees] were drawn. *)
Definition after_tree_ids (userSession : option jsstring) (makePublic : jsval)
           (w : World) : World :=
  let w1 := used_uuid (snd (or_uuid userSession w)) in
  if public_flag makePublic then used_uuid w1 else w1.

End Notions.

(** The share tokens held by a table. *)
Definition share_tokens (trees : list tree_row) : list jsstring :=
  flat_map (fun r => match t_share_token r with Some t => [t] | None => [] end)
           trees.

Definition token_iff_public (row : tree_row) : Prop :=
  t_share_token row <> None <-> t_is_public row = 1.

(** What the constraints of the table and the handlers keep true. *)
Record tree_inv (d : DB) : Prop := {
  inv_ids : NoDup (map t_id (reality_trees d));
  inv_tokens : NoDup (share_tokens (reality_trees d));
  inv_public : Forall token_iff_public (reality_trees d)
}.

(** The columns of a tree that sharing depends on. *)
Definition sharing_columns (r : tree_row) : jsstring * option jsstring * Z :=
  (t_id r, t_share_token r, t_is_public r).

(** [floor(realityCount * 1.7 + interactionCount * 0.3)] over the
    rationals, as the specification computes it. *)
Definition diversity_exact (realityCount interactionCount : Z) : Z :=
  Qfloor (inject_Z realityCount * (17 # 10) + inject_Z interactionCount * (3 # 10)).

(** The same expression in binary64 arithmetic, as the handler computes it. *)
Definition diversity_binary64 (realityCount interactionCount : Z) : number :=
  Math_floor
    (num_add (num_mul (num_of_Z realityCount) (decimal false 17 (-1)))
             (num_mul (num_of_Z interactionCount) (decimal false 3 (-1)))).

(** Structural equality of two numbers. *)
Definition number_eqb (x y : number) : bool :=
  match x, y with
  | S754_zero a, S754_zero b => Bool.eqb a b
  | S754_infinity a, S754_infinity b => Bool.eqb a b
  | S754_nan, S754_nan => true
  | S754_finite a m e, S754_finite b n f =>
      Bool.eqb a b && Pos.eqb m n && Z.eqb e f
  | _, _ => false
  end.

(** How the binary64 score relates to the exact one for given counts:
    equal when the exact sum is not a whole number, equal or one less
    when it is. *)
Definition diversity_close (r i : Z) : bool :=
  let k := diversity_exact r i in
  number_eqb (diversity_binary64 r i) (num_of_Z k) ||
  (((17 * r + 3 * i) mod 10 =? 0) &&
   number_eqb (diversity_binary64 r i) (num_of_Z (k - 1))).

Definition diversity_close_upto (n : nat) : bool :=
  forallb (fun r => forallb (fun i => diversity_close (Z.of_nat r) (Z.of_nat i))
                            (seq 0 n))
          (seq 0 n).

(** The world after [n] more realities were created for [session]. *)
Fixpoint create_realities {P : Platform} (n : nat) (session : jsstring)
         (w : World) : World :=
  match n with
  | O => w
  | S n' =>
      create_realities n' session
        (snd (handle (PostRealities (VStr (js "what if I had stayed")) (Some session)) w))
  end.

(** A table with one row whose [outcomes] text is not JSON. *)
Definition corrupt_row : reality_row :=
  {| r_id := js "r-1";
     r_user_session := js "s";
     r_title := js "t";
     r_description := None;
     r_original_event := js "e";
     r_outcomes := Some (js "not json");
     r_probability_score := decimal false 5 (-1);
     r_impact_score := num_of_Z 6;
     r_created_at := 0;
     r_updated_at := 0 |}.

Definition corrupt_db : DB :=
  {| realities := [corrupt_row];
     reality_trees := [];
     analytics := [];
     analytics_seq := 0 |}.

(** The worlds of the examples: half for every random draw, numbered
    identifiers, on the empty database. *)
Definition start_world : World := sample_world (decimal false 5 (-1)) empty_db.

(** A private tree that nevertheless holds a token, as a row written by
    hand into the table could. *)
Definition private_row : tree_row :=
  {| t_id := js "t-1";
     t_user_session := js "s";
     t_tree_data := Some (js "{}");
     t_share_token := Some (js "tok-1");
     t_is_public := 0;
     t_view_count := 0;
     t_created_at := 0 |}.

Definition private_world : World :=
  sample_world (decimal false 5 (-1))
    {| realities := []; reality_trees := [private_row];
       analytics := []; analytics_seq := 0 |}.

(** A request that saves a public tree, and one that saves a private one. *)
Definition save_public : request :=
  PostTrees (VObj [(js "root", VStr (js "a"))]) (Some (js "s")) (VBool true)
            (js "http") (js "localhost:3001").

Definition save_private : request :=
  PostTrees VUndefined (Some (js "s")) (VBool false) (js "http") (js "localhost:3001").

(** *** The steps of a generation

    [generateReality] calls [generateOutcomes] and [generateDescription]
    through [this] and awaits them; its [try] block and its [catch] do
    not depend on what the two methods do. *)
Section Generation.
Context {P : Platform}.






End Generation.
(** ** Notions used in the proofs *)

(** [entropy_step w w']: from [w] to [w'] only values of the two
    oracles were consumed. *)
Definition entropy_step (w w' : World) : Prop :=
  db w' = db w /\ clock w' = clock w /\
  rand_src w' = rand_src w /\ uuid_src w' = uuid_src w /\
  (rand_pos w <= rand_pos w')%nat /\ (uuid_pos w <= uuid_pos w')%nat.

(** A computation that only consumes values of the oracles. *)
Definition pure_gen {A} (m : M A) : Prop :=
  forall w, entropy_step w (snd (m w)).

(** [loc_inv mrs M k]: the record [mrs] is [M] without its [k] low bits,
    its two flags telling where the dropped part lies with respect to
    half a unit. *)
Definition loc_inv (mrs : shr_record) (M k : Z) : Prop :=
  shr_m mrs = M / 2 ^ k /\
  match shr_r mrs, shr_s mrs with
  | false, false => M mod 2 ^ k = 0
  | false, true => 0 < 2 * (M mod 2 ^ k) < 2 ^ k
  | true, false => 2 * (M mod 2 ^ k) = 2 ^ k
  | true, true => 2 ^ k < 2 * (M mod 2 ^ k)
  end.

(** [rounds_to M k m2]: [m2] is [M / 2^k] rounded to an integer, at most
    half a unit away and equal to [M] when nothing is dropped. *)
Definition rounds_to (M k m2 : Z) : Prop :=
  M / 2 ^ k <= m2 <= M / 2 ^ k + 1 /\
  2 * M - 2 ^ k <= 2 * (m2 * 2 ^ k) <= 2 * M + 2 ^ k /\
  (k = 0 -> m2 = M).

(** [holds r m e]: [r] is the valid number whose value is [m * 2^e]. *)
Definition holds (r : number) (m e : Z) : Prop :=
  match r with
  | S754_zero false => m = 0
  | S754_finite false m3 e3 =>
      bounded prec emax m3 e3 = true /\ e <= e3 /\ Zpos m3 * 2 ^ (e3 - e) = m
  | _ => False
  end.

(** A number that is zero or positive, and valid. *)
Definition nonneg_valid (r : number) : Prop :=
  match r with
  | S754_zero false => True
  | S754_finite false m e => bounded prec emax m e = true
  | _ => False
  end.


(** ** Notions of the further properties *)

From Stdlib Require Import Sorted.

Section OutcomeNotions.
Context {P : Platform}.

(** The sentence of an outcome, from one entry of each pool. *)
Definition outcome_text (outcome consequence : jsstring) : jsstring :=
  js "This decision " ++ outcome ++ js ", ultimately leading to " ++ consequence.

(** The four sentences of [generateDescription] around a phrase. *)
Definition description_templates (t : jsstring) : list jsstring :=
  [ js "In this reality, " ++ t ++ js " fundamentally changed your life trajectory";
    js "The decision to " ++ t ++ js " created a cascade of unexpected events";
    js "By choosing " ++ t ++ js ", you entered a completely different timeline";
    js "This alternative where " ++ t ++ js " shaped who you became" ].

(** An outcome as [generateOutcomes] means it: both parts of its text
    come from the pools, its only consequence is the one of the text,
    its probability lies in [0.1, 0.9) and its impact is an integer from
    1 to 10. *)
Record outcome_ok (o : Outcome) : Prop := {
  ok_text :
    exists outcome consequence,
      In outcome fallbackOutcomes /\ In consequence fallbackConsequences /\
      o_description o = outcome_text outcome consequence /\
      o_consequences o = [VStr consequence];
  ok_probability :
    is_finite (o_probability o) = true /\
    (1 # 10 <= SF2Q (o_probability o))%Q /\ (SF2Q (o_probability o) < 9 # 10)%Q;
  ok_impact : exists k, o_impact o = num_of_Z k /\ 1 <= k <= 10
}.

End OutcomeNotions.

Section ServerNotions.
Context {P : Platform}.

(** The session of a request: the one of the body, or the identifier
    drawn in its place. *)
Definition session_of (userSession : option jsstring) (w : World) : jsstring :=
  match userSession with Some s => s | None => uuid_src w (uuid_pos w) end.

(** [POST /realities] draws the identifier of the new row once the
    session is known and the reality generated. *)
Definition new_reality_id (event : jsval) (userSession : option jsstring)
           (w : World) : jsstring :=
  let w2 := snd (generateReality event (snd (or_uuid userSession w))) in
  uuid_src w2 (uuid_pos w2).

(** The row that [POST /realities] binds to its INSERT. *)
Definition new_reality_row (event : jsstring) (userSession : option jsstring)
           (reality : Reality) (w : World) : reality_row :=
  {| r_id := new_reality_id (VStr event) userSession w;
     r_user_session := utf8_text (session_of userSession w);
     r_title := utf8_text (title reality);
     r_description := sql_text (description reality);
     r_original_event := utf8_text event;
     r_outcomes := JSON_stringify (VArr (map outcome_to_val (outcomes reality)));
     r_probability_score := probability reality;
     r_impact_score := impact reality;
     r_created_at := clock w;
     r_updated_at := clock w |}.

(** The requests served one after the other. *)
Definition serve (reqs : list request) (w : World) : World :=
  fold_left (fun w req => snd (handle req w)) reqs w.


End ServerNotions.

(** The status of a response, when one was written. *)
Definition status_of (r : response) : option Z :=
  match r with
  | Respond status _ => Some status
  | Uncaught _ => None
  end.

(** The routes that only read. *)
Definition reads_only (req : request) : bool :=
  match req with
  | GetHealth | GetRealities _ _ _ | GetStats _ | PostEnhance _ => true
  | _ => false
  end.

(** What one request can do to the tables: nothing, one reality and its
    event, one tree and its event, or one view counted. *)
Inductive db_step : DB -> DB -> Prop :=
| step_same : forall d, db_step d d
| step_reality : forall d row d1 data now,
    insert_reality row d = Some d1 ->
    db_step d (insert_analytics (r_user_session row) (js "create_reality") data now d1)
| step_tree : forall d row d1 data now,
    insert_tree row d = Some d1 ->
    t_view_count row = 0 ->
    db_step d (insert_analytics (t_user_session row) (js "save_tree") data now d1)
| step_view : forall d id, db_step d (bump_view_count id d).

(** The identifiers of the analytics table are 1, 2, ... in order, the
    counter being the last one given. *)
Definition analytics_numbered (d : DB) : Prop :=
  map a_id (analytics d) = map Z.of_nat (seq 1 (List.length (analytics d))) /\
  analytics_seq d = Z.of_nat (List.length (analytics d)).

(** Two rows of the tree table that differ at most in their view count,
    which did not go down. *)
Definition same_tree (r r' : tree_row) : Prop :=
  t_id r' = t_id r /\ t_user_session r' = t_user_session r /\
  t_tree_data r' = t_tree_data r /\ t_share_token r' = t_share_token r /\
  t_is_public r' = t_is_public r /\ t_created_at r' = t_created_at r /\
  t_view_count r <= t_view_count r'.

(** Rows from the newest to the oldest. *)
Definition newest_first (rows : list reality_row) : Prop :=
  StronglySorted (fun a b => r_created_at b <= r_created_at a) rows.

(** The property [k] of the own properties [fields], if any. *)
Definition own_prop (k : jsstring) (fields : list (jsstring * jsval))
  : option jsval :=
  option_map snd (find (fun kv => str_eqb k (fst kv)) fields).

(** The three properties that [POST /ai/enhance-reality] defines. *)
Definition enhance_keys : list jsstring :=
  [js "enhancedDescription"; js "alternativeOutcomes"; js "insights"].

Definition enhance_suffix : jsstring :=
  js " This reality explores themes of personal growth, unexpected opportunities, and the interconnected nature of our choices.".

Definition enhance_insights : jsval :=
  VArr [ VStr (js "Every decision creates ripple effects we can't predict");
         VStr (js "Alternative paths often reveal our hidden potential");
         VStr (js "The road not taken teaches us about who we are") ].

(** *** Values that JSON text carries *)

(** UTF-16 code units. *)
Definition code_units (s : jsstring) : Prop := Forall (fun c => (c < 65536)%N) s.

(** What follows a value in the text that [JSON.stringify] writes:
    nothing, a comma, or the end of the enclosing array or object. *)
Definition ends_value (rest : jsstring) : Prop :=
  match rest with
  | [] => True
  | c :: _ => c = 44%N \/ c = 93%N \/ c = 125%N
  end.

(** The properties [fields] in the order in which [JSON.parse] builds
    them, one definition after the other. *)
Definition define_all (fields acc : list (jsstring * jsval))
  : list (jsstring * jsval) :=
  fold_left (fun acc kv => obj_set (fst kv) (snd kv) acc) fields acc.

Definition in_order (fields : list (jsstring * jsval)) : Prop :=
  define_all fields [] = fields.

Section Carried.
Context {P : Platform}.

(** A finite number whose decimal text, as the platform renders it,
    reads back as the same number. *)
Definition reads_back (x : number) : Prop :=
  is_finite x = true /\
  forall rest, ends_value rest ->
    parse_number (number_to_string x ++ rest) = Some (x, rest).

(** The values that go through JSON text unchanged: no [undefined],
    numbers that read back, strings of code units, objects whose
    properties are in the order of their definition. *)
Fixpoint carried (v : jsval) : Prop :=
  match v with
  | VUndefined => False
  | VNull | VBool _ => True
  | VNum x => reads_back x
  | VStr s => code_units s
  | VArr items =>
      (fix all (l : list jsval) : Prop :=
         match l with
         | [] => True
         | e :: l' => carried e /\ all l'
         end) items
  | VObj fields =>
      in_order fields /\
      (fix all (l : list (jsstring * jsval)) : Prop :=
         match l with
         | [] => True
         | (k, e) :: l' => code_units k /\ carried e /\ all l'
         end) fields
  end.

Definition all_carried : list jsval -> Prop :=
  fix all (l : list jsval) : Prop :=
    match l with
    | [] => True
    | e :: l' => carried e /\ all l'
    end.

Definition members_carried : list (jsstring * jsval) -> Prop :=
  fix all (l : list (jsstring * jsval)) : Prop :=
    match l with
    | [] => True
    | (k, e) :: l' => code_units k /\ carried e /\ all l'
    end.

(** The texts that [join] gets from the elements of an array. *)
Definition element_strings : list jsval -> result (list jsstring) :=
  fix elems (l : list jsval) : result (list jsstring) :=
    match l with
    | [] => Ok []
    | e :: l' =>
        match (match e with
               | VUndefined | VNull => Ok []
               | _ => ToString e
               end) with
        | Throw x => Throw x
        | Ok t =>
            match elems l' with
            | Throw x => Throw x
            | Ok ts => Ok (t :: ts)
            end
        end
    end.

(** The text of a value inside an array. *)
Definition element_text (e : jsval) : jsstring :=
  match JSON_stringify e with
  | Some t => t
  | None => js "null"
  end.

Definition elements_text : list jsval -> list jsstring :=
  fix elems (l : list jsval) : list jsstring :=
    match l with
    | [] => []
    | e :: l' =>
        match JSON_stringify e with
        | Some t => t
        | None => js "null"
        end :: elems l'
    end.

Definition members_text : list (jsstring * jsval) -> list jsstring :=
  fix members (l : list (jsstring * jsval)) : list jsstring :=
    match l with
    | [] => []
    | (k, e) :: l' =>
        match JSON_stringify e with
        | Some t => (quote k ++ js ":" ++ t) :: members l'
        | None => members l'
        end
    end.

End Carried.

(** The nested calls that reading a value back takes at most. *)
Fixpoint cost (v : jsval) : nat :=
  match v with
  | VArr items =>
      S ((fix sum (l : list jsval) : nat :=
            match l with
            | [] => O
            | e :: l' => S (cost e + sum l')
            end) items)
  | VObj fields =>
      S ((fix sum (l : list (jsstring * jsval)) : nat :=
            match l with
            | [] => O
            | (_, e) :: l' => S (cost e + sum l')
            end) fields)
  | _ => 1%nat
  end.

Definition elements_cost : list jsval -> nat :=
  fix sum (l : list jsval) : nat :=
    match l with
    | [] => O
    | e :: l' => S (cost e + sum l')
    end.

Definition members_cost : list (jsstring * jsval) -> nat :=
  fix sum (l : list (jsstring * jsval)) : nat :=
    match l with
    | [] => O
    | (_, e) :: l' => S (cost e + sum l')
    end.

(** The test of [code_units]. *)
Definition code_unitsb (s : jsstring) : bool := forallb (fun c => (c <? 65536)%N) s.

(** A world whose source of identifiers starts over, as one that repeats
    itself would. *)
Definition rewind (w : World) : World :=
  {| rand_src := rand_src w; rand_pos := rand_pos w;
     uuid_src := uuid_src w; uuid_pos := 0;
     clock := clock w; db := db w |}.

(** A request that creates a reality for session [s]. *)
Definition create_stayed : request :=
  PostRealities (VStr (js "what if I had stayed")) (Some (js "s")).

(** A reality as a client would send it to be enhanced. *)
Definition sent_reality : jsval :=
  VObj [(js "title", VStr (js "I had stayed"));
        (js "description", VStr (js "The decision to stay"));
        (js "probability", VNum (decimal false 5 (-1)))].

(** Tree data with a string, a number and an array in it. *)
Definition sample_tree : jsval :=
  VObj [(js "root", VStr (js "a"));
        (js "weight", VNum (decimal false 5 (-1)));
        (js "children", VArr [VNull; VBool true; VStr (js "b")])].

(** * Properties *)

(** ** The model on examples *)

Example extractTitle_ex1 :
  extractTitle_str (js "What IF   I moved to Paris ") = js "I moved to Paris".
Proof. reflexivity. Qed.

Example extractTitle_ex2 :
  extractTitle_str (js " if I stayed") = js "if I stayed".
Proof. reflexivity. Qed.

Example extractTitle_ex3 :
  extractTitle_str (js "iffy plan") = js "iffy plan".
Proof. reflexivity. Qed.
Example decimal_0_7 : decimal false 7 (-1) = S754_finite false 6305039478318694 (-53).
Proof. vm_compute. reflexivity. Qed.
Example decimal_0_2 : decimal false 2 (-1) = S754_finite false 7205759403792794 (-55).
Proof. vm_compute. reflexivity. Qed.
Example decimal_1_7 : decimal false 17 (-1) = S754_finite false 7656119366529843 (-52).
Proof. vm_compute. reflexivity. Qed.
Example decimal_0_3 : decimal false 3 (-1) = S754_finite false 5404319552844595 (-54).
Proof. vm_compute. reflexivity. Qed.
Example decimal_1e23 : decimal false 1 23 = S754_finite false 5960464477539062 24.
Proof. vm_compute. reflexivity. Qed.
Example decimal_1e22 : decimal false 1 22 = S754_finite false 4768371582031250 21.
Proof. vm_compute. reflexivity. Qed.
Example decimal_small : decimal false 123456 (-10) = S754_finite false 7287555956364436 (-69).
Proof. vm_compute. reflexivity. Qed.
Example decimal_min : decimal false 5 (-324) = S754_finite false 1 (-1074).
Proof. vm_compute. reflexivity. Qed.
Example decimal_tiny : decimal false 2 (-324) = S754_zero false.
Proof. vm_compute. reflexivity. Qed.
Example num_3 : num_of_Z 3 = S754_finite false 6755399441055744 (-51).
Proof. vm_compute. reflexivity. Qed.
Example floor_ex : Math_floor (num_add (num_mul (num_of_Z 1) (decimal false 17 (-1))) (num_mul (num_of_Z 31) (decimal false 3 (-1)))) = num_of_Z 10.
Proof. vm_compute. reflexivity. Qed.
Example floor_neg : Math_floor (decimal true 5 (-1)) = num_of_Z (-1).
Proof. vm_compute. reflexivity. Qed.
Example parse_ex1 :
  JSON_parse (jsq "[1, {'a': [true, null], 'b': 'x\nA'}, -2.5e1]")
  = Ok (VArr [VNum (num_of_Z 1);
              VObj [(js "a", VArr [VBool true; VNull]); (js "b", VStr [120; 10; 65]%N)];
              VNum (num_of_Z (-25))]).
Proof. vm_compute. reflexivity. Qed.
Example parse_ex2 : JSON_parse (js "[1,]") = Throw SyntaxError.
Proof. vm_compute. reflexivity. Qed.
Example parse_ex3 : JSON_parse (js "01") = Throw SyntaxError.
Proof. vm_compute. reflexivity. Qed.
Example parse_ex4 : JSON_parse [] = Throw SyntaxError.
Proof. vm_compute. reflexivity. Qed.
Example parse_ex5 : JSON_parse (js " [ ] ") = Ok (VArr []).
Proof. vm_compute. reflexivity. Qed.
Example parse_ex6 : JSON_parse (jsq "{'b':1,'2':2,'a':3,'1':4,'b':5}")
  = Ok (VObj [(js "1", VNum (num_of_Z 4)); (js "2", VNum (num_of_Z 2)); (js "b", VNum (num_of_Z 5)); (js "a", VNum (num_of_Z 3))]).
Proof. vm_compute. reflexivity. Qed.

(** [parseInt] and what LIMIT takes of its results. *)
Example parseInt_ex1 : parseInt (js "42") = num_of_Z 42.
Proof. vm_compute. reflexivity. Qed.

Example parseInt_ex2 : parseInt (js "  -0x1A") = num_of_Z (-26).
Proof. vm_compute. reflexivity. Qed.

Example parseInt_ex3 : parseInt (js "12abc") = num_of_Z 12.
Proof. vm_compute. reflexivity. Qed.

Example parseInt_ex4 : parseInt (js "abc") = S754_nan.
Proof. vm_compute. reflexivity. Qed.

Example parseInt_ex5 : parseInt (js "-0") = S754_zero true.
Proof. vm_compute. reflexivity. Qed.

Example sql_integer_ex1 : sql_integer (parseInt (js "3000000000")) = Some 3000000000.
Proof. vm_compute. reflexivity. Qed.

Example sql_integer_ex2 : sql_integer (parseInt (js "99999999999999999999")) = None.
Proof. vm_compute. reflexivity. Qed.

Example sql_integer_ex3 : sql_integer (parseInt (js "-1")) = Some (-1).
Proof. vm_compute. reflexivity. Qed.

Example sql_integer_ex4 : sql_integer (parseInt []) = None.
Proof. vm_compute. reflexivity. Qed.

Example utf8_text_ex1 : utf8_text [55357; 32; 120]%N = [65533; 32; 120]%N.
Proof. reflexivity. Qed.

Example utf8_text_ex2 : utf8_text [55357; 56832; 120]%N = [55357; 56832; 120]%N.
Proof. reflexivity. Qed.
(** ** Strings and the title pattern *)

Lemma drop_space_idem : forall s, drop_space (drop_space s) = drop_space s.
Proof.
  induction s as [|c s IH]; simpl; auto.
  destruct (is_space c) eqn:E; auto.
  simpl. rewrite E. reflexivity.
Qed.

Lemma trim_drop_space : forall s, trim (drop_space s) = trim s.
Proof. intros s. unfold trim. rewrite drop_space_idem. reflexivity. Qed.

Lemma drop_space_no_space :
  forall s, followed_by_space s = false -> drop_space s = s.
Proof.
  intros [|c s]; simpl; auto. intros ->. reflexivity.
Qed.

Lemma rmatch_lit :
  forall w s k,
    rmatch (lit w) s k =
    match strip_word w s with
    | Some rest => k rest
    | None => None
    end.
Proof.
  induction w as [|a w IH]; intros s k; simpl.
  - destruct s; reflexivity.
  - destruct s as [|b s]; simpl; auto.
    unfold same_letter. destruct (code_eqb (canonicalize b) (canonicalize a)); auto.
Qed.

Lemma plus_iter_space :
  forall n s,
    (List.length s <= n)%nat ->
    plus_iter (rmatch RSpace) (fun rest => Some rest) n s =
    if followed_by_space s then Some (drop_space s) else None.
Proof.
  induction n as [|n IH]; intros s Hlen.
  - destruct s; simpl in *; [reflexivity | lia].
  - destruct s as [|c s]; simpl in *; [reflexivity|].
    destruct (is_space c) eqn:E; auto.
    rewrite IH by lia.
    destruct (followed_by_space s) eqn:F; auto.
    rewrite drop_space_no_space; auto.
Qed.

Lemma rmatch_spaces :
  forall s,
    rmatch (RPlus RSpace) s (fun rest => Some rest) =
    if followed_by_space s then Some (drop_space s) else None.
Proof. intros s. simpl. apply plus_iter_space. lia. Qed.

Lemma rmatch_title_regex :
  forall s,
    rmatch title_regex s (fun rest => Some rest) =
    match strip_prefix_word (js "what if") s with
    | Some rest => Some (drop_space rest)
    | None => option_map drop_space (strip_prefix_word (js "if") s)
    end.
Proof.
  intros s. unfold title_regex.
  change (rmatch (RSeq (RAlt (lit (js "what if")) (lit (js "if"))) (RPlus RSpace)) s
            (fun rest => Some rest))
    with (match rmatch (lit (js "what if")) s
                  (fun s1 => rmatch (RPlus RSpace) s1 (fun rest => Some rest)) with
          | Some out => Some out
          | None => rmatch (lit (js "if")) s
                      (fun s1 => rmatch (RPlus RSpace) s1 (fun rest => Some rest))
          end).
  rewrite !rmatch_lit. unfold strip_prefix_word.
  destruct (strip_word (js "what if") s) as [r1|].
  - rewrite rmatch_spaces. destruct (followed_by_space r1); auto.
    destruct (strip_word (js "if") s) as [r2|]; auto.
    rewrite rmatch_spaces. destruct (followed_by_space r2); auto.
  - destruct (strip_word (js "if") s) as [r2|]; auto.
    rewrite rmatch_spaces. destruct (followed_by_space r2); auto.
Qed.

Lemma extractTitle_str_spec : forall s, extractTitle_str s = extractTitle_spec s.
Proof.
  intros s. unfold extractTitle_str, replace_anchored, extractTitle_spec.
  rewrite rmatch_title_regex.
  destruct (strip_prefix_word (js "what if") s) as [r1|].
  - apply trim_drop_space.
  - destruct (strip_prefix_word (js "if") s) as [r2|]; simpl; auto.
    apply trim_drop_space.
Qed.

(** Trimming leaves nothing exactly when every code unit is white space. *)
Lemma drop_space_nil_iff :
  forall s, drop_space s = [] <-> Forall (fun c => is_space c = true) s.
Proof.
  induction s as [|c s IH]; simpl.
  - split; auto.
  - destruct (is_space c) eqn:E.
    + rewrite IH. split; intros H; [constructor; auto | inversion H; auto].
    + split; intros H; [discriminate | inversion H; congruence].
Qed.

Lemma trim_nil_iff :
  forall s, trim s = [] <-> Forall (fun c => is_space c = true) s.
Proof.
  intros s. unfold trim. rewrite <- drop_space_nil_iff. split.
  - intros H. apply (f_equal (@rev N)) in H. rewrite rev_involutive in H.
    simpl in H. destruct (drop_space s) as [|c t] eqn:E; auto.
    exfalso.
    assert (Hns : followed_by_space (drop_space s) = false).
    { clear. induction s as [|a s IH]; simpl; auto.
      destruct (is_space a) eqn:E; auto. }
    rewrite E in Hns. simpl in Hns.
    (* the last code unit of [c :: t] is what [rev] puts first *)
    assert (Hall : Forall (fun x => is_space x = true) (rev (c :: t))).
    { apply drop_space_nil_iff. exact H. }
    apply Forall_rev in Hall. rewrite rev_involutive in Hall.
    inversion Hall; congruence.
  - intros ->. reflexivity.
Qed.

(** ** What a computation leaves alone *)

Lemma str_eqb_eq : forall a b, str_eqb a b = true <-> a = b.
Proof.
  induction a as [|x a IH]; destruct b as [|y b]; simpl; split; intros H;
    try reflexivity; try discriminate.
  - apply andb_true_iff in H. destruct H as [Hx Hab].
    apply N.eqb_eq in Hx. apply IH in Hab. congruence.
  - inversion H; subst. apply andb_true_iff. split.
    + apply N.eqb_refl.
    + apply IH. reflexivity.
Qed.

Lemma str_eqb_refl : forall a, str_eqb a a = true.
Proof. intros a. apply str_eqb_eq. reflexivity. Qed.

Lemma str_eqb_neq : forall a b, str_eqb a b = false <-> a <> b.
Proof.
  intros a b. split.
  - intros H E. apply str_eqb_eq in E. congruence.
  - intros H. destruct (str_eqb a b) eqn:E; auto.
    apply str_eqb_eq in E. contradiction.
Qed.

Lemma entropy_step_refl : forall w, entropy_step w w.
Proof. intros w. unfold entropy_step. repeat split; auto. Qed.

Lemma entropy_step_trans :
  forall a b c, entropy_step a b -> entropy_step b c -> entropy_step a c.
Proof.
  unfold entropy_step. intros a b c H1 H2.
  destruct H1 as (Hd1 & Hc1 & Hr1 & Hu1 & Hp1 & Hq1).
  destruct H2 as (Hd2 & Hc2 & Hr2 & Hu2 & Hp2 & Hq2).
  repeat split; try congruence; lia.
Qed.

Lemma pure_ret : forall A (a : A), pure_gen (ret a).
Proof. intros A a w. apply entropy_step_refl. Qed.

Lemma pure_throw : forall A e, pure_gen (@throw A e).
Proof. intros A e w. apply entropy_step_refl. Qed.

Lemma pure_lift : forall A (r : result A), pure_gen (lift r).
Proof. intros A r w. apply entropy_step_refl. Qed.

Lemma pure_random : pure_gen Math_random.
Proof. intros w. unfold entropy_step. simpl. repeat split; auto. Qed.

Lemma pure_uuid : pure_gen uuidv4.
Proof. intros w. unfold entropy_step. simpl. repeat split; auto. Qed.

Lemma pure_bind :
  forall A B (m : M A) (f : A -> M B),
    pure_gen m -> (forall a, pure_gen (f a)) -> pure_gen (bind m f).
Proof.
  intros A B m f Hm Hf w. unfold bind.
  specialize (Hm w). destruct (m w) as [[a|e] w1]; simpl in *; auto.
  eapply entropy_step_trans; [exact Hm | apply Hf].
Qed.

Lemma pure_try :
  forall A (m : M A) (h : js_error -> M A),
    pure_gen m -> (forall e, pure_gen (h e)) -> pure_gen (try_catch m h).
Proof.
  intros A m h Hm Hh w. unfold try_catch.
  specialize (Hm w). destruct (m w) as [[a|e] w1]; simpl in *; auto.
  destruct e; simpl; auto;
    (eapply entropy_step_trans; [exact Hm | apply Hh]).
Qed.

Ltac pure_step :=
  repeat first
    [ apply pure_ret | apply pure_throw | apply pure_lift
    | apply pure_random | apply pure_uuid
    | apply pure_bind; [| intros ?]
    | apply pure_try; [| intros ?] ].

Lemma bind_ok :
  forall A B (m : M A) (f : A -> M B) w a w1,
    m w = (Ok a, w1) -> bind m f w = f a w1.
Proof. intros A B m f w a w1 H. unfold bind. rewrite H. reflexivity. Qed.

Lemma bind_throw :
  forall A B (m : M A) (f : A -> M B) w e w1,
    m w = (Throw e, w1) -> bind m f w = (Throw e, w1).
Proof. intros A B m f w e w1 H. unfold bind. rewrite H. reflexivity. Qed.

Lemma or_uuid_ok :
  forall us w, exists s w1, or_uuid us w = (Ok s, w1) /\ entropy_step w w1.
Proof.
  intros [s|] w; simpl.
  - exists s, w. split; [reflexivity | apply entropy_step_refl].
  - eexists _, _. split; [reflexivity | apply pure_uuid].
Qed.

Section GeneratorFrame.
Context {P : Platform}.

Lemma pure_pick : forall arr, pure_gen (pick arr).
Proof. intros arr. unfold pick. pure_step. Qed.

Lemma pure_outcomes_loop :
  forall fuel i n acc, pure_gen (outcomes_loop fuel i n acc).
Proof.
  induction fuel as [|fuel IH]; intros i n acc; simpl.
  - apply pure_throw.
  - destruct (num_ltb i n); [|apply pure_ret].
    apply pure_bind; [apply pure_pick | intros ?].
    apply pure_bind; [apply pure_pick | intros ?].
    pure_step. apply IH.
Qed.

Lemma pure_generateOutcomes : forall ev, pure_gen (generateOutcomes ev).
Proof.
  intros ev. unfold generateOutcomes.
  apply pure_bind; [apply pure_random | intros ?].
  apply pure_outcomes_loop.
Qed.

Lemma pure_generateDescription : forall ev, pure_gen (generateDescription ev).
Proof.
  intros ev. unfold generateDescription.
  repeat (apply pure_bind; [apply pure_lift | intros ?]).
  apply pure_pick.
Qed.

Lemma pure_generateFallbackReality :
  forall ev, pure_gen (generateFallbackReality ev).
Proof. intros ev. unfold generateFallbackReality. pure_step. Qed.

Lemma pure_generateReality : forall ev, pure_gen (generateReality ev).
Proof.
  intros ev. unfold generateReality, generateReality_body.
  apply pure_try; [| intros ?; apply pure_generateFallbackReality].
  apply pure_bind; [apply pure_generateOutcomes | intros ?].
  apply pure_bind; [apply pure_generateDescription | intros ?].
  pure_step.
Qed.

(** The generator cannot run without drawing from [Math.random]. *)
Lemma generateReality_draws :
  forall ev w, (rand_pos w < rand_pos (snd (generateReality ev w)))%nat.
Proof.
  intros ev w.
  assert (Hbody : (rand_pos w < rand_pos (snd (generateReality_body ev w)))%nat).
  { unfold generateReality_body, generateOutcomes.
    unfold bind at 1. unfold bind at 1. simpl.
    match goal with
    | |- context [outcomes_loop ?f ?i ?n ?acc ?w1] =>
        pose proof (pure_outcomes_loop f i n acc w1) as H1;
        destruct (outcomes_loop f i n acc w1) as [[outs|e] w2]
    end; simpl in *.
    - match goal with
      | |- context [bind ?m ?k w2] =>
          assert (Hk : pure_gen (bind m k))
      end.
      { apply pure_bind; [apply pure_generateDescription | intros ?]. pure_step. }
      specialize (Hk w2). unfold entropy_step in *. simpl in *. lia.
    - unfold entropy_step in *. simpl in *. lia. }
  unfold generateReality, try_catch.
  destruct (generateReality_body ev w) as [[r|e] w1] eqn:E; simpl in *; auto.
  pose proof (pure_generateFallbackReality ev w1) as H.
  destruct e; simpl; auto; unfold entropy_step in H; lia.
Qed.

End GeneratorFrame.

(** ** What each handler does to the world *)

Lemma pure_get_db : pure_gen get_db.
Proof. intros w. apply entropy_step_refl. Qed.

Lemma pure_get_clock : pure_gen get_clock.
Proof. intros w. apply entropy_step_refl. Qed.

Lemma run_pure :
  forall (m : M response), pure_gen m -> forall w, entropy_step w (snd (run m w)).
Proof.
  intros m Hm w. unfold run. specialize (Hm w).
  destruct (m w) as [[r|e] w1]; exact Hm.
Qed.

Section Runs.
Context {P : Platform}.

Lemma pure_get_health : pure_gen get_health.
Proof.
  unfold get_health.
  apply pure_bind; [apply pure_get_clock | intros ?; apply pure_ret].
Qed.

Lemma pure_get_realities :
  forall s l o, pure_gen (get_realities s l o).
Proof.
  intros s l o. unfold get_realities.
  apply pure_bind; [apply pure_get_db | intros ?].
  destruct (query_integer l 20); [|apply pure_ret].
  destruct (query_integer o 0); [|apply pure_ret].
  apply pure_bind; [apply pure_lift | intros ?; apply pure_ret].
Qed.

Lemma pure_get_stats : forall s, pure_gen (get_stats s).
Proof.
  intros s. unfold get_stats.
  apply pure_bind; [apply pure_get_db | intros ?; apply pure_ret].
Qed.

Lemma pure_post_enhance : forall r, pure_gen (post_enhance r).
Proof.
  intros r. unfold post_enhance.
  apply pure_try; [| intros ?; apply pure_ret].
  apply pure_bind; [apply pure_lift | intros ?].
  apply pure_bind; [apply pure_lift | intros ?].
  apply pure_bind; [apply pure_lift | intros ?].
  apply pure_bind; [apply pure_generateOutcomes | intros ?; apply pure_ret].
Qed.

Lemma after_tree_ids_step :
  forall us mp w, entropy_step w (after_tree_ids us mp w).
Proof.
  intros us mp w. unfold after_tree_ids.
  destruct us; destruct (public_flag mp); unfold entropy_step; simpl;
    repeat split; auto.
Qed.

Lemma post_trees_run :
  forall treeData userSession makePublic protocol host w,
    let row := new_tree_row treeData userSession makePublic w in
    let w1 := after_tree_ids userSession makePublic w in
    match insert_tree row (db w) with
    | None =>
        handle (PostTrees treeData userSession makePublic protocol host) w
        = (Respond 500 (BError (js "Failed to save tree")), w1)
    | Some d' =>
        handle (PostTrees treeData userSession makePublic protocol host) w
        = (Respond 200 (BTree (t_id row) (t_share_token row)
                              (share_url protocol host (t_share_token row))),
           set_db (insert_analytics (t_user_session row) (js "save_tree")
                     (JSON_stringify
                        (VObj [(js "treeId", VStr (t_id row));
                               (js "makePublic",
                                match makePublic with
                                | VUndefined => VBool false
                                | v => v
                                end)]))
                     (clock w) d') w1)
    end.
Proof.
  intros treeData userSession makePublic protocol host w row w1.
  unfold handle, run, post_trees.
  destruct userSession as [us|];
    destruct (truthy (match makePublic with VUndefined => VBool false | v => v end))
      eqn:Hpub;
    unfold w1, after_tree_ids, row, new_tree_row, new_tree_id, new_share_token,
      public_flag;
    simpl or_uuid; rewrite Hpub;
    unfold bind, ret, uuidv4, get_db, get_clock, put_db, logEvent; simpl;
    rewrite ?Hpub; simpl.
  all: match goal with
       | |- context [insert_tree ?r ?d] =>
           destruct (insert_tree r d) as [d'|] eqn:Hins
       end.
  all: simpl.
  all: reflexivity.
Qed.

Lemma get_shared_tree_run :
  forall token w,
    handle (GetSharedTree token) w =
    match select_shared_tree token (db w) with
    | None => (Respond 404 (BError (js "Shared tree not found")), w)
    | Some row =>
        match parse_tree_data row with
        | Ok treeData =>
            (Respond 200 (BShared (t_id row) treeData (t_view_count row + 1)
                                  (t_created_at row)),
             set_db (bump_view_count (t_id row) (db w)) w)
        | Throw e => (Uncaught e, w)
        end
    end.
Proof.
  intros token w. unfold handle, run, get_shared_tree.
  unfold bind at 1. unfold get_db at 1.
  destruct (select_shared_tree token (db w)) as [row|]; [|reflexivity].
  unfold bind, put_db, lift, ret.
  destruct (parse_tree_data row); reflexivity.
Qed.

Lemma post_realities_trees :
  forall event userSession w,
    reality_trees (db (snd (handle (PostRealities event userSession) w)))
    = reality_trees (db w).
Proof.
  intros event userSession w.
  unfold handle, run, post_realities, try_catch.
  destruct (or_uuid_ok userSession w) as (session & w1 & Hs & Hstep1).
  rewrite (bind_ok _ _ _ _ _ _ _ Hs).
  assert (Hd1 : db w1 = db w) by apply Hstep1.
  match goal with
  | |- context [bind ?m ?k w1] =>
      assert (Htext : exists r, m w1 = (r, w1))
  end.
  { destruct (negb (truthy event)); [eexists; reflexivity|].
    unfold bind, lift, ret. destruct (str_method (fun s => s) event);
      eexists; reflexivity. }
  destruct Htext as ([text|e] & Htext).
  2:{ rewrite (bind_throw _ _ _ _ _ _ _ Htext). destruct e; simpl; congruence. }
  rewrite (bind_ok _ _ _ _ _ _ _ Htext).
  destruct text as [original|]; [|simpl; congruence].
  pose proof (pure_generateReality event w1) as Hgen.
  destruct (generateReality event w1) as [[reality|e] w2] eqn:Egen.
  2:{ rewrite (bind_throw _ _ _ _ _ _ _ Egen).
      assert (db w2 = db w1) by apply Hgen.
      destruct e; simpl; congruence. }
  rewrite (bind_ok _ _ _ _ _ _ _ Egen).
  assert (Hd2 : db w2 = db w1) by apply Hgen.
  unfold bind, uuidv4, get_db, get_clock, put_db, logEvent, ret. simpl.
  match goal with
  | |- context [insert_reality ?r ?d] =>
      destruct (insert_reality r d) as [d'|] eqn:Hins
  end; simpl.
  - unfold insert_reality in Hins.
    match type of Hins with
    | (if ?c then _ else _) = _ => destruct c; [discriminate|]
    end.
    inversion Hins; subst; simpl. congruence.
  - congruence.
Qed.

(** The tree table after a request: as before, with one row more, or
    with one view counted. *)
Lemma handle_trees :
  forall req w,
    reality_trees (db (snd (handle req w))) = reality_trees (db w) \/
    (exists treeData userSession makePublic protocol host,
        req = PostTrees treeData userSession makePublic protocol host /\
        insert_tree (new_tree_row treeData userSession makePublic w) (db w) <> None /\
        reality_trees (db (snd (handle req w)))
        = reality_trees (db w) ++ [new_tree_row treeData userSession makePublic w]) \/
    (exists token row,
        req = GetSharedTree token /\
        select_shared_tree token (db w) = Some row /\
        db (snd (handle req w)) = bump_view_count (t_id row) (db w)).
Proof.
  intros req w. destruct req.
  - left. unfold handle.
    destruct (run_pure _ pure_get_health w) as [Hd _]. rewrite Hd. reflexivity.
  - left. apply post_realities_trees.
  - left. unfold handle.
    destruct (run_pure _ (pure_get_realities userSession limit offset) w) as [Hd _]. rewrite Hd. reflexivity.
  - pose proof (post_trees_run treeData userSession makePublic protocol host w)
      as Hrun.
    pose proof (after_tree_ids_step userSession makePublic w) as Hstep.
    cbv zeta in Hrun.
    destruct (insert_tree (new_tree_row treeData userSession makePublic w) (db w))
      as [d'|] eqn:Hins.
    + right. left. exists treeData, userSession, makePublic, protocol, host.
      split; [reflexivity|]. split; [congruence|].
      rewrite Hrun. simpl.
      unfold insert_tree in Hins.
      repeat match type of Hins with
             | (if ?c then _ else _) = _ => destruct c; [discriminate|]
             end.
      inversion Hins; subst; reflexivity.
    + left. rewrite Hrun. simpl. f_equal. apply Hstep.
  - rewrite get_shared_tree_run.
    destruct (select_shared_tree shareToken (db w)) as [row|] eqn:Hsel.
    + destruct (parse_tree_data row).
      * right. right. exists shareToken, row. auto.
      * left. reflexivity.
    + left. reflexivity.
  - left. unfold handle.
    destruct (run_pure _ (pure_get_stats userSession) w) as [Hd _]. rewrite Hd. reflexivity.
  - left. unfold handle.
    destruct (run_pure _ (pure_post_enhance reality) w) as [Hd _]. rewrite Hd. reflexivity.
Qed.

End Runs.

(** ** The request handlers *)

Section HandlerProperties.
Context {P : Platform}.

(** C9: for every input string, [extractTitle] strips one leading
    "what if" or "if", whatever its case and only when white space
    follows it, and trims the remainder; a string without such a prefix
    is returned trimmed and otherwise unchanged. *)
Theorem extractTitle_strips_and_trims :
  forall s, extractTitle (VStr s) = Ok (extractTitle_spec s).
Proof.
  intros s. unfold extractTitle. simpl. rewrite extractTitle_str_spec. reflexivity.
Qed.

(** C5: a request whose [event] is missing (or otherwise falsy), empty
    or made of white space only is answered 400 with an error object;
    the database is left as it was and nothing is drawn from
    [Math.random], which every run of the generator does. *)
Theorem post_realities_rejects_blank_event :
  forall event userSession w,
    (truthy event = false \/
     exists s, event = VStr s /\ Forall (fun c => is_space c = true) s) ->
    fst (handle (PostRealities event userSession) w)
      = Respond 400 (BError (js "Event description is required")) /\
    db (snd (handle (PostRealities event userSession) w)) = db w /\
    rand_pos (snd (handle (PostRealities event userSession) w)) = rand_pos w /\
    (forall ev w0, (rand_pos w0 < rand_pos (snd (generateReality ev w0)))%nat).
Proof.
  intros event userSession w Hblank.
  assert (Hgen : forall ev w0,
             (rand_pos w0 < rand_pos (snd (generateReality ev w0)))%nat)
    by apply generateReality_draws.
  assert (Htext :
            forall w1,
              (if negb (truthy event) then ret None
               else s <- lift (str_method (fun s => s) event) ;;
                    ret (if (List.length (trim s) =? 0)%nat then None else Some s)) w1
              = (Ok None, w1)).
  { intros w1. destruct Hblank as [Hf | (s & -> & Hs)].
    - rewrite Hf. reflexivity.
    - destruct (negb (truthy (VStr s))); [reflexivity|].
      unfold bind, lift, str_method, ret.
      apply trim_nil_iff in Hs. rewrite Hs. reflexivity. }
  destruct (or_uuid_ok userSession w) as (session & w1 & Hs & Hstep).
  assert (Hrun : handle (PostRealities event userSession) w
                 = (Respond 400 (BError (js "Event description is required")), w1)).
  { unfold handle, run, post_realities, try_catch.
    rewrite (bind_ok _ _ _ _ _ _ _ Hs).
    rewrite (bind_ok _ _ _ _ _ _ _ (Htext w1)).
    reflexivity. }
  rewrite Hrun. simpl. unfold entropy_step in Hstep.
  destruct Hstep as (Hd & _ & _ & _ & Hr & _).
  repeat split; auto.
  (* no random value is drawn by the session default *)
  destruct userSession; simpl in Hs; inversion Hs; subst; reflexivity.
Qed.

End HandlerProperties.

(** ** The tree table *)

Lemma existsb_id_false :
  forall id (l : list tree_row),
    existsb (fun r => str_eqb (t_id r) id) l = false <-> ~ In id (map t_id l).
Proof.
  intros id l. induction l as [|r l IH]; simpl.
  - split; auto.
  - rewrite orb_false_iff, IH, str_eqb_neq. tauto.
Qed.

Lemma token_eqb_eq :
  forall o tok, token_eqb o tok = true <-> o = Some tok.
Proof.
  intros [t|] tok; simpl.
  - rewrite str_eqb_eq. split; congruence.
  - split; discriminate.
Qed.

Lemma existsb_token_false :
  forall tok (l : list tree_row),
    existsb (fun r => token_eqb (t_share_token r) tok) l = false
    <-> ~ In tok (share_tokens l).
Proof.
  intros tok l. induction l as [|r l IH]; simpl.
  - split; auto.
  - rewrite orb_false_iff, IH. unfold share_tokens at 2. simpl.
    fold (share_tokens l). rewrite in_app_iff.
    destruct (t_share_token r) as [t|] eqn:E; simpl.
    + rewrite str_eqb_neq. intuition congruence.
    + tauto.
Qed.

Lemma insert_tree_spec :
  forall row d,
    (~ In (t_id row) (map t_id (reality_trees d)) /\
     (forall tok, t_share_token row = Some tok ->
                  ~ In tok (share_tokens (reality_trees d)))) ->
    insert_tree row d =
    Some {| realities := realities d;
            reality_trees := reality_trees d ++ [row];
            analytics := analytics d;
            analytics_seq := analytics_seq d |}.
Proof.
  intros row d [Hid Htok]. unfold insert_tree.
  apply existsb_id_false in Hid. rewrite Hid.
  destruct (t_share_token row) as [tok|]; [|reflexivity].
  specialize (Htok tok eq_refl). apply existsb_token_false in Htok.
  rewrite Htok. reflexivity.
Qed.

Lemma insert_tree_fresh :
  forall row d,
    insert_tree row d <> None ->
    ~ In (t_id row) (map t_id (reality_trees d)) /\
    (forall tok, t_share_token row = Some tok ->
                 ~ In tok (share_tokens (reality_trees d))).
Proof.
  intros row d H. unfold insert_tree in H.
  destruct (existsb (fun r => str_eqb (t_id r) (t_id row)) (reality_trees d)) eqn:Hid;
    [congruence|].
  split; [apply existsb_id_false; exact Hid|].
  intros tok Htok. rewrite Htok in H.
  destruct (existsb (fun r => token_eqb (t_share_token r) tok) (reality_trees d))
    eqn:Ht; [congruence|].
  apply existsb_token_false. exact Ht.
Qed.

Lemma share_tokens_app :
  forall l1 l2, share_tokens (l1 ++ l2) = share_tokens l1 ++ share_tokens l2.
Proof. intros l1 l2. unfold share_tokens. apply flat_map_app. Qed.

Lemma share_tokens_columns :
  forall l1 l2,
    map sharing_columns l1 = map sharing_columns l2 ->
    map t_id l1 = map t_id l2 /\ share_tokens l1 = share_tokens l2 /\
    (Forall token_iff_public l1 -> Forall token_iff_public l2).
Proof.
  induction l1 as [|a l1 IH]; destruct l2 as [|b l2]; simpl; intros H;
    try discriminate.
  - repeat split; auto.
  - inversion H as [[Hid Htok Hpub Hrest]].
    destruct (IH l2 Hrest) as (IH1 & IH2 & IH3).
    unfold share_tokens in *. simpl. rewrite Htok, Hid, IH1, IH2.
    repeat split; auto.
    intros Hall. inversion Hall; subst. constructor; auto.
    unfold token_iff_public in *. rewrite <- Htok, <- Hpub. assumption.
Qed.

Lemma count_view_columns : forall r, sharing_columns (count_view r) = sharing_columns r.
Proof. reflexivity. Qed.

Lemma bump_columns :
  forall id d,
    map sharing_columns (reality_trees (bump_view_count id d))
    = map sharing_columns (reality_trees d).
Proof.
  intros id d. simpl. rewrite map_map. apply map_ext.
  intros r. destruct (str_eqb (t_id r) id); reflexivity.
Qed.

Lemma tree_inv_columns :
  forall d d',
    map sharing_columns (reality_trees d') = map sharing_columns (reality_trees d) ->
    tree_inv d -> tree_inv d'.
Proof.
  intros d d' Hcols [Hids Htoks Hpub].
  symmetry in Hcols.
  destruct (share_tokens_columns _ _ Hcols) as (H1 & H2 & H3).
  constructor; [rewrite <- H1 | rewrite <- H2 | apply H3]; assumption.
Qed.

Lemma NoDup_snoc :
  forall A (l : list A) x, NoDup l -> ~ In x l -> NoDup (l ++ [x]).
Proof.
  intros A l x Hl Hx. induction Hl as [|y l Hy Hl IH]; simpl.
  - constructor; [intros [] | constructor].
  - constructor.
    + rewrite in_app_iff. simpl. intros [H|[H|[]]]; [contradiction|].
      subst. apply Hx. left. reflexivity.
    + apply IH. intros H. apply Hx. right. exact H.
Qed.

Lemma NoDup_app_snoc :
  forall A (l t : list A),
    NoDup l -> NoDup t -> (forall x, In x t -> ~ In x l) -> NoDup (l ++ t).
Proof.
  intros A l t Hl Ht Hd. induction Hl as [|y l Hy Hl IH]; simpl; auto.
  constructor.
  - rewrite in_app_iff. intros [H|H]; [contradiction|].
    apply (Hd y H). left. reflexivity.
  - apply IH. intros x Hx Hin. apply (Hd x Hx). right. exact Hin.
Qed.

Section TreeInvariant.
Context {P : Platform}.

Lemma new_tree_row_public :
  forall td us mp w, token_iff_public (new_tree_row td us mp w).
Proof.
  intros td us mp w. unfold token_iff_public, new_tree_row, new_share_token.
  simpl. destruct (public_flag mp); split; intros H; try congruence; try lia.
Qed.

Lemma tree_inv_append :
  forall d d' row,
    tree_inv d ->
    insert_tree row d <> None ->
    token_iff_public row ->
    reality_trees d' = reality_trees d ++ [row] ->
    tree_inv d'.
Proof.
  intros d d' row [Hids Htoks Hpub] Hins Hrow Htrees.
  destruct (insert_tree_fresh _ _ Hins) as [Hid Htok].
  constructor; rewrite Htrees.
  - rewrite map_app. simpl. apply NoDup_snoc; assumption.
  - rewrite share_tokens_app. apply NoDup_app_snoc; auto.
    + unfold share_tokens. simpl. destruct (t_share_token row); simpl;
        repeat constructor; auto.
    + unfold share_tokens at 1. simpl.
      destruct (t_share_token row) as [tok|] eqn:E; simpl; [|tauto].
      intros x [<-|[]]. apply Htok. reflexivity.
  - apply Forall_app. split; auto.
Qed.

Lemma handle_tree_inv :
  forall req w, tree_inv (db w) -> tree_inv (db (snd (handle req w))).
Proof.
  intros req w Hinv.
  destruct (handle_trees req w)
    as [Hsame | [(td & us & mp & pr & h & -> & Hins & Happ) | (tok & row & -> & Hsel & Hbump)]].
  - eapply tree_inv_columns; [|exact Hinv]. rewrite Hsame. reflexivity.
  - eapply tree_inv_append; eauto. apply new_tree_row_public.
  - eapply tree_inv_columns; [|exact Hinv]. rewrite Hbump. apply bump_columns.
Qed.

Lemma reachable_tree_inv : forall w, reachable w -> tree_inv (db w).
Proof.
  intros w H. induction H as [w Hinit | w t H IH Ht | w req H IH].
  - rewrite Hinit. constructor; simpl; constructor.
  - exact IH.
  - apply handle_tree_inv. exact IH.
Qed.

End TreeInvariant.

Lemma insert_tree_trees :
  forall row d d',
    insert_tree row d = Some d' -> reality_trees d' = reality_trees d ++ [row].
Proof.
  intros row d d' H.
  assert (Hn : insert_tree row d <> None) by congruence.
  rewrite (insert_tree_spec row d (insert_tree_fresh row d Hn)) in H.
  inversion H; subst. reflexivity.
Qed.

Lemma select_shared_tree_some :
  forall token d row,
    select_shared_tree token d = Some row ->
    In row (reality_trees d) /\ t_share_token row = Some token /\ t_is_public row = 1.
Proof.
  intros token d row H. unfold select_shared_tree in H.
  apply find_some in H. destruct H as [Hin Hp].
  apply andb_true_iff in Hp. destruct Hp as [Ht Hpub].
  apply token_eqb_eq in Ht. apply Z.eqb_eq in Hpub. auto.
Qed.

Lemma select_shared_tree_none :
  forall token d,
    (forall row, In row (reality_trees d) ->
                 t_share_token row = Some token -> t_is_public row <> 1) ->
    select_shared_tree token d = None.
Proof.
  intros token d H. unfold select_shared_tree.
  destruct (find _ (reality_trees d)) as [row|] eqn:E; [|reflexivity].
  apply find_some in E. destruct E as [Hin Hp].
  apply andb_true_iff in Hp. destruct Hp as [Ht Hpub].
  apply token_eqb_eq in Ht. apply Z.eqb_eq in Hpub.
  exfalso. exact (H row Hin Ht Hpub).
Qed.

Lemma select_after_bump :
  forall token id d,
    select_shared_tree token (bump_view_count id d) =
    option_map (fun r => if str_eqb (t_id r) id then count_view r else r)
               (select_shared_tree token d).
Proof.
  intros token id d. unfold select_shared_tree. simpl.
  induction (reality_trees d) as [|r l IH]; simpl; [reflexivity|].
  assert (Hsame :
            token_eqb (t_share_token (if str_eqb (t_id r) id then count_view r else r)) token
            && (t_is_public (if str_eqb (t_id r) id then count_view r else r) =? 1)
            = token_eqb (t_share_token r) token && (t_is_public r =? 1)).
  { destruct (str_eqb (t_id r) id); reflexivity. }
  rewrite Hsame.
  destruct (token_eqb (t_share_token r) token && (t_is_public r =? 1));
    [reflexivity | exact IH].
Qed.

Lemma bump_one_row :
  forall l1 row l2,
    NoDup (map t_id (l1 ++ row :: l2)) ->
    map (fun r => if str_eqb (t_id r) (t_id row) then count_view r else r)
        (l1 ++ row :: l2)
    = l1 ++ count_view row :: l2.
Proof.
  intros l1 row l2 Hnd.
  rewrite map_app. simpl. rewrite str_eqb_refl.
  rewrite map_app in Hnd. simpl in Hnd.
  apply NoDup_remove_2 in Hnd. rewrite in_app_iff in Hnd.
  assert (Hkeep : forall l, ~ In (t_id row) (map t_id l) ->
            map (fun r => if str_eqb (t_id r) (t_id row) then count_view r else r) l = l).
  { induction l as [|r l IH]; simpl; intros Hn; [reflexivity|].
    destruct (str_eqb (t_id r) (t_id row)) eqn:E.
    - apply str_eqb_eq in E. exfalso. apply Hn. left. exact E.
    - rewrite IH; [reflexivity | tauto]. }
  rewrite !Hkeep by tauto. reflexivity.
Qed.

Lemma select_new_row :
  forall row d d',
    insert_tree row d = Some d' ->
    forall tok, t_share_token row = Some tok -> t_is_public row = 1 ->
    select_shared_tree tok d' = Some row.
Proof.
  intros row d d' Hins tok Htok Hpub.
  assert (Hn : insert_tree row d <> None) by congruence.
  destruct (insert_tree_fresh row d Hn) as [_ Hfresh].
  specialize (Hfresh tok Htok). apply existsb_token_false in Hfresh.
  unfold select_shared_tree. rewrite (insert_tree_trees _ _ _ Hins).
  induction (reality_trees d) as [|r l IH]; simpl in *.
  - rewrite Htok, Hpub. simpl. rewrite str_eqb_refl. reflexivity.
  - apply orb_false_iff in Hfresh. destruct Hfresh as [Hr Hl].
    rewrite Hr. simpl. apply IH. exact Hl.
Qed.

Section TreeProperties.
Context {P : Platform}.

Lemma get_shared_tree_ok :
  forall token w b w1,
    handle (GetSharedTree token) w = (Respond 200 b, w1) ->
    exists row treeData,
      select_shared_tree token (db w) = Some row /\
      parse_tree_data row = Ok treeData /\
      b = BShared (t_id row) treeData (t_view_count row + 1) (t_created_at row) /\
      w1 = set_db (bump_view_count (t_id row) (db w)) w.
Proof.
  intros token w b w1 H. rewrite get_shared_tree_run in H.
  destruct (select_shared_tree token (db w)) as [row|]; [|inversion H].
  destruct (parse_tree_data row) as [treeData|e] eqn:Hp; [|inversion H].
  inversion H; subst. exists row, treeData. auto.
Qed.

Lemma post_trees_ok :
  forall td us mp pr h b w w',
    handle (PostTrees td us mp pr h) w = (Respond 200 b, w') ->
    let row := new_tree_row td us mp w in
    exists d',
      insert_tree row (db w) = Some d' /\
      b = BTree (t_id row) (t_share_token row) (share_url pr h (t_share_token row)) /\
      reality_trees (db w') = reality_trees (db w) ++ [row].
Proof.
  intros td us mp pr h b w w' H row.
  pose proof (post_trees_run td us mp pr h w) as Hrun. cbv zeta in Hrun.
  fold row in Hrun.
  destruct (insert_tree row (db w)) as [d'|] eqn:Hins.
  - rewrite Hrun in H. inversion H; subst. exists d'. simpl.
    repeat split; auto. apply insert_tree_trees. exact Hins.
  - rewrite Hrun in H. inversion H.
Qed.

(** C6: a share token that no stored tree holds, or that only a tree
    whose [is_public] is not 1 holds, is answered 404 with an error
    object; the world, view counts included, is left as it was. *)
Theorem shared_tree_not_found :
  forall token w,
    (forall row, In row (reality_trees (db w)) ->
                 t_share_token row = Some token -> t_is_public row <> 1) ->
    handle (GetSharedTree token) w
    = (Respond 404 (BError (js "Shared tree not found")), w).
Proof.
  intros token w H. rewrite get_shared_tree_run.
  rewrite (select_shared_tree_none token (db w) H). reflexivity.
Qed.

(** C3: in a state that the server can reach, a successful fetch of a
    shared tree adds exactly 1 to the stored view count of that tree,
    leaves every other row as it was and returns the count after the
    increment; a tree that was just saved as public therefore answers
    1 on the first fetch and 2 on the second. *)
Theorem shared_tree_view_count :
  forall w,
    reachable w ->
    (forall token b w1,
        handle (GetSharedTree token) w = (Respond 200 b, w1) ->
        exists row treeData l1 l2,
          t_share_token row = Some token /\ t_is_public row = 1 /\
          reality_trees (db w) = l1 ++ row :: l2 /\
          reality_trees (db w1) = l1 ++ count_view row :: l2 /\
          b = BShared (t_id row) treeData (t_view_count row + 1) (t_created_at row) /\
          exists w2,
            handle (GetSharedTree token) w1
            = (Respond 200 (BShared (t_id row) treeData (t_view_count row + 2)
                                    (t_created_at row)), w2)) /\
    (forall td us mp pr h id tok url w' b1 w1,
        handle (PostTrees td us mp pr h) w = (Respond 200 (BTree id (Some tok) url), w') ->
        handle (GetSharedTree tok) w' = (Respond 200 b1, w1) ->
        exists treeData createdAt,
          b1 = BShared id treeData 1 createdAt /\
          exists w2,
            handle (GetSharedTree tok) w1
            = (Respond 200 (BShared id treeData 2 createdAt), w2)).
Proof.
  intros w Hreach.
  assert (Hfetch :
            forall w0 token b w1,
              tree_inv (db w0) ->
              handle (GetSharedTree token) w0 = (Respond 200 b, w1) ->
              exists row treeData l1 l2,
                select_shared_tree token (db w0) = Some row /\
                t_share_token row = Some token /\ t_is_public row = 1 /\
                reality_trees (db w0) = l1 ++ row :: l2 /\
                reality_trees (db w1) = l1 ++ count_view row :: l2 /\
                b = BShared (t_id row) treeData (t_view_count row + 1) (t_created_at row) /\
                exists w2,
                  handle (GetSharedTree token) w1
                  = (Respond 200 (BShared (t_id row) treeData (t_view_count row + 2)
                                          (t_created_at row)), w2)).
  { intros w0 token b w1 Hinv H.
    destruct (get_shared_tree_ok _ _ _ _ H) as (row & treeData & Hsel & Hp & Hb & Hw1).
    destruct (select_shared_tree_some _ _ _ Hsel) as (Hin & Htok & Hpub).
    destruct (in_split _ _ Hin) as (l1 & l2 & Hsplit).
    exists row, treeData, l1, l2. repeat split; auto.
    - subst w1. simpl. rewrite Hsplit. apply bump_one_row.
      rewrite <- Hsplit. apply Hinv.
    - eexists. rewrite get_shared_tree_run. subst w1. simpl db.
      rewrite select_after_bump, Hsel. simpl. rewrite str_eqb_refl.
      unfold parse_tree_data in *. simpl. rewrite Hp.
      replace (t_view_count row + 1 + 1) with (t_view_count row + 2) by lia.
      reflexivity. }
  split.
  - intros token b w1 H.
    destruct (Hfetch w token b w1 (reachable_tree_inv w Hreach) H)
      as (row & treeData & l1 & l2 & _ & H1 & H2 & H3 & H4 & H5 & H6).
    exists row, treeData, l1, l2. repeat split; assumption.
  - intros td us mp pr h id tok url w' b1 w1 Hpost Hget.
    assert (Hreach' : reachable w').
    { replace w' with (snd (handle (PostTrees td us mp pr h) w))
        by (rewrite Hpost; reflexivity).
      apply reach_request. exact Hreach. }
    destruct (post_trees_ok _ _ _ _ _ _ _ _ Hpost) as (d' & Hins & Hb & Htrees).
    inversion Hb as [[Hid Htok Hurl]].
    assert (Hpub : t_is_public (new_tree_row td us mp w) = 1).
    { apply (new_tree_row_public td us mp w). congruence. }
    assert (Hsel : select_shared_tree tok (db w') = Some (new_tree_row td us mp w)).
    { unfold select_shared_tree. rewrite Htrees.
      pose proof (select_new_row _ _ _ Hins tok (eq_sym Htok) Hpub) as Hs.
      unfold select_shared_tree in Hs.
      rewrite (insert_tree_trees _ _ _ Hins) in Hs. exact Hs. }
    destruct (Hfetch w' tok b1 w1 (reachable_tree_inv w' Hreach') Hget)
      as (row & treeData & l1 & l2 & Hsel' & _ & _ & _ & _ & Hb1 & w2 & Hsecond).
    rewrite Hsel in Hsel'. inversion Hsel'; subst row.
    exists treeData, (t_created_at (new_tree_row td us mp w)).
    split.
    + rewrite Hb1. reflexivity.
    + exists w2. rewrite Hsecond. reflexivity.
Qed.

(** C4: in every state that the server can reach, a tree has a share
    token exactly when its [is_public] is 1.  When the identifier it
    draws is new, saving with [makePublic = false] answers 200 and
    stores one row, with no token and [is_public = 0]; when moreover
    the token it draws is held by no stored tree, saving with
    [makePublic = true] answers 200 and stores one row, with that token
    and [is_public = 1].  A save that answers 200 has stored such a
    row, and no request changes the identifier, the token or the flag
    of a stored tree. *)
Theorem share_token_iff_public :
  forall w,
    reachable w ->
    (forall row, In row (reality_trees (db w)) ->
                 (t_share_token row <> None <-> t_is_public row = 1)) /\
    (forall td us pr h,
        ~ In (new_tree_id us w) (map t_id (reality_trees (db w))) ->
        exists w' row,
          handle (PostTrees td us (VBool false) pr h) w
          = (Respond 200 (BTree (new_tree_id us w) None None), w') /\
          reality_trees (db w') = reality_trees (db w) ++ [row] /\
          t_id row = new_tree_id us w /\
          t_share_token row = None /\ t_is_public row = 0) /\
    (forall td us pr h tok,
        ~ In (new_tree_id us w) (map t_id (reality_trees (db w))) ->
        new_share_token us (VBool true) w = Some tok ->
        ~ In tok (share_tokens (reality_trees (db w))) ->
        exists w' row,
          handle (PostTrees td us (VBool true) pr h) w
          = (Respond 200 (BTree (new_tree_id us w) (Some tok)
                                (share_url pr h (Some tok))), w') /\
          reality_trees (db w') = reality_trees (db w) ++ [row] /\
          t_id row = new_tree_id us w /\
          t_share_token row = Some tok /\ t_is_public row = 1) /\
    (forall td us pr h b w',
        handle (PostTrees td us (VBool false) pr h) w = (Respond 200 b, w') ->
        exists row,
          reality_trees (db w') = reality_trees (db w) ++ [row] /\
          t_share_token row = None /\ t_is_public row = 0 /\
          b = BTree (t_id row) None None) /\
    (forall td us pr h b w',
        handle (PostTrees td us (VBool true) pr h) w = (Respond 200 b, w') ->
        exists row tok,
          reality_trees (db w') = reality_trees (db w) ++ [row] /\
          t_share_token row = Some tok /\ t_is_public row = 1 /\
          ~ In tok (share_tokens (reality_trees (db w))) /\
          b = BTree (t_id row) (Some tok) (share_url pr h (Some tok))) /\
    (forall req,
        map sharing_columns (reality_trees (db (snd (handle req w))))
        = map sharing_columns (reality_trees (db w)) \/
        exists td us mp pr h row,
          req = PostTrees td us mp pr h /\
          reality_trees (db (snd (handle req w))) = reality_trees (db w) ++ [row]).
Proof.
  intros w Hreach.
  assert (Hsave : forall td us mp pr h,
             ~ In (new_tree_id us w) (map t_id (reality_trees (db w))) ->
             (forall tok, new_share_token us mp w = Some tok ->
                          ~ In tok (share_tokens (reality_trees (db w)))) ->
             exists w',
               handle (PostTrees td us mp pr h) w
               = (Respond 200 (BTree (new_tree_id us w) (new_share_token us mp w)
                                     (share_url pr h (new_share_token us mp w))), w') /\
               reality_trees (db w')
               = reality_trees (db w) ++ [new_tree_row td us mp w]).
  { intros td us mp pr h Hid Htok.
    pose proof (post_trees_run td us mp pr h w) as Hrun. cbv zeta in Hrun.
    rewrite (insert_tree_spec (new_tree_row td us mp w) (db w)) in Hrun
      by (split; assumption).
    eexists. split; [exact Hrun | reflexivity]. }
  split; [|split; [|split; [|split; [|split]]]].
  - intros row Hin.
    pose proof (inv_public _ (reachable_tree_inv w Hreach)) as Hall.
    rewrite Forall_forall in Hall. apply (Hall row Hin).
  - intros td us pr h Hid.
    destruct (Hsave td us (VBool false) pr h Hid) as (w' & Hrun & Htrees).
    { intros tok H. discriminate. }
    exists w', (new_tree_row td us (VBool false) w).
    split; [exact Hrun|]. split; [exact Htrees|]. repeat split.
  - intros td us pr h tok Hid Htok Hfresh.
    destruct (Hsave td us (VBool true) pr h Hid) as (w' & Hrun & Htrees).
    { intros tok' H. rewrite Htok in H. inversion H; subst. exact Hfresh. }
    exists w', (new_tree_row td us (VBool true) w).
    rewrite Htok in Hrun. split; [exact Hrun|]. split; [exact Htrees|].
    split; [reflexivity|]. split; [exact Htok | reflexivity].
  - intros td us pr h b w' Hpost.
    destruct (post_trees_ok _ _ _ _ _ _ _ _ Hpost) as (d' & Hins & Hb & Htrees).
    exists (new_tree_row td us (VBool false) w). repeat split; auto.
  - intros td us pr h b w' Hpost.
    destruct (post_trees_ok _ _ _ _ _ _ _ _ Hpost) as (d' & Hins & Hb & Htrees).
    assert (Hn : insert_tree (new_tree_row td us (VBool true) w) (db w) <> None)
      by congruence.
    destruct (insert_tree_fresh _ _ Hn) as [_ Hfresh].
    assert (Htok : exists tok,
               t_share_token (new_tree_row td us (VBool true) w) = Some tok)
      by (eexists; reflexivity).
    destruct Htok as [tok Htok].
    exists (new_tree_row td us (VBool true) w), tok.
    split; [exact Htrees|]. split; [exact Htok|]. split; [reflexivity|].
    split; [apply Hfresh; exact Htok | rewrite Htok in Hb; exact Hb].
  - intros req.
    destruct (handle_trees req w)
      as [Hsame | [(td & us & mp & pr & h & -> & Hins & Happ) | (tok & row & -> & Hsel & Hbump)]].
    + left. rewrite Hsame. reflexivity.
    + right. eauto 10.
    + left. rewrite Hbump. apply bump_columns.
Qed.

(** C10: [POST /trees] accepts any body.  Whatever [treeData] is,
    absent included, when the store accepts the identifiers that the
    handler draws the answer is 200 with the tree id and, for a truthy
    [makePublic], a share token; the row that is inserted holds in
    [tree_data] the serialization of what was supplied, which for an
    absent [treeData] is no text at all (NULL). *)
Theorem post_trees_accepts_any_body :
  forall treeData us mp pr h w,
    ~ In (new_tree_id us w) (map t_id (reality_trees (db w))) ->
    (forall tok, new_share_token us mp w = Some tok ->
                 ~ In tok (share_tokens (reality_trees (db w)))) ->
    exists w' row,
      handle (PostTrees treeData us mp pr h) w
      = (Respond 200 (BTree (new_tree_id us w) (new_share_token us mp w)
                            (share_url pr h (new_share_token us mp w))), w') /\
      reality_trees (db w') = reality_trees (db w) ++ [row] /\
      t_id row = new_tree_id us w /\
      t_share_token row = new_share_token us mp w /\
      t_tree_data row = JSON_stringify treeData /\
      (treeData = VUndefined -> t_tree_data row = None) /\
      (public_flag mp = true -> new_share_token us mp w <> None).
Proof.
  intros treeData us mp pr h w Hid Htok.
  pose proof (post_trees_run treeData us mp pr h w) as Hrun. cbv zeta in Hrun.
  rewrite (insert_tree_spec (new_tree_row treeData us mp w) (db w)) in Hrun
    by (split; assumption).
  eexists _, (new_tree_row treeData us mp w). split; [exact Hrun|].
  simpl. repeat split; auto.
  - intros ->. reflexivity.
  - unfold new_share_token. intros ->. discriminate.
Qed.

End TreeProperties.

(** ** Reading realities, statistics and the fallback *)

Lemma JSON_parse_error : forall text e, JSON_parse text = Throw e -> e = SyntaxError.
Proof.
  intros text e. unfold JSON_parse.
  destruct (parse_value _ text) as [[v rest]|]; [destruct (skip_ws rest)|];
    intros H; inversion H; reflexivity.
Qed.

Lemma parse_outcomes_absent :
  forall row,
    r_outcomes row = None \/ r_outcomes row = Some [] ->
    parse_outcomes row = Ok (VArr []).
Proof.
  intros row [H|H]; unfold parse_outcomes; rewrite H; vm_compute; reflexivity.
Qed.

Lemma map_result_all :
  forall A B (f : A -> result B) l,
    (forall a, In a l -> exists b, f a = Ok b) ->
    exists bs, map_result f l = Ok bs /\ Forall2 (fun a b => f a = Ok b) l bs.
Proof.
  intros A B f l. induction l as [|a l IH]; intros H; simpl.
  - exists []. split; [reflexivity | constructor].
  - destruct (H a (or_introl eq_refl)) as [b Hb]. rewrite Hb.
    destruct IH as (bs & Hbs & Hall).
    { intros x Hx. apply H. right. exact Hx. }
    rewrite Hbs. exists (b :: bs). split; [reflexivity | constructor; assumption].
Qed.

Lemma map_result_some_throw :
  forall A B (f : A -> result B) l e0,
    (forall a e, f a = Throw e -> e = e0) ->
    (exists a, In a l /\ f a = Throw e0) ->
    map_result f l = Throw e0.
Proof.
  intros A B f l e0 Honly. induction l as [|a l IH]; intros (x & Hin & Hx).
  - destruct Hin.
  - simpl. destruct (f a) as [b|e] eqn:Ea.
    + destruct Hin as [->|Hin]; [congruence|].
      rewrite IH; [reflexivity | eauto].
    + rewrite (Honly a e Ea). reflexivity.
Qed.

Section ReadProperties.
Context {P : Platform}.

Lemma get_realities_run :
  forall session limit offset w,
    handle (GetRealities session limit offset) w =
    (match query_integer limit 20, query_integer offset 0 with
     | Some lim, Some off =>
         match map_result
                 (fun row => match parse_outcomes row with
                             | Ok v => Ok (row, v)
                             | Throw e => Throw e
                             end)
                 (select_realities session lim off (db w)) with
         | Ok realities =>
             Respond 200
               (BRealities realities
                  (Z.of_nat (List.length (select_realities session lim off (db w)))))
         | Throw e => Uncaught e
         end
     | _, _ => Respond 500 (BError (js "Failed to fetch realities"))
     end, w).
Proof.
  intros session limit offset w.
  unfold handle, run, get_realities, bind, get_db, lift, ret.
  destruct (query_integer limit 20); [|reflexivity].
  destruct (query_integer offset 0); [|reflexivity].
  destruct (map_result _ _); reflexivity.
Qed.

(** C1, as the handler has it: a row whose [outcomes] is NULL or the
    empty text is returned with the empty array.  When the limit and
    the offset of the query are integers that the SELECT takes: if the
    text of every selected row is valid JSON the answer is 200 with
    each row next to its parsed value, and if the text of some selected
    row is not valid JSON the SyntaxError is not caught and no response
    is written.  When the limit or the offset is not such an integer
    the answer is 500. *)
Theorem get_realities_outcomes :
  forall session limit offset w,
    (forall row, r_outcomes row = None \/ r_outcomes row = Some [] ->
                 parse_outcomes row = Ok (VArr [])) /\
    (forall lim off,
        query_integer limit 20 = Some lim ->
        query_integer offset 0 = Some off ->
        let rows := select_realities session lim off (db w) in
        ((forall row, In row rows -> exists v, parse_outcomes row = Ok v) ->
         exists vs,
           handle (GetRealities session limit offset) w
           = (Respond 200 (BRealities (combine rows vs)
                                      (Z.of_nat (List.length rows))), w) /\
           Forall2 (fun row v => parse_outcomes row = Ok v) rows vs) /\
        ((exists row, In row rows /\ parse_outcomes row = Throw SyntaxError) ->
         handle (GetRealities session limit offset) w = (Uncaught SyntaxError, w))) /\
    (query_integer limit 20 = None \/ query_integer offset 0 = None ->
     handle (GetRealities session limit offset) w
     = (Respond 500 (BError (js "Failed to fetch realities")), w)).
Proof.
  intros session limit offset w. split; [|split].
  - apply parse_outcomes_absent.
  - intros lim off Hlim Hoff rows. split.
    + intros Hall. rewrite get_realities_run, Hlim, Hoff. fold rows.
      assert (Hvs : exists vs,
                 Forall2 (fun row v => parse_outcomes row = Ok v) rows vs /\
                 map_result (fun row => match parse_outcomes row with
                                        | Ok v => Ok (row, v)
                                        | Throw e => Throw e
                                        end) rows = Ok (combine rows vs)).
      { clear -Hall. induction rows as [|row rows IH].
        - exists []. split; [constructor | reflexivity].
        - destruct (Hall row (or_introl eq_refl)) as [v Hv].
          destruct IH as (vs & Hf & Hm).
          { intros r Hr. apply Hall. right. exact Hr. }
          exists (v :: vs). split; [constructor; assumption|].
          simpl. rewrite Hv, Hm. reflexivity. }
      destruct Hvs as (vs & Hf & Hm). exists vs. rewrite Hm. auto.
    + intros (row & Hin & Hrow). rewrite get_realities_run, Hlim, Hoff. fold rows.
      rewrite (map_result_some_throw _ _ _ rows SyntaxError); [reflexivity | |].
      * intros a e. unfold parse_outcomes.
        destruct (JSON_parse _) as [v|e'] eqn:E; intros H; inversion H; subst.
        apply (JSON_parse_error _ _ E).
      * exists row. rewrite Hrow. auto.
  - intros Hbad. rewrite get_realities_run.
    destruct (query_integer limit 20); destruct (query_integer offset 0);
      try reflexivity.
    destruct Hbad; discriminate.
Qed.


Lemma get_stats_run :
  forall session w,
    handle (GetStats session) w =
    (Respond 200
       (BStats (count_realities session (db w)) (count_trees session (db w))
               (count_analytics session (db w))
               (diversity_binary64 (count_realities session (db w))
                                   (count_analytics session (db w)))), w).
Proof. reflexivity. Qed.

End ReadProperties.

Lemma number_eqb_eq : forall x y, number_eqb x y = true -> x = y.
Proof.
  intros [a|a| |a m e] [b|b| |b n f]; simpl; intros H; try discriminate;
    try reflexivity.
  - apply Bool.eqb_prop in H. congruence.
  - apply Bool.eqb_prop in H. congruence.
  - apply andb_true_iff in H. destruct H as [H He].
    apply andb_true_iff in H. destruct H as [Hs Hm].
    apply Bool.eqb_prop in Hs. apply Pos.eqb_eq in Hm. apply Z.eqb_eq in He.
    congruence.
Qed.

Lemma diversity_close_100 : diversity_close_upto 101 = true.
Proof. vm_compute. reflexivity. Qed.

Lemma diversity_close_upto_spec :
  forall n,
    diversity_close_upto n = true ->
    forall r i,
      0 <= r < Z.of_nat n -> 0 <= i < Z.of_nat n -> diversity_close r i = true.
Proof.
  intros n H r i Hr Hi. unfold diversity_close_upto in H.
  rewrite forallb_forall in H.
  assert (Hin : forall z, 0 <= z < Z.of_nat n -> In (Z.to_nat z) (seq 0 n)).
  { intros z Hz. apply in_seq. lia. }
  specialize (H (Z.to_nat r) (Hin r Hr)). rewrite forallb_forall in H.
  specialize (H (Z.to_nat i) (Hin i Hi)).
  rewrite !Z2Nat.id in H by lia. exact H.
Qed.

Lemma diversity_close_range :
  forall r i, 0 <= r <= 100 -> 0 <= i <= 100 -> diversity_close r i = true.
Proof.
  intros r i Hr Hi.
  apply (diversity_close_upto_spec 101 diversity_close_100); lia.
Qed.

Section StatsProperties.
Context {P : Platform}.

(** C7, as the handler has it: [diversityScore] is the floor of
    [realityCount * 1.7 + interactionCount * 0.3] evaluated in binary64
    arithmetic.  For 3 realities and 5 analytics rows it is 6.  For up to
    100 rows in each table it is the floor of the exact sum whenever
    that sum is not a whole number, and that floor or one less when
    it is. *)
Theorem stats_diversity_score :
  forall session w r i,
    count_realities session (db w) = r ->
    count_analytics session (db w) = i ->
    handle (GetStats session) w
    = (Respond 200 (BStats r (count_trees session (db w)) i (diversity_binary64 r i)), w) /\
    (r = 3 -> i = 5 -> diversity_binary64 r i = num_of_Z 6) /\
    (r <= 100 -> i <= 100 ->
     exists k,
       diversity_binary64 r i = num_of_Z k /\
       diversity_exact r i - 1 <= k <= diversity_exact r i /\
       ((17 * r + 3 * i) mod 10 <> 0 -> k = diversity_exact r i)).
Proof.
  intros session w r i Hr Hi. split; [|split].
  - rewrite get_stats_run, Hr, Hi. reflexivity.
  - intros -> ->. vm_compute. reflexivity.
  - intros Hr100 Hi100.
    assert (Hr0 : 0 <= r) by (subst r; unfold count_realities; lia).
    assert (Hi0 : 0 <= i) by (subst i; unfold count_analytics; lia).
    pose proof (diversity_close_range r i (conj Hr0 Hr100) (conj Hi0 Hi100)) as H.
    unfold diversity_close in H. apply orb_true_iff in H.
    destruct H as [H|H].
    + apply number_eqb_eq in H. exists (diversity_exact r i).
      split; [exact H|]. split; [lia | auto].
    + apply andb_true_iff in H. destruct H as [Hmod H].
      apply number_eqb_eq in H. apply Z.eqb_eq in Hmod.
      exists (diversity_exact r i - 1).
      split; [exact H|]. split; [lia | intros Hn; contradiction].
Qed.

End StatsProperties.

(** ** Rounding in binary64

    What the proofs about [Math.random() * c] and [... + d] need of the
    arithmetic of [SpecFloat]: the shift that drops the low bits keeps
    track of where the dropped part lies, rounding to nearest moves the
    mantissa by at most half a unit, and the result is a valid number. *)

Lemma bpow_pos : forall e, (0 < bpow e)%Q.
Proof. intros e. unfold bpow. apply Qpower_0_lt. reflexivity. Qed.

Lemma bpow_add : forall a b, (bpow (a + b) == bpow a * bpow b)%Q.
Proof. intros a b. unfold bpow. apply Qpower_plus. discriminate. Qed.

Lemma bpow_0 : (bpow 0 == 1)%Q.
Proof. reflexivity. Qed.

Lemma bpow_1 : (bpow 1 == 2)%Q.
Proof. reflexivity. Qed.

Lemma bpow_succ : forall e, (bpow (e + 1) == 2 * bpow e)%Q.
Proof.
  intros e. pose proof (bpow_add e 1) as H. pose proof bpow_1 as H1.
  rewrite H, H1. ring.
Qed.

Lemma bpow_nonneg : forall e, 0 <= e -> (bpow e == inject_Z (2 ^ e))%Q.
Proof.
  intros e He. unfold bpow. pose proof (Zpower_Qpower 2 e He) as H.
  rewrite H. reflexivity.
Qed.

Lemma bpow_le : forall a b, a <= b -> (bpow a <= bpow b)%Q.
Proof.
  intros a b Hab.
  pose proof (bpow_add a (b - a)) as Hadd.
  replace (a + (b - a)) with b in Hadd by lia.
  pose proof (bpow_nonneg (b - a) ltac:(lia)) as Hn.
  assert (H1 : 1 <= 2 ^ (b - a))
    by (pose proof (Z.pow_pos_nonneg 2 (b - a) ltac:(lia) ltac:(lia)); lia).
  assert (H2 : (1 <= inject_Z (2 ^ (b - a)))%Q).
  { rewrite <- (Zle_Qle 1). exact H1. }
  pose proof (bpow_pos a) as Hp.
  nra.
Qed.

Lemma bpow_lt : forall a b, a < b -> (bpow a < bpow b)%Q.
Proof.
  intros a b Hab.
  assert (H : (bpow (a + 1) <= bpow b)%Q) by (apply bpow_le; lia).
  pose proof (bpow_succ a) as Hs. pose proof (bpow_pos a). lra.
Qed.

Lemma F2Q_shift :
  forall m e k, 0 <= k -> (F2Q (m * 2 ^ k) e == F2Q m (e + k))%Q.
Proof.
  intros m e k Hk. unfold F2Q.
  pose proof (bpow_add e k) as Ha. pose proof (bpow_nonneg k Hk) as Hn.
  rewrite inject_Z_mult. rewrite Ha, Hn. ring.
Qed.

Lemma F2Q_le : forall m n e, m <= n -> (F2Q m e <= F2Q n e)%Q.
Proof.
  intros m n e H. unfold F2Q. pose proof (bpow_pos e) as Hp.
  rewrite Zle_Qle in H. nra.
Qed.

Lemma F2Q_lt : forall m n e, m < n -> (F2Q m e < F2Q n e)%Q.
Proof.
  intros m n e H. unfold F2Q. pose proof (bpow_pos e) as Hp.
  rewrite Zlt_Qlt in H. nra.
Qed.

Lemma F2Q_lt_inv : forall m n e, (F2Q m e < F2Q n e)%Q -> m < n.
Proof.
  intros m n e H. destruct (Z_lt_le_dec m n) as [Hlt|Hle]; [exact Hlt|].
  apply (F2Q_le n m e) in Hle. lra.
Qed.

(** *** Digits *)

Lemma digits2_pos_size : forall m, digits2_pos m = Pos.size m.
Proof. induction m as [m IH|m IH|]; simpl; try rewrite IH; reflexivity. Qed.

Lemma digits2_pos_log2 : forall m, Zpos (digits2_pos m) = Z.log2 (Zpos m) + 1.
Proof.
  intros m. rewrite digits2_pos_size.
  destruct m as [m|m|]; simpl; try rewrite Pos2Z.inj_succ; lia.
Qed.

Lemma digits_bounds :
  forall m, 2 ^ (Zpos (digits2_pos m) - 1) <= Zpos m < 2 ^ Zpos (digits2_pos m).
Proof.
  intros m. rewrite digits2_pos_log2.
  replace (Z.log2 (Zpos m) + 1 - 1) with (Z.log2 (Zpos m)) by lia.
  pose proof (Z.log2_spec (Zpos m) ltac:(lia)) as H.
  replace (Z.succ (Z.log2 (Zpos m))) with (Z.log2 (Zpos m) + 1) in H by lia.
  exact H.
Qed.

Lemma digits_unique :
  forall m j, 2 ^ (j - 1) <= Zpos m < 2 ^ j -> Zpos (digits2_pos m) = j.
Proof.
  intros m j H. rewrite digits2_pos_log2.
  assert (Hj : 0 <= j - 1).
  { destruct (Z_lt_le_dec (j - 1) 0) as [Hneg|]; [|lia].
    assert (j <= 0) by lia.
    assert (2 ^ j <= 1).
    { destruct (Z.eq_dec j 0) as [->|]; [simpl; lia|].
      rewrite Z.pow_neg_r by lia. lia. }
    lia. }
  rewrite (Z.log2_unique (Zpos m) (j - 1) Hj); [lia|].
  replace (Z.succ (j - 1)) with j by lia. exact H.
Qed.

Lemma pow2_pos : forall k, 0 <= k -> 0 < 2 ^ k.
Proof. intros k Hk. apply Z.pow_pos_nonneg; lia. Qed.

Lemma pow2_succ : forall k, 0 <= k -> 2 ^ (k + 1) = 2 * 2 ^ k.
Proof.
  intros k Hk. rewrite Z.pow_add_r by lia. change (2 ^ 1) with 2. lia.
Qed.

Lemma pow2_add : forall a b, 0 <= a -> 0 <= b -> 2 ^ (a + b) = 2 ^ a * 2 ^ b.
Proof. intros a b Ha Hb. apply Z.pow_add_r; assumption. Qed.

Lemma pow2_le : forall a b, 0 <= a <= b -> 2 ^ a <= 2 ^ b.
Proof. intros a b H. apply Z.pow_le_mono_r; lia. Qed.

Lemma pow2_lt : forall a b, 0 <= a < b -> 2 ^ a < 2 ^ b.
Proof. intros a b H. apply Z.pow_lt_mono_r; lia. Qed.

(** *** The shift that drops low bits *)

Lemma loc_inv_init : forall M, loc_inv (Build_shr_record M false false) M 0.
Proof.
  intros M. unfold loc_inv. simpl.
  rewrite Z.div_1_r, Z.mod_1_r. auto.
Qed.

Lemma shr_1_inv :
  forall mrs M k,
    0 <= M -> 0 <= k -> loc_inv mrs M k -> loc_inv (shr_1 mrs) M (k + 1).
Proof.
  intros [m r s] M k HM Hk [Hm Hloc]. cbn [shr_m shr_r shr_s] in Hm, Hloc.
  pose proof (pow2_pos k Hk) as HP.
  pose proof (pow2_succ k Hk) as HS.
  pose proof (Z.mod_pos_bound M (2 ^ k) HP) as Hrem.
  assert (Hdiv : M / 2 ^ (k + 1) = m / 2).
  { rewrite HS, Hm. rewrite Z.div_div by lia. f_equal. lia. }
  assert (Hmod : M mod 2 ^ (k + 1) = M mod 2 ^ k + 2 ^ k * (m mod 2)).
  { rewrite HS, Hm. rewrite (Z.mul_comm 2). apply Z.rem_mul_r; lia. }
  assert (Hm0 : 0 <= m) by (rewrite Hm; apply Z.div_pos; lia).
  assert (Hs : (r || s = false /\ M mod 2 ^ k = 0) \/
               (r || s = true /\ 0 < M mod 2 ^ k)).
  { destruct r, s; cbn [orb]; [right | right | right | left];
      split; try reflexivity; lia. }
  assert (Hcase : (m mod 2 = 0 /\ shr_1 {| shr_m := m; shr_r := r; shr_s := s |}
                                 = {| shr_m := m / 2; shr_r := false; shr_s := r || s |})
                  \/ (m mod 2 = 1 /\ shr_1 {| shr_m := m; shr_r := r; shr_s := s |}
                                 = {| shr_m := m / 2; shr_r := true; shr_s := r || s |})).
  { destruct m as [|p|p]; [left; split; reflexivity | | lia].
    destruct p as [p|p|].
    - right. split.
      + rewrite Pos2Z.inj_xI. symmetry. apply (Z.mod_unique _ 2 (Zpos p) 1); lia.
      + cbn [shr_1]. f_equal. rewrite Pos2Z.inj_xI.
        apply (Z.div_unique _ 2 _ 1); lia.
    - left. split.
      + rewrite Pos2Z.inj_xO. symmetry. apply (Z.mod_unique _ 2 (Zpos p) 0); lia.
      + cbn [shr_1]. f_equal. rewrite Pos2Z.inj_xO.
        apply (Z.div_unique _ 2 _ 0); lia.
    - right. split; reflexivity. }
  unfold loc_inv. rewrite Hdiv, Hmod, HS.
  destruct Hcase as [[Hev ->]|[Hod ->]]; cbn [shr_m shr_r shr_s];
    (split; [reflexivity|]); rewrite ?Hev, ?Hod;
    destruct Hs as [[-> Hz]|[-> Hz]]; lia.
Qed.

Lemma iter_pos_inv :
  forall p mrs M k,
    0 <= M -> 0 <= k -> loc_inv mrs M k ->
    loc_inv (SpecFloat.iter_pos shr_1 p mrs) M (k + Zpos p).
Proof.
  induction p as [p IH|p IH|]; intros mrs M k HM Hk H; simpl.
  - replace (k + Zpos p~1) with (k + 1 + Zpos p + Zpos p) by lia.
    apply IH; try lia. apply IH; try lia. apply shr_1_inv; assumption.
  - replace (k + Zpos p~0) with (k + Zpos p + Zpos p) by lia.
    apply IH; try lia. apply IH; try lia. assumption.
  - apply shr_1_inv; assumption.
Qed.

Lemma shr_inv :
  forall M e n,
    0 <= M ->
    loc_inv (fst (shr (Build_shr_record M false false) e n)) M (Z.max 0 n) /\
    snd (shr (Build_shr_record M false false) e n) = e + Z.max 0 n.
Proof.
  intros M e n HM. destruct n as [|p|p]; cbn [shr fst snd].
  - replace (Z.max 0 0) with 0 by lia.
    split; [apply loc_inv_init | lia].
  - replace (Z.max 0 (Zpos p)) with (0 + Zpos p) by lia.
    split; [|lia].
    apply iter_pos_inv; try lia. apply loc_inv_init.
  - replace (Z.max 0 (Zneg p)) with 0 by lia.
    split; [apply loc_inv_init | lia].
Qed.

(** *** Rounding to nearest, ties to even *)

Lemma rne_spec :
  forall mrs M k,
    0 <= M -> 0 <= k -> loc_inv mrs M k ->
    rounds_to M k (round_nearest_even (shr_m mrs) (loc_of_shr_record mrs)).
Proof.
  intros [m r s] M k HM Hk [Hm Hloc]. cbn [shr_m shr_r shr_s] in Hm, Hloc.
  pose proof (pow2_pos k Hk) as HP.
  pose proof (Z.mod_pos_bound M (2 ^ k) HP) as Hrem.
  pose proof (Z.div_mod M (2 ^ k) ltac:(lia)) as Hdm.
  rewrite <- Hm in Hdm.
  assert (Hk0 : k = 0 -> 2 ^ k = 1) by (intros ->; reflexivity).
  unfold rounds_to. rewrite <- Hm.
  destruct r, s; cbn [shr_m loc_of_shr_record round_nearest_even];
    try destruct (Z.even m);
    (split; [lia | split; [nia | intros Hz; specialize (Hk0 Hz); nia]]).
Qed.

(** *** The rounding of a positive mantissa *)

Lemma fexp_64 : forall e, fexp prec emax e = Z.max (e - 53) (-1074).
Proof. reflexivity. Qed.

Lemma shr_nonpos : forall mrs e n, n <= 0 -> shr mrs e n = (mrs, e).
Proof. intros mrs e [|p|p] H; try reflexivity. lia. Qed.

Lemma bounded_iff :
  forall m e,
    bounded prec emax m e = true <->
    Z.max (Zpos (digits2_pos m) + e - 53) (-1074) = e /\ e <= 971.
Proof.
  intros m e. unfold bounded, canonical_mantissa. rewrite fexp_64.
  rewrite andb_true_iff, Z.eqb_eq, Z.leb_le. reflexivity.
Qed.

Lemma binary_round_aux_spec :
  forall M E,
    E <= fexp prec emax (Zpos (digits2_pos M) + E) ->
    fexp prec emax (Zpos (digits2_pos M) + E) < 971 ->
    exists m2,
      rounds_to (Zpos M) (fexp prec emax (Zpos (digits2_pos M) + E) - E) m2 /\
      holds (binary_round_aux prec emax false (Zpos M) E loc_Exact) m2
            (fexp prec emax (Zpos (digits2_pos M) + E)).
Proof.
  intros M E. rewrite fexp_64.
  set (d := Zpos (digits2_pos M)).
  set (e1 := Z.max (d + E - 53) (-1074)).
  intros HE Hmax.
  set (k := e1 - E).
  assert (Hk : 0 <= k) by (unfold k; lia).
  pose proof (digits_bounds M) as Hd. fold d in Hd.
  assert (Hd1 : 1 <= d) by (unfold d; lia).
  unfold binary_round_aux, shr_fexp.
  change (Zdigits2 (Zpos M)) with d.
  change (shr_record_of_loc (Zpos M) loc_Exact)
    with (Build_shr_record (Zpos M) false false).
  rewrite fexp_64. fold e1. fold k.
  destruct (shr_inv (Zpos M) E k ltac:(lia)) as [Hinv He].
  destruct (shr (Build_shr_record (Zpos M) false false) E k) as [mrs1 e1'].
  cbn [fst snd] in Hinv, He.
  replace (Z.max 0 k) with k in Hinv, He by lia.
  assert (He1 : e1' = e1) by (unfold k in He; lia). clear He. subst e1'.
  pose proof (rne_spec mrs1 (Zpos M) k ltac:(lia) Hk Hinv) as Hr.
  set (m2 := round_nearest_even (shr_m mrs1) (loc_of_shr_record mrs1)) in *.
  exists m2. split; [exact Hr|].
  destruct Hr as (Hr1 & Hr2 & Hr3).
  pose proof (pow2_pos k Hk) as HPk.
  (* the quotient has at most 53 digits *)
  assert (Hq : 0 <= Zpos M / 2 ^ k < 2 ^ 53).
  { split; [apply Z.div_pos; lia|].
    apply Z.div_lt_upper_bound; [lia|].
    rewrite <- pow2_add by lia.
    eapply Z.lt_le_trans; [apply Hd|]. apply pow2_le. unfold k, e1. lia. }
  (* above the subnormal range the quotient has exactly 53 digits *)
  assert (Hn : -1074 < e1 -> 2 ^ 52 <= Zpos M / 2 ^ k).
  { intros Hsub. apply Z.div_le_lower_bound; [lia|].
    rewrite <- pow2_add by lia.
    replace (k + 52) with (d - 1) by (unfold k, e1; lia). apply Hd. }
  change (shr_record_of_loc m2 loc_Exact) with (Build_shr_record m2 false false).
  destruct m2 as [|q|q] eqn:Em2; [| |lia].
  - (* rounded to zero *)
    cbn [Zdigits2]. rewrite shr_nonpos by (rewrite fexp_64; lia).
    cbn [shr_m]. reflexivity.
  - destruct (Z.eq_dec (Zpos q) (2 ^ 53)) as [Htop|Htop].
    + (* rounded up to the next binade *)
      assert (Hq53 : q = 9007199254740992%positive) by (change (2 ^ 53) with 9007199254740992 in Htop; congruence).
      subst q. cbn [Zdigits2 digits2_pos Pos.succ]. rewrite fexp_64.
      replace (Z.max (54 + e1 - 53) (-1074) - e1) with 1 by lia.
      cbn [shr SpecFloat.iter_pos shr_1 shr_m].
      replace (e1 + 1 <=? emax - prec) with true
        by (symmetry; apply Z.leb_le; unfold emax, prec; lia).
      cbn [holds]. split; [|split].
      * apply bounded_iff. cbn [digits2_pos Pos.succ]. lia.
      * lia.
      * replace (e1 + 1 - e1) with 1 by lia. reflexivity.
    + assert (Hlt : Zpos q < 2 ^ 53) by lia.
      pose proof (digits_bounds q) as Hdq.
      assert (Hdq53 : Zpos (digits2_pos q) <= 53).
      { destruct (Z_le_gt_dec (Zpos (digits2_pos q)) 53) as [|Hgt]; [assumption|].
        assert (2 ^ 53 <= 2 ^ (Zpos (digits2_pos q) - 1)) by (apply pow2_le; lia).
        lia. }
      cbn [Zdigits2]. rewrite shr_nonpos by (rewrite fexp_64; lia).
      cbn [shr_m].
      replace (e1 <=? emax - prec) with true
        by (symmetry; apply Z.leb_le; unfold emax, prec; lia).
      cbn [holds]. split; [|split].
      * apply bounded_iff. split; [|lia].
        destruct (Z.eq_dec e1 (-1074)) as [Hsub|Hsub]; [lia|].
        assert (H52 : 2 ^ 52 <= Zpos q) by (specialize (Hn ltac:(unfold e1 in *; lia)); lia).
        assert (Zpos (digits2_pos q) = 53).
        { apply digits_unique. change (53 - 1) with 52. lia. }
        lia.
      * lia.
      * replace (e1 - e1) with 0 by lia. change (2 ^ 0) with 1. lia.
Qed.

(** *** Values *)

Lemma F2Q_0 : forall e, (F2Q 0 e == 0)%Q.
Proof. intros e. unfold F2Q. ring. Qed.

Lemma holds_value :
  forall r m e, holds r m e -> nonneg_valid r /\ (SF2Q r == F2Q m e)%Q.
Proof.
  intros [[|]| | |[|] m3 e3] m e H; cbn [holds] in H; try contradiction.
  - subst m. split; [exact I|]. cbn [SF2Q]. rewrite F2Q_0. reflexivity.
  - destruct H as (Hb & He & Hm). split; [exact Hb|].
    cbn [SF2Q cond_Zopp]. subst m.
    rewrite (F2Q_shift (Zpos m3) e (e3 - e)) by lia.
    replace (e + (e3 - e)) with e3 by lia. reflexivity.
Qed.

Lemma rounds_to_Q :
  forall M E k m2,
    0 <= k -> rounds_to M k m2 ->
    (F2Q M E - bpow (E + k - 1) <= F2Q m2 (E + k) <= F2Q M E + bpow (E + k - 1))%Q.
Proof.
  intros M E k m2 Hk (_ & H2 & _).
  pose proof (F2Q_shift m2 E k Hk) as Hs.
  pose proof (bpow_succ (E + k - 1)) as Hb.
  replace (E + k - 1 + 1) with (E + k) in Hb by lia.
  pose proof (bpow_add E k) as Ha.
  pose proof (bpow_nonneg k Hk) as Hn.
  pose proof (bpow_pos E) as Hp.
  destruct H2 as [Hlo Hhi].
  rewrite Zle_Qle in Hlo, Hhi.
  rewrite !inject_Z_plus, !inject_Z_mult in Hhi.
  unfold Z.sub in Hlo.
  rewrite !inject_Z_plus, !inject_Z_mult, inject_Z_opp in Hlo.
  unfold F2Q in *. rewrite inject_Z_mult in Hs.
  change (inject_Z 2) with 2%Q in *.
  split; nra.
Qed.

(** Rounding does not cross a number of the target grid. *)
Lemma rounds_to_grid :
  forall M k m2 n,
    0 <= k -> rounds_to M k m2 ->
    (n * 2 ^ k <= M -> n <= m2) /\ (M <= n * 2 ^ k -> m2 <= n).
Proof.
  intros M k m2 n Hk (_ & [Hlo Hhi] & _).
  pose proof (pow2_pos k Hk) as HP.
  split; intros H; nia.
Qed.

Lemma unit_interval_finite :
  forall m e,
    unit_interval (S754_finite false m e) ->
    -1074 <= e <= -53 /\ Zpos m < 2 ^ (- e) /\ Zpos m < 2 ^ 53 /\
    Zpos (digits2_pos m) <= 53.
Proof.
  intros m e (_ & Hb & Hlt). apply bounded_iff in Hb. destruct Hb as [Hc _].
  pose proof (digits_bounds m) as Hd.
  assert (He : e < 0).
  { destruct (Z_lt_le_dec e 0) as [|Hge]; [assumption|].
    assert (2 ^ (- e) <= 1).
    { destruct (Z.eq_dec e 0) as [->|]; [simpl; lia|].
      rewrite Z.pow_neg_r by lia. lia. }
    lia. }
  assert (Hde : Zpos (digits2_pos m) - 1 < - e).
  { destruct (Z_lt_le_dec (Zpos (digits2_pos m) - 1) (- e)) as [|Hge]; [assumption|].
    assert (2 ^ (- e) <= 2 ^ (Zpos (digits2_pos m) - 1)) by (apply pow2_le; lia).
    lia. }
  assert (Hd53 : Zpos (digits2_pos m) <= 53) by lia.
  repeat split; try lia.
  eapply Z.lt_le_trans; [apply Hd|]. apply pow2_le. lia.
Qed.

(** *** A product with a number of the unit interval *)

(** [x * c] stays below [c] for [x] in the unit interval and a normal
    [c] above one half: the rounding cannot reach [c]. *)
Lemma mul_unit_lt :
  forall x mc ec,
    unit_interval x ->
    2 ^ 52 <= Zpos mc < 2 ^ 53 -> -53 <= ec <= 0 -> 2 ^ (- ec) < 2 * Zpos mc ->
    nonneg_valid (num_mul x (S754_finite false mc ec)) /\
    (SF2Q (num_mul x (S754_finite false mc ec)) < F2Q (Zpos mc) ec)%Q.
Proof.
  intros x mc ec Hx Hmc Hec Hhalf.
  assert (Hcpos : (0 < F2Q (Zpos mc) ec)%Q).
  { unfold F2Q. pose proof (bpow_pos ec).
    assert ((0 < inject_Z (Zpos mc))%Q) by (rewrite <- (Zlt_Qlt 0); lia). nra. }
  destruct x as [s|s| |s mx ex]; cbn [unit_interval] in Hx; try contradiction.
  - subst s. cbn. split; [exact I | exact Hcpos].
  - assert (Hs : s = false) by apply Hx. subst s.
    destruct (unit_interval_finite mx ex Hx) as (Hex & Hlt & Hlt53 & Hdx).
    unfold num_mul, SFmul. cbn [xorb].
    set (M := (mx * mc)%positive). set (E := ex + ec).
    pose proof (digits_bounds M) as Hd.
    set (d := Zpos (digits2_pos M)) in *.
    assert (HM : Zpos M = Zpos mx * Zpos mc) by reflexivity.
    pose proof (pow2_pos (- ex) ltac:(lia)) as HPx.
    assert (Hd53 : 53 <= d).
    { destruct (Z_le_gt_dec 53 d) as [|Hgt]; [assumption|].
      assert (2 ^ d <= 2 ^ 52) by (apply pow2_le; unfold d; lia).
      nia. }
    assert (HdE : d + E - 53 <= ec).
    { destruct (Z_le_gt_dec (d + E - 53) ec) as [|Hgt]; [assumption|].
      assert (2 ^ (- ex + 53) <= 2 ^ (d - 1)) by (apply pow2_le; unfold E in *; lia).
      rewrite pow2_add in H by lia. nia. }
    destruct (binary_round_aux_spec M E) as (m2 & Hr & Hh).
    { rewrite fexp_64. fold d. lia. }
    { rewrite fexp_64. fold d. lia. }
    rewrite fexp_64 in Hr, Hh. fold d in Hr, Hh.
    set (e1 := Z.max (d + E - 53) (-1074)) in *.
    set (k := e1 - E) in *.
    assert (Hk : 0 <= k) by (unfold k, e1; lia).
    destruct (holds_value _ _ _ Hh) as [Hv Hq].
    split; [exact Hv|]. rewrite Hq.
    (* both sides on the grid of exponent [E] *)
    pose proof (F2Q_shift m2 E k Hk) as H1.
    replace (E + k) with e1 in H1 by (unfold k; lia).
    pose proof (F2Q_shift (Zpos mc) E (- ex) ltac:(lia)) as H2.
    replace (E + - ex) with ec in H2 by (unfold E; lia).
    rewrite <- H1, <- H2. apply F2Q_lt.
    destruct Hr as (_ & [_ Hhi] & _).
    pose proof (pow2_pos k Hk) as HPk.
    assert (Hslack : 2 ^ k < 2 * Zpos mc).
    { destruct (Z.eq_dec e1 (-1074)) as [Hsub|Hnorm].
      - assert (k <= - ec) by (unfold k, E; lia).
        assert (2 ^ k <= 2 ^ (- ec)) by (apply pow2_le; lia). lia.
      - assert (Hkd : k + 52 = d - 1) by (unfold k, e1, E in *; lia).
        assert (Hp : 2 ^ (k + 52) <= Zpos M) by (rewrite Hkd; apply Hd).
        rewrite pow2_add in Hp by lia. nia. }
    nia.
Qed.

(** *** The rounding of an aligned sum *)

Lemma iter_xO :
  forall d m, Zpos (Pos.iter xO m d) = Zpos m * 2 ^ Zpos d.
Proof.
  intros d m. induction d as [|d IH] using Pos.peano_ind.
  - cbn [Pos.iter]. rewrite Pos2Z.inj_xO. change (2 ^ 1) with 2. lia.
  - rewrite Pos.iter_succ, Pos2Z.inj_xO, IH, Pos2Z.inj_succ.
    rewrite Z.pow_succ_r by lia. lia.
Qed.

Lemma shl_align_spec :
  forall m e e',
    snd (shl_align m e e') = Z.min e e' /\
    Zpos (fst (shl_align m e e')) = Zpos m * 2 ^ (e - Z.min e e').
Proof.
  intros m e e'. unfold shl_align.
  destruct (e' - e) as [|p|p] eqn:Ed; cbn [fst snd].
  - replace (Z.min e e') with e by lia. replace (e - e) with 0 by lia.
    change (2 ^ 0) with 1. lia.
  - replace (Z.min e e') with e by lia. replace (e - e) with 0 by lia.
    change (2 ^ 0) with 1. lia.
  - replace (Z.min e e') with e' by lia.
    replace (e - e') with (Zpos p) by lia.
    split; [reflexivity | apply iter_xO].
Qed.

Lemma digits_shift :
  forall m m' j,
    0 <= j -> Zpos m' = Zpos m * 2 ^ j ->
    Zpos (digits2_pos m') = Zpos (digits2_pos m) + j.
Proof.
  intros m m' j Hj Hm. apply digits_unique.
  pose proof (digits_bounds m) as Hd.
  pose proof (pow2_pos j Hj) as HP.
  assert (Hd1 : 1 <= Zpos (digits2_pos m)) by lia.
  replace (Zpos (digits2_pos m) + j - 1) with (Zpos (digits2_pos m) - 1 + j) by lia.
  rewrite !pow2_add by lia. rewrite Hm. nia.
Qed.

Lemma F2Q_le_inv : forall m n e, (F2Q m e <= F2Q n e)%Q -> m <= n.
Proof.
  intros m n e H. destruct (Z_le_gt_dec m n) as [Hle|Hgt]; [exact Hle|].
  assert (n < m) by lia. apply (F2Q_lt n m e) in H0. lra.
Qed.

Lemma F2Q_pow : forall j e, 0 <= j -> (F2Q (2 ^ j) e == bpow (j + e))%Q.
Proof.
  intros j e Hj. pose proof (F2Q_shift 1 e j Hj) as H.
  replace (1 * 2 ^ j) with (2 ^ j) in H by lia. rewrite H.
  unfold F2Q. replace (e + j) with (j + e) by lia.
  change (inject_Z 1) with 1%Q. ring.
Qed.

Lemma bpow_lt_inv : forall a b, (bpow a < bpow b)%Q -> a < b.
Proof.
  intros a b H. destruct (Z_lt_le_dec a b) as [|Hle]; [assumption|].
  apply bpow_le in Hle. lra.
Qed.

(** The rounding of [ps * 2^e]: within half a unit of the last place,
    never across a number of the target grid, and at least the least
    number of its binade. *)
Lemma binary_round_spec :
  forall ps e,
    let e1 := fexp prec emax (Zpos (digits2_pos ps) + e) in
    let r := binary_round prec emax false ps e in
    e1 < 971 ->
    nonneg_valid r /\
    (F2Q (Zpos ps) e - bpow (e1 - 1) <= SF2Q r <= F2Q (Zpos ps) e + bpow (e1 - 1))%Q /\
    (forall n, (F2Q n e1 <= F2Q (Zpos ps) e)%Q -> (F2Q n e1 <= SF2Q r)%Q) /\
    (forall n, (F2Q (Zpos ps) e <= F2Q n e1)%Q -> (SF2Q r <= F2Q n e1)%Q).
Proof.
  intros ps e e1 r Hmax. unfold r, binary_round.
  fold e1.
  destruct (shl_align_spec ps e e1) as [Hs Hm].
  destruct (shl_align ps e e1) as [mz ez]. cbn [fst snd] in Hs, Hm. subst ez.
  set (ez := Z.min e e1) in *.
  assert (Hdz : Zpos (digits2_pos mz) + ez = Zpos (digits2_pos ps) + e).
  { rewrite (digits_shift ps mz (e - ez)); [lia | unfold ez; lia | exact Hm]. }
  destruct (binary_round_aux_spec mz ez) as (m2 & Hr & Hh).
  { rewrite Hdz. fold e1. unfold ez. lia. }
  { rewrite Hdz. fold e1. exact Hmax. }
  rewrite Hdz in Hr, Hh. fold e1 in Hr, Hh.
  set (k := e1 - ez) in *.
  assert (Hk : 0 <= k) by (unfold k, ez; lia).
  destruct (holds_value _ _ _ Hh) as [Hv Hq].
  assert (Hval : (F2Q (Zpos mz) ez == F2Q (Zpos ps) e)%Q).
  { rewrite Hm. rewrite F2Q_shift by (unfold ez; lia).
    replace (ez + (e - ez)) with e by lia. reflexivity. }
  pose proof (rounds_to_Q (Zpos mz) ez k m2 Hk Hr) as HQ.
  replace (ez + k) with e1 in HQ by (unfold k; lia).
  split; [exact Hv|]. split; [|split].
  - rewrite Hq. rewrite <- Hval. exact HQ.
  - intros n Hn. rewrite Hq. apply F2Q_le.
    apply (proj1 (rounds_to_grid (Zpos mz) k m2 n Hk Hr)).
    apply (F2Q_le_inv _ _ ez). rewrite F2Q_shift by exact Hk.
    replace (ez + k) with e1 by (unfold k; lia). rewrite Hval. exact Hn.
  - intros n Hn. rewrite Hq. apply F2Q_le.
    apply (proj2 (rounds_to_grid (Zpos mz) k m2 n Hk Hr)).
    apply (F2Q_le_inv _ _ ez). rewrite F2Q_shift by exact Hk.
    replace (ez + k) with e1 by (unfold k; lia). rewrite Hval. exact Hn.
Qed.

(** *** Integer parts *)

Lemma F2Q_0_exp : forall z, (F2Q z 0 == inject_Z z)%Q.
Proof. intros z. unfold F2Q. rewrite bpow_0. ring. Qed.

Lemma floor_below :
  forall r c,
    nonneg_valid r -> (SF2Q r < inject_Z c)%Q ->
    exists j, Math_floor r = num_of_Z j /\ 0 <= j < c.
Proof.
  intros [[|]| | |[|] m e] c Hv Hlt; cbn [nonneg_valid] in Hv; try contradiction.
  - exists 0. split; [reflexivity|]. cbn [SF2Q] in Hlt.
    rewrite <- (Zlt_Qlt 0) in Hlt. lia.
  - exists (Z.shiftl (Zpos m) e). split; [reflexivity|].
    split; [apply Z.shiftl_nonneg; lia|].
    cbn [SF2Q cond_Zopp] in Hlt.
    destruct (Z_le_gt_dec 0 e) as [He|He].
    + rewrite Z.shiftl_mul_pow2 by lia.
      pose proof (F2Q_shift (Zpos m) 0 e He) as Hs. cbn [Z.add] in Hs.
      rewrite <- Hs, F2Q_0_exp in Hlt. rewrite <- Zlt_Qlt in Hlt. exact Hlt.
    + replace e with (- (- e)) at 1 by lia.
      rewrite Z.shiftl_opp_r, Z.shiftr_div_pow2 by lia.
      pose proof (pow2_pos (- e) ltac:(lia)) as HP.
      apply Z.div_lt_upper_bound; [lia|].
      pose proof (F2Q_shift c e (- e) ltac:(lia)) as Hs.
      replace (e + - e) with 0 in Hs by lia.
      rewrite F2Q_0_exp in Hs. rewrite <- Hs in Hlt.
      apply F2Q_lt_inv in Hlt. lia.
Qed.

(** *** [Math.random() * 0.7 + 0.2] *)

Lemma F2Q_plus : forall x y e, (F2Q (x + y) e == F2Q x e + F2Q y e)%Q.
Proof. intros x y e. unfold F2Q. rewrite inject_Z_plus. ring. Qed.

Lemma F2Q_pos : forall m e, 0 < m -> (0 < F2Q m e)%Q.
Proof.
  intros m e H. unfold F2Q. pose proof (bpow_pos e).
  rewrite (Zlt_Qlt 0) in H. change (inject_Z 0) with 0%Q in H. nra.
Qed.

(** A valid number below a number of exponent -53 is at most the number
    just before it on that grid. *)
Lemma valid_grid :
  forall y n,
    nonneg_valid y -> 2 ^ 52 < n ->
    (SF2Q y < F2Q n (-53))%Q -> (SF2Q y <= F2Q (n - 1) (-53))%Q.
Proof.
  intros [[|]| | |[|] m e] n Hv Hn Hlt; cbn [nonneg_valid] in Hv; try contradiction.
  - cbn [SF2Q]. apply Qlt_le_weak. apply F2Q_pos.
    change (2 ^ 52) with 4503599627370496 in Hn. lia.
  - cbn [SF2Q cond_Zopp] in *. apply bounded_iff in Hv. destruct Hv as [Hc _].
    destruct (Z_le_gt_dec (-53) e) as [He|He].
    + pose proof (F2Q_shift (Zpos m) (-53) (e + 53) ltac:(lia)) as Hs.
      replace (-53 + (e + 53)) with e in Hs by lia.
      rewrite <- Hs in *. apply F2Q_le. apply F2Q_lt_inv in Hlt. lia.
    + pose proof (digits_bounds m) as Hd.
      assert (Hd53 : Zpos (digits2_pos m) <= 53) by lia.
      assert (Hm : Zpos m < 2 ^ 53).
      { eapply Z.lt_le_trans; [apply Hd|]. apply pow2_le. lia. }
      pose proof (F2Q_lt _ _ e Hm) as H1.
      rewrite (F2Q_pow 53 e) in H1 by lia.
      pose proof (bpow_le (53 + e) (-1) ltac:(lia)) as H2.
      assert (H3 : (F2Q (2 ^ 52) (-53) <= F2Q (n - 1) (-53))%Q)
        by (apply F2Q_le; lia).
      rewrite (F2Q_pow 52 (-53)) in H3 by lia.
      change (52 + -53) with (-1) in H3. lra.
Qed.

Lemma lit_0_7 : decimal false 7 (-1) = S754_finite false 6305039478318694 (-53).
Proof. vm_compute. reflexivity. Qed.

Lemma lit_0_2 : decimal false 2 (-1) = S754_finite false 7205759403792794 (-55).
Proof. vm_compute. reflexivity. Qed.

Lemma sum_below_0_9 :
  (F2Q (6305039478318694 - 1) (-53) + F2Q 7205759403792794 (-55) + bpow (-54)
   < 9 # 10)%Q.
Proof. apply Qlt_alt. vm_compute. reflexivity. Qed.

Lemma lit_0_2_above : (2 # 10 <= F2Q 7205759403792794 (-55))%Q.
Proof. apply Qle_bool_iff. vm_compute. reflexivity. Qed.

Lemma lit_0_2_below : (F2Q 7205759403792794 (-55) < 9 # 10)%Q.
Proof. apply Qlt_alt. vm_compute. reflexivity. Qed.

Lemma quarter_above : (2 # 10 <= bpow (-2))%Q.
Proof. apply Qle_bool_iff. vm_compute. reflexivity. Qed.

Lemma eighth_below : (bpow (-3) <= F2Q 7205759403792794 (-55))%Q.
Proof. apply Qle_bool_iff. vm_compute. reflexivity. Qed.

Lemma sum_below_1 :
  (F2Q (6305039478318694 - 1) (-53) + F2Q 7205759403792794 (-55) < bpow 0)%Q.
Proof. apply Qlt_alt. vm_compute. reflexivity. Qed.

Lemma add_0_2 :
  forall y,
    nonneg_valid y ->
    (SF2Q y < F2Q 6305039478318694 (-53))%Q ->
    nonneg_valid (num_add y (S754_finite false 7205759403792794 (-55))) /\
    (2 # 10 <= SF2Q (num_add y (S754_finite false 7205759403792794 (-55))))%Q /\
    (SF2Q (num_add y (S754_finite false 7205759403792794 (-55))) < 9 # 10)%Q.
Proof.
  intros y Hv Hlt.
  pose proof (valid_grid y 6305039478318694 Hv
                ltac:(change (2 ^ 52) with 4503599627370496; lia) Hlt) as Hgrid.
  destruct y as [[|]| | |[|] my ey]; cbn [nonneg_valid] in Hv; try contradiction.
  - cbn. split; [reflexivity|]. split; [apply lit_0_2_above | apply lit_0_2_below].
  - unfold num_add, SFadd. cbn [cond_Zopp].
    set (ez := Z.min ey (-55)).
    destruct (shl_align_spec my ey ez) as [_ Ha].
    destruct (shl_align_spec 7205759403792794 (-55) ez) as [_ Hb].
    replace (Z.min ey ez) with ez in Ha by (unfold ez; lia).
    replace (Z.min (-55) ez) with ez in Hb by (unfold ez; lia).
    set (a := fst (shl_align my ey ez)) in *.
    set (b := fst (shl_align 7205759403792794 (-55) ez)) in *.
    change (Zpos a + Zpos b) with (Zpos (a + b)).
    cbn [binary_normalize].
    cbn [SF2Q cond_Zopp] in Hlt, Hgrid.
    (* the exact sum *)
    assert (HS : (F2Q (Zpos (a + b)) ez
                  == F2Q (Zpos my) ey + F2Q 7205759403792794 (-55))%Q).
    { rewrite Pos2Z.inj_add, F2Q_plus, Ha, Hb.
      rewrite !F2Q_shift by (unfold ez; lia).
      replace (ez + (ey - ez)) with ey by lia.
      replace (ez + (-55 - ez)) with (-55) by lia. reflexivity. }
    pose proof (F2Q_pos (Zpos my) ey ltac:(lia)) as Hypos.
    pose proof sum_below_1 as H1. pose proof eighth_below as H8.
    pose proof (digits_bounds (a + b)) as Hd.
    set (D := Zpos (digits2_pos (a + b))) in *.
    assert (HD1 : 1 <= D) by (unfold D; lia).
    assert (Hlo : (bpow (D - 1 + ez) <= F2Q (Zpos (a + b)) ez)%Q).
    { rewrite <- (F2Q_pow (D - 1) ez) by lia. apply F2Q_le. apply Hd. }
    assert (Hhi : (F2Q (Zpos (a + b)) ez < bpow (D + ez))%Q).
    { rewrite <- (F2Q_pow D ez) by lia. apply F2Q_lt. apply Hd. }
    assert (HDhi : D - 1 + ez < 0) by (apply bpow_lt_inv; lra).
    assert (HDlo : -3 < D + ez) by (apply bpow_lt_inv; lra).
    pose proof (binary_round_spec (a + b) ez) as Hspec. cbv zeta in Hspec.
    rewrite fexp_64 in Hspec. fold D in Hspec.
    replace (Z.max (D + ez - 53) (-1074)) with (D + ez - 53) in Hspec by lia.
    destruct (Hspec ltac:(lia)) as (Hvalid & [_ Hup] & Hgl & _).
    split; [exact Hvalid|]. split.
    + destruct (Z.eq_dec (D + ez) (-2)) as [H55|H55].
      * pose proof (Hgl 7205759403792794) as Hg.
        replace (D + ez - 53) with (-55) in Hg by lia.
        pose proof lit_0_2_above. lra.
      * pose proof (Hgl (2 ^ 52)) as Hg.
        rewrite (F2Q_pow 52 (D + ez - 53)) in Hg by lia.
        replace (52 + (D + ez - 53)) with (D - 1 + ez) in Hg by lia.
        specialize (Hg Hlo).
        pose proof (bpow_le (-2) (D - 1 + ez) ltac:(lia)).
        pose proof quarter_above. lra.
    + pose proof (bpow_le (D + ez - 53 - 1) (-54) ltac:(lia)) as Hulp.
      pose proof sum_below_0_9. lra.
Qed.

(** *** [Math.floor(Math.random() * n)] *)

Lemma unit_floor :
  forall x c mc ec,
    unit_interval x ->
    num_of_Z c = S754_finite false mc ec ->
    2 ^ 52 <= Zpos mc < 2 ^ 53 -> -53 <= ec <= 0 -> 2 ^ (- ec) < 2 * Zpos mc ->
    (F2Q (Zpos mc) ec == inject_Z c)%Q ->
    exists j, Math_floor (num_mul x (num_of_Z c)) = num_of_Z j /\ 0 <= j < c.
Proof.
  intros x c mc ec Hx Hc Hmc Hec Hhalf Hval. rewrite Hc.
  destruct (mul_unit_lt x mc ec Hx Hmc Hec Hhalf) as [Hv Hlt].
  apply floor_below; [exact Hv|]. rewrite <- Hval. exact Hlt.
Qed.

Ltac zcmp :=
  repeat split;
  first [ apply Z.leb_le; vm_compute; reflexivity
        | apply Z.ltb_lt; vm_compute; reflexivity ].

Lemma unit_floor_3 :
  forall x, unit_interval x ->
    exists j, Math_floor (num_mul x (num_of_Z 3)) = num_of_Z j /\ 0 <= j < 3.
Proof.
  intros x Hx. apply (unit_floor x 3 6755399441055744 (-51)); try zcmp; auto.
Qed.

Lemma unit_floor_8 :
  forall x, unit_interval x ->
    exists j, Math_floor (num_mul x (num_of_Z 8)) = num_of_Z j /\ 0 <= j < 8.
Proof.
  intros x Hx. apply (unit_floor x 8 4503599627370496 (-49)); try zcmp; auto.
Qed.

Lemma unit_times_0_7 :
  forall x, unit_interval x ->
    nonneg_valid (num_mul x (decimal false 7 (-1))) /\
    (SF2Q (num_mul x (decimal false 7 (-1))) < F2Q 6305039478318694 (-53))%Q.
Proof.
  intros x Hx. rewrite lit_0_7.
  apply (mul_unit_lt x 6305039478318694 (-53) Hx); zcmp.
Qed.

(** [Math.random() * 0.7 + 0.2] lies in [0.2, 0.9). *)
Lemma unit_probability :
  forall x, unit_interval x ->
    let p := num_add (num_mul x (decimal false 7 (-1))) (decimal false 2 (-1)) in
    is_finite p = true /\ (2 # 10 <= SF2Q p)%Q /\ (SF2Q p < 9 # 10)%Q.
Proof.
  intros x Hx p. unfold p. rewrite lit_0_2.
  destruct (unit_times_0_7 x Hx) as [Hv Hlt].
  destruct (add_0_2 _ Hv Hlt) as (Hvp & Hlo & Hhi).
  split; [|split; assumption].
  destruct (num_add _ _) as [[|]| | |[|] m e]; cbn [nonneg_valid] in Hvp;
    try contradiction; reflexivity.
Qed.

(** [Math.floor(Math.random() * 3) + 2] is 2, 3 or 4. *)
Lemma unit_count :
  forall x, unit_interval x ->
    exists n,
      num_add (Math_floor (num_mul x (num_of_Z 3))) (num_of_Z 2) = num_of_Z n /\
      2 <= n <= 4.
Proof.
  intros x Hx. destruct (unit_floor_3 x Hx) as (j & -> & Hj).
  exists (j + 2). split; [|lia].
  assert (Hc : j = 0 \/ j = 1 \/ j = 2) by lia.
  destruct Hc as [->|[->| ->]]; vm_compute; reflexivity.
Qed.

(** [Math.floor(Math.random() * 8) + 3] is an integer from 3 to 10. *)
Lemma unit_impact :
  forall x, unit_interval x ->
    exists n,
      num_add (Math_floor (num_mul x (num_of_Z 8))) (num_of_Z 3) = num_of_Z n /\
      3 <= n <= 10.
Proof.
  intros x Hx. destruct (unit_floor_8 x Hx) as (j & -> & Hj).
  exists (j + 3). split; [|lia].
  assert (Hc : j = 0 \/ j = 1 \/ j = 2 \/ j = 3 \/ j = 4 \/ j = 5 \/ j = 6 \/ j = 7)
    by lia.
  destruct Hc as [->|[->|[->|[->|[->|[->|[->| ->]]]]]]]; vm_compute; reflexivity.
Qed.

(** ** The shape of a generated reality *)

Lemma small_counter :
  forall a, 0 <= a <= 3 -> num_add (num_of_Z a) (num_of_Z 1) = num_of_Z (a + 1).
Proof.
  intros a Ha.
  assert (Hc : a = 0 \/ a = 1 \/ a = 2 \/ a = 3) by lia.
  destruct Hc as [->|[->|[->| ->]]]; vm_compute; reflexivity.
Qed.

Lemma small_test :
  forall a b, 0 <= a <= 4 -> 0 <= b <= 4 ->
    num_ltb (num_of_Z a) (num_of_Z b) = (a <? b).
Proof.
  intros a b Ha Hb.
  assert (Hca : a = 0 \/ a = 1 \/ a = 2 \/ a = 3 \/ a = 4) by lia.
  assert (Hcb : b = 0 \/ b = 1 \/ b = 2 \/ b = 3 \/ b = 4) by lia.
  destruct Hca as [->|[->|[->|[->| ->]]]];
    destruct Hcb as [->|[->|[->|[->| ->]]]]; vm_compute; reflexivity.
Qed.

Lemma small_fuel :
  forall n, 0 <= n <= 4 -> loop_fuel (num_of_Z n) = (Z.to_nat n + 2)%nat.
Proof.
  intros n Hn.
  assert (Hc : n = 0 \/ n = 1 \/ n = 2 \/ n = 3 \/ n = 4) by lia.
  destruct Hc as [->|[->|[->|[->| ->]]]]; vm_compute; reflexivity.
Qed.

Section GeneratorShape.
Context {P : Platform}.

Lemma pick_ok :
  forall arr w, exists v, pick arr w = (Ok v, used_random w).
Proof. intros arr w. eexists. reflexivity. Qed.

(** An element of an array of strings, or [undefined] past its end,
    has a text. *)
Lemma array_get_text :
  forall arr i, exists t, ToString (array_get arr i) = Ok t.
Proof.
  intros arr i. unfold array_get.
  destruct (array_index i) as [n|]; [|eexists; reflexivity].
  destruct (nth_error arr n); eexists; reflexivity.
Qed.

(** One pass of the loop of [generateOutcomes] adds one outcome. *)
Lemma outcomes_loop_pass :
  forall fuel i n acc w,
    num_ltb i n = true ->
    exists o w1,
      outcomes_loop (S fuel) i n acc w
      = outcomes_loop fuel (num_add i (num_of_Z 1)) n (acc ++ [o]) w1 /\
      entropy_step w w1.
Proof.
  intros fuel i n acc w Hlt. cbn [outcomes_loop]. rewrite Hlt.
  unfold pick. unfold bind, Math_random, uuidv4, ret, lift. cbn [fst snd].
  repeat match goal with
         | |- context [ToString (array_get ?a ?j)] =>
             let t := fresh "t" in
             let Ht := fresh "Ht" in
             destruct (array_get_text a j) as [t Ht]; rewrite Ht
         end.
  eexists _, _. split; [reflexivity|].
  unfold entropy_step. cbn. repeat split; auto; lia.
Qed.

Lemma outcomes_loop_exit :
  forall fuel i n acc w,
    num_ltb i n = false -> outcomes_loop (S fuel) i n acc w = (Ok acc, w).
Proof. intros fuel i n acc w H. cbn [outcomes_loop]. rewrite H. reflexivity. Qed.

(** From counter [a] to bound [b] the loop runs [b - a] times. *)
Lemma outcomes_loop_runs :
  forall (todo : nat) a b fuel acc w,
    0 <= a -> b <= 4 -> b = a + Z.of_nat todo -> (todo < fuel)%nat ->
    exists outs w1,
      outcomes_loop fuel (num_of_Z a) (num_of_Z b) acc w = (Ok outs, w1) /\
      List.length outs = (List.length acc + todo)%nat /\
      entropy_step w w1.
Proof.
  induction todo as [|todo IH]; intros a b fuel acc w Ha Hb Hab Hfuel;
    (destruct fuel as [|fuel]; [lia|]).
  - exists acc, w. split; [|split].
    + apply outcomes_loop_exit. rewrite small_test by lia.
      apply Z.ltb_ge. lia.
    + lia.
    + apply entropy_step_refl.
  - destruct (outcomes_loop_pass fuel (num_of_Z a) (num_of_Z b) acc w)
      as (o & w1 & Hpass & Hstep).
    { rewrite small_test by lia. apply Z.ltb_lt. lia. }
    rewrite small_counter in Hpass by lia.
    destruct (IH (a + 1) b fuel (acc ++ [o]) w1) as (outs & w2 & Hrun & Hlen & Hstep2);
      try lia.
    exists outs, w2. split; [|split].
    + rewrite Hpass. exact Hrun.
    + rewrite Hlen, length_app. cbn [List.length]. lia.
    + eapply entropy_step_trans; eassumption.
Qed.

Lemma generateOutcomes_ok :
  forall ev w,
    unit_interval (rand_src w (rand_pos w)) ->
    exists outs w1,
      generateOutcomes ev w = (Ok outs, w1) /\
      (2 <= List.length outs <= 4)%nat /\
      entropy_step w w1.
Proof.
  intros ev w Hx. unfold generateOutcomes.
  rewrite (bind_ok _ _ Math_random _ w _ (used_random w) eq_refl).
  destruct (unit_count _ Hx) as (n & -> & Hn).
  rewrite small_fuel by lia.
  destruct (outcomes_loop_runs (Z.to_nat n) 0 n (Z.to_nat n + 2) [] (used_random w))
    as (outs & w1 & Hrun & Hlen & Hstep); try lia.
  exists outs, w1. split; [exact Hrun|]. split.
  - rewrite Hlen. cbn [List.length]. lia.
  - eapply entropy_step_trans; [apply pure_random | exact Hstep].
Qed.

Lemma generateDescription_ok :
  forall s w, exists v, generateDescription (VStr s) w = (Ok v, used_random w).
Proof.
  intros s w. unfold generateDescription, bind, lift, str_method, pick.
  cbv zeta. unfold bind, Math_random, ret. eexists. reflexivity.
Qed.

(** C2: for every non-empty string and every random source within its
    contract, [generateReality] returns a reality with two to four
    outcomes, a probability in [0.2, 0.9) and an integral impact from 3
    to 10. *)
Theorem generateReality_shape :
  forall event w,
    event <> [] ->
    (forall n, unit_interval (rand_src w n)) ->
    exists r w',
      generateReality (VStr event) w = (Ok r, w') /\
      (2 <= List.length (outcomes r) <= 4)%nat /\
      is_finite (probability r) = true /\
      (2 # 10 <= SF2Q (probability r))%Q /\
      (SF2Q (probability r) < 9 # 10)%Q /\
      exists k, impact r = num_of_Z k /\ 3 <= k <= 10.
Proof.
  intros event w _ Hrand.
  destruct (generateOutcomes_ok (VStr event) w (Hrand _))
    as (outs & w1 & Hout & Hlen & Hstep1).
  destruct (generateDescription_ok event w1) as (desc & Hdesc).
  assert (Hsrc : rand_src w1 = rand_src w) by apply Hstep1.
  set (w2 := used_random w1) in *.
  set (p := rand_src w2 (rand_pos w2)).
  set (w3 := used_random w2).
  set (im := rand_src w3 (rand_pos w3)).
  assert (Hp : unit_interval p) by (unfold p, w2; cbn; rewrite Hsrc; apply Hrand).
  assert (Him : unit_interval im)
    by (unfold im, w3, w2; cbn; rewrite Hsrc; apply Hrand).
  destruct (unit_probability p Hp) as (Hfin & Hlo & Hhi).
  destruct (unit_impact im Him) as (k & Hk & Hk3).
  eexists _, (used_random w3). split.
  - unfold generateReality, try_catch, generateReality_body.
    rewrite (bind_ok _ _ _ _ _ _ _ Hout).
    rewrite (bind_ok _ _ _ _ _ _ _ Hdesc).
    fold w2.
    rewrite (bind_ok _ _ (lift (extractTitle (VStr event))) _ w2
               (extractTitle_str event) w2 eq_refl).
    rewrite (bind_ok _ _ Math_random _ w2 p w3 eq_refl).
    rewrite (bind_ok _ _ Math_random _ w3 im (used_random w3) eq_refl).
    unfold ret. reflexivity.
  - cbn [outcomes probability impact].
    split; [exact Hlen|]. split; [exact Hfin|]. split; [exact Hlo|].
    split; [exact Hhi|]. exists k. split; [exact Hk | exact Hk3].
Qed.

End GeneratorShape.

(** ** Arithmetic of the outcomes *)

(** A value below [n * 2^-53] plus a small normal constant: the sum is
    valid, not below the constant and at most half a unit of the last
    place above the exact bound. *)
Lemma add_constant :
  forall y n mc ec,
    nonneg_valid y -> 2 ^ 52 < n ->
    (SF2Q y < F2Q n (-53))%Q ->
    bounded prec emax mc ec = true ->
    2 ^ 52 <= Zpos mc < 2 ^ 53 -> -1074 <= ec <= -54 ->
    (F2Q (n - 1) (-53) + F2Q (Zpos mc) ec < bpow 0)%Q ->
    nonneg_valid (num_add y (S754_finite false mc ec)) /\
    (F2Q (Zpos mc) ec <= SF2Q (num_add y (S754_finite false mc ec)))%Q /\
    (SF2Q (num_add y (S754_finite false mc ec))
     <= F2Q (n - 1) (-53) + F2Q (Zpos mc) ec + bpow (-54))%Q.
Proof.
  intros y n mc ec Hv Hn Hlt Hb Hmc Hec H1.
  pose proof (valid_grid y n Hv Hn Hlt) as Hgrid.
  pose proof (bpow_pos (-54)) as Hp54.
  assert (Hn0 : (0 <= F2Q (n - 1) (-53))%Q).
  { apply Qlt_le_weak. apply F2Q_pos.
    change (2 ^ 52) with 4503599627370496 in Hn. lia. }
  destruct y as [[|]| | |[|] my ey]; cbn [nonneg_valid] in Hv; try contradiction.
  - cbn [num_add SFadd nonneg_valid SF2Q cond_Zopp].
    unfold num_add, SFadd. cbn [nonneg_valid SF2Q cond_Zopp].
    split; [exact Hb|]. split; lra.
  - unfold num_add, SFadd. cbn [cond_Zopp].
    set (ez := Z.min ey ec).
    destruct (shl_align_spec my ey ez) as [_ Ha].
    destruct (shl_align_spec mc ec ez) as [_ Hbb].
    replace (Z.min ey ez) with ez in Ha by (unfold ez; lia).
    replace (Z.min ec ez) with ez in Hbb by (unfold ez; lia).
    set (a := fst (shl_align my ey ez)) in *.
    set (b := fst (shl_align mc ec ez)) in *.
    change (Zpos a + Zpos b) with (Zpos (a + b)).
    cbn [binary_normalize].
    cbn [SF2Q cond_Zopp] in Hlt, Hgrid.
    assert (HS : (F2Q (Zpos (a + b)) ez
                  == F2Q (Zpos my) ey + F2Q (Zpos mc) ec)%Q).
    { rewrite Pos2Z.inj_add, F2Q_plus, Ha, Hbb.
      rewrite !F2Q_shift by (unfold ez; lia).
      replace (ez + (ey - ez)) with ey by lia.
      replace (ez + (ec - ez)) with ec by lia. reflexivity. }
    pose proof (F2Q_pos (Zpos my) ey ltac:(lia)) as Hypos.
    assert (Hclo : (bpow (52 + ec) <= F2Q (Zpos mc) ec)%Q).
    { rewrite <- (F2Q_pow 52 ec) by lia. apply F2Q_le. lia. }
    assert (Hchi : (F2Q (Zpos mc) ec < bpow (53 + ec))%Q).
    { rewrite <- (F2Q_pow 53 ec) by lia. apply F2Q_lt. lia. }
    pose proof (digits_bounds (a + b)) as Hd.
    set (D := Zpos (digits2_pos (a + b))) in *.
    assert (HD1 : 1 <= D) by (unfold D; lia).
    assert (Hlo : (bpow (D - 1 + ez) <= F2Q (Zpos (a + b)) ez)%Q).
    { rewrite <- (F2Q_pow (D - 1) ez) by lia. apply F2Q_le. apply Hd. }
    assert (Hhi : (F2Q (Zpos (a + b)) ez < bpow (D + ez))%Q).
    { rewrite <- (F2Q_pow D ez) by lia. apply F2Q_lt. apply Hd. }
    assert (HDhi : D - 1 + ez < 0) by (apply bpow_lt_inv; lra).
    assert (HDlo : 52 + ec < D + ez) by (apply bpow_lt_inv; lra).
    pose proof (binary_round_spec (a + b) ez) as Hspec. cbv zeta in Hspec.
    rewrite fexp_64 in Hspec. fold D in Hspec.
    replace (Z.max (D + ez - 53) (-1074)) with (D + ez - 53) in Hspec by lia.
    destruct (Hspec ltac:(lia)) as (Hvalid & [_ Hup] & Hgl & _).
    split; [exact Hvalid|]. split.
    + destruct (Z.eq_dec (D + ez - 53) ec) as [He|He].
      * pose proof (Hgl (Zpos mc)) as Hg. rewrite He in Hg. lra.
      * pose proof (Hgl (2 ^ 52)) as Hg.
        rewrite (F2Q_pow 52 (D + ez - 53)) in Hg by lia.
        replace (52 + (D + ez - 53)) with (D - 1 + ez) in Hg by lia.
        specialize (Hg Hlo).
        pose proof (bpow_le (53 + ec) (D - 1 + ez) ltac:(lia)). lra.
    + pose proof (bpow_le (D + ez - 53 - 1) (-54) ltac:(lia)) as Hulp. lra.
Qed.

Lemma lit_0_8 : decimal false 8 (-1) = S754_finite false 7205759403792794 (-53).
Proof. vm_compute. reflexivity. Qed.

Lemma lit_0_1 : decimal false 1 (-1) = S754_finite false 7205759403792794 (-56).
Proof. vm_compute. reflexivity. Qed.

Lemma lit_0_1_above : (1 # 10 <= F2Q 7205759403792794 (-56))%Q.
Proof. apply Qle_bool_iff. vm_compute. reflexivity. Qed.

Lemma outcome_sum_below_0_9 :
  (F2Q (7205759403792794 - 1) (-53) + F2Q 7205759403792794 (-56) + bpow (-54)
   < 9 # 10)%Q.
Proof. apply Qlt_alt. vm_compute. reflexivity. Qed.

Lemma outcome_sum_below_1 :
  (F2Q (7205759403792794 - 1) (-53) + F2Q 7205759403792794 (-56) < bpow 0)%Q.
Proof. apply Qlt_alt. vm_compute. reflexivity. Qed.

(** [Math.random() * 0.8 + 0.1] lies in [0.1, 0.9). *)
Lemma unit_outcome_probability :
  forall x, unit_interval x ->
    let p := num_add (num_mul x (decimal false 8 (-1))) (decimal false 1 (-1)) in
    is_finite p = true /\ (1 # 10 <= SF2Q p)%Q /\ (SF2Q p < 9 # 10)%Q.
Proof.
  intros x Hx p. unfold p. rewrite lit_0_8, lit_0_1.
  destruct (mul_unit_lt x 7205759403792794 (-53) Hx) as [Hv Hlt]; try zcmp.
  destruct (add_constant _ 7205759403792794 7205759403792794 (-56) Hv)
    as (Hvp & Hlo & Hhi).
  - zcmp.
  - exact Hlt.
  - vm_compute. reflexivity.
  - zcmp.
  - lia.
  - apply outcome_sum_below_1.
  - pose proof lit_0_1_above. pose proof outcome_sum_below_0_9.
    split; [|split; lra].
    destruct (num_add _ _) as [[|]| | |[|] m e]; cbn [nonneg_valid] in Hvp;
      try contradiction; reflexivity.
Qed.

Lemma unit_floor_4 :
  forall x, unit_interval x ->
    exists j, Math_floor (num_mul x (num_of_Z 4)) = num_of_Z j /\ 0 <= j < 4.
Proof.
  intros x Hx. apply (unit_floor x 4 4503599627370496 (-50)); try zcmp; auto.
Qed.

Lemma unit_floor_10 :
  forall x, unit_interval x ->
    exists j, Math_floor (num_mul x (num_of_Z 10)) = num_of_Z j /\ 0 <= j < 10.
Proof.
  intros x Hx. apply (unit_floor x 10 5629499534213120 (-49)); try zcmp; auto.
Qed.

(** [Math.floor(Math.random() * 10) + 1] is an integer from 1 to 10. *)
Lemma unit_outcome_impact :
  forall x, unit_interval x ->
    exists n,
      num_add (Math_floor (num_mul x (num_of_Z 10))) (num_of_Z 1) = num_of_Z n /\
      1 <= n <= 10.
Proof.
  intros x Hx. destruct (unit_floor_10 x Hx) as (j & -> & Hj).
  exists (j + 1). split; [|lia].
  assert (Hc : j = 0 \/ j = 1 \/ j = 2 \/ j = 3 \/ j = 4 \/
               j = 5 \/ j = 6 \/ j = 7 \/ j = 8 \/ j = 9) by lia.
  destruct Hc as [->|[->|[->|[->|[->|[->|[->|[->|[->| ->]]]]]]]]];
    vm_compute; reflexivity.
Qed.

(** An index below the length of an array is one of its positions. *)
Lemma small_index :
  forall j, 0 <= j < 10 -> array_index (num_of_Z j) = Some (Z.to_nat j).
Proof.
  intros j Hj.
  assert (Hc : j = 0 \/ j = 1 \/ j = 2 \/ j = 3 \/ j = 4 \/
               j = 5 \/ j = 6 \/ j = 7 \/ j = 8 \/ j = 9) by lia.
  destruct Hc as [->|[->|[->|[->|[->|[->|[->|[->|[->| ->]]]]]]]]];
    vm_compute; reflexivity.
Qed.

(** ** The outcomes one by one *)

Lemma array_get_in :
  forall (arr : list jsstring) j,
    0 <= j < Z.of_nat (List.length arr) -> j < 10 ->
    exists s, array_get arr (num_of_Z j) = VStr s /\ In s arr.
Proof.
  intros arr j Hj H10. unfold array_get. rewrite small_index by lia.
  destruct (nth_error arr (Z.to_nat j)) as [s|] eqn:E.
  - exists s. split; [reflexivity|]. eapply nth_error_In; eassumption.
  - apply nth_error_None in E. lia.
Qed.

Section GeneratorDetails.
Context {P : Platform}.

(** [arr[Math.floor(Math.random() * arr.length)]] is an entry of a pool
    of up to ten entries, never [undefined]. *)
Lemma pick_in :
  forall arr c w,
    unit_interval (rand_src w (rand_pos w)) ->
    Z.of_nat (List.length arr) = c -> c <= 10 ->
    (forall x, unit_interval x ->
       exists j, Math_floor (num_mul x (num_of_Z c)) = num_of_Z j /\ 0 <= j < c) ->
    exists s, pick arr w = (Ok (VStr s), used_random w) /\ In s arr.
Proof.
  intros arr c w Hx Hlen Hc Hfloor.
  destruct (Hfloor _ Hx) as (j & Hj & Hjc).
  destruct (array_get_in arr j) as (s & Hs & Hin); try lia.
  exists s. split; [|exact Hin].
  unfold pick, bind, Math_random, ret, array_length. rewrite Hlen, Hj, Hs.
  reflexivity.
Qed.

(** One pass of the loop of [generateOutcomes], with the outcome that it
    adds. *)
Lemma outcomes_loop_pass_ok :
  forall fuel i n acc w,
    num_ltb i n = true ->
    (forall k, unit_interval (rand_src w k)) ->
    exists o w1,
      outcomes_loop (S fuel) i n acc w
      = outcomes_loop fuel (num_add i (num_of_Z 1)) n (acc ++ [o]) w1 /\
      outcome_ok o /\
      o_title o = js "Path " ++ number_to_string (num_add i (num_of_Z 1)) /\
      o_id o = uuid_src w (uuid_pos w) /\
      rand_pos w1 = (rand_pos w + 4)%nat /\ uuid_pos w1 = S (uuid_pos w) /\
      rand_src w1 = rand_src w /\ uuid_src w1 = uuid_src w /\
      db w1 = db w /\ clock w1 = clock w.
Proof.
  intros fuel i n acc w Hlt Hrand. cbn [outcomes_loop]. rewrite Hlt.
  destruct (pick_in fallbackOutcomes 10 w (Hrand _) eq_refl ltac:(lia) unit_floor_10)
    as (out & Hout & Hin1).
  rewrite (bind_ok _ _ _ _ _ _ _ Hout).
  destruct (pick_in fallbackConsequences 8 (used_random w) (Hrand _) eq_refl
              ltac:(lia) unit_floor_8) as (cons & Hcons & Hin2).
  rewrite (bind_ok _ _ _ _ _ _ _ Hcons).
  unfold bind, Math_random, uuidv4, ret, lift. cbn [fst snd ToString].
  eexists _, _. split; [reflexivity|].
  cbn [o_title o_id rand_pos uuid_pos rand_src uuid_src db clock used_random
       used_uuid].
  split; [|repeat split; auto; lia].
  constructor; cbn [o_description o_consequences o_probability o_impact].
  - exists out, cons. repeat split; assumption.
  - apply unit_outcome_probability. apply Hrand.
  - apply unit_outcome_impact. apply Hrand.
Qed.

(** From counter [a] to bound [b] the loop adds [b - a] outcomes, each
    well formed, numbered from [a + 1] and identified by the next values
    of [uuidv4]. *)
Lemma outcomes_loop_ok :
  forall (todo : nat) a b fuel acc w,
    0 <= a -> b <= 4 -> b = a + Z.of_nat todo -> (todo < fuel)%nat ->
    (forall k, unit_interval (rand_src w k)) ->
    exists news w1,
      outcomes_loop fuel (num_of_Z a) (num_of_Z b) acc w = (Ok (acc ++ news), w1) /\
      List.length news = todo /\
      Forall outcome_ok news /\
      (forall k o, nth_error news k = Some o ->
         o_title o = js "Path " ++ number_to_string (num_of_Z (a + Z.of_nat k + 1)) /\
         o_id o = uuid_src w (uuid_pos w + k)) /\
      rand_pos w1 = (rand_pos w + 4 * todo)%nat /\
      uuid_pos w1 = (uuid_pos w + todo)%nat /\
      rand_src w1 = rand_src w /\ uuid_src w1 = uuid_src w /\
      db w1 = db w /\ clock w1 = clock w.
Proof.
  induction todo as [|todo IH]; intros a b fuel acc w Ha Hb Hab Hfuel Hrand;
    (destruct fuel as [|fuel]; [lia|]).
  - exists [], w. rewrite app_nil_r. split.
    { apply outcomes_loop_exit. rewrite small_test by lia. apply Z.ltb_ge. lia. }
    split; [reflexivity|]. split; [constructor|]. split.
    { intros k o Hk. destruct k; discriminate. }
    repeat split; auto; lia.
  - destruct (outcomes_loop_pass_ok fuel (num_of_Z a) (num_of_Z b) acc w)
      as (o & w1 & Hpass & Hok & Htitle & Hid & Hr & Hu & Hrs & Hus & Hdb & Hck).
    { rewrite small_test by lia. apply Z.ltb_lt. lia. }
    { exact Hrand. }
    rewrite small_counter in Hpass, Htitle by lia.
    destruct (IH (a + 1) b fuel (acc ++ [o]) w1)
      as (news & w2 & Hrun & Hlen & Hall & Hlab & Hr2 & Hu2 & Hrs2 & Hus2 & Hdb2 & Hck2);
      try lia.
    { intros k. rewrite Hrs. apply Hrand. }
    exists (o :: news), w2. split.
    { rewrite Hpass, Hrun, <- app_assoc. reflexivity. }
    split; [cbn [List.length]; lia|]. split; [constructor; assumption|]. split.
    { intros [|k] o' Hk; cbn [nth_error] in Hk.
      - injection Hk as <-. rewrite Htitle, Hid.
        replace (a + Z.of_nat 0 + 1) with (a + 1) by lia.
        rewrite Nat.add_0_r. split; reflexivity.
      - destruct (Hlab k o' Hk) as [Ht Hi]. rewrite Ht, Hi, Hus, Hu.
        replace (a + 1 + Z.of_nat k + 1) with (a + Z.of_nat (S k) + 1) by lia.
        replace (S (uuid_pos w) + k)%nat with (uuid_pos w + S k)%nat by lia.
        split; reflexivity. }
    repeat split; try congruence; lia.
Qed.

(** [generateOutcomes], with everything the loop establishes. *)
Lemma generateOutcomes_run :
  forall ev w,
    (forall k, unit_interval (rand_src w k)) ->
    exists outs w1,
      generateOutcomes ev w = (Ok outs, w1) /\
      (2 <= List.length outs <= 4)%nat /\
      Forall outcome_ok outs /\
      (forall k o, nth_error outs k = Some o ->
         o_title o = js "Path " ++ number_to_string (num_of_Z (Z.of_nat k + 1)) /\
         o_id o = uuid_src w (uuid_pos w + k)) /\
      rand_pos w1 = (rand_pos w + 1 + 4 * List.length outs)%nat /\
      uuid_pos w1 = (uuid_pos w + List.length outs)%nat /\
      entropy_step w w1.
Proof.
  intros ev w Hrand. unfold generateOutcomes.
  rewrite (bind_ok _ _ Math_random _ w _ (used_random w) eq_refl).
  destruct (unit_count _ (Hrand (rand_pos w))) as (n & -> & Hn).
  rewrite small_fuel by lia.
  destruct (outcomes_loop_ok (Z.to_nat n) 0 n (Z.to_nat n + 2) [] (used_random w))
    as (outs & w1 & Hrun & Hlen & Hall & Hlab & Hr & Hu & Hrs & Hus & Hdb & Hck);
    try lia.
  { intros k. apply Hrand. }
  exists outs, w1. cbn [app] in Hrun. split; [exact Hrun|].
  split; [lia|]. split; [exact Hall|]. split.
  { intros k o Hk. destruct (Hlab k o Hk) as [Ht Hi]. rewrite Ht, Hi.
    split; reflexivity. }
  cbn [rand_pos uuid_pos used_random] in Hr, Hu.
  split; [lia|]. split; [lia|].
  unfold entropy_step. cbn [rand_pos uuid_pos used_random rand_src uuid_src db clock]
    in *. repeat split; auto; lia.
Qed.

(** X1: with every random value in [0, 1), [generateOutcomes] returns two
    to four outcomes, and each of them is built from an entry of
    [fallbackOutcomes] and one of [fallbackConsequences] (no index falls
    outside a pool), has a probability in [0.1, 0.9) and an integral
    impact from 1 to 10. *)
Theorem generateOutcomes_well_formed :
  forall ev w,
    (forall k, unit_interval (rand_src w k)) ->
    exists outs w1,
      generateOutcomes ev w = (Ok outs, w1) /\
      (2 <= List.length outs <= 4)%nat /\
      Forall outcome_ok outs.
Proof.
  intros ev w Hrand.
  destruct (generateOutcomes_run ev w Hrand) as (outs & w1 & Hrun & Hlen & Hall & _).
  exists outs, w1. auto.
Qed.

(** X2: the outcomes are titled [Path 1], [Path 2], ... in order, the
    k-th one carries the k-th identifier that [uuidv4] returned, and the
    call consumes one random value for the count and four per outcome. *)
Theorem generateOutcomes_numbering :
  forall ev w,
    (forall k, unit_interval (rand_src w k)) ->
    exists outs w1,
      generateOutcomes ev w = (Ok outs, w1) /\
      (forall k o, nth_error outs k = Some o ->
         o_title o = js "Path " ++ number_to_string (num_of_Z (Z.of_nat k + 1)) /\
         o_id o = uuid_src w (uuid_pos w + k)) /\
      rand_pos w1 = (rand_pos w + 1 + 4 * List.length outs)%nat /\
      uuid_pos w1 = (uuid_pos w + List.length outs)%nat.
Proof.
  intros ev w Hrand.
  destruct (generateOutcomes_run ev w Hrand)
    as (outs & w1 & Hrun & _ & _ & Hlab & Hr & Hu & _).
  exists outs, w1. auto.
Qed.

Lemma generateDescription_run :
  forall s w,
    unit_interval (rand_src w (rand_pos w)) ->
    exists t,
      generateDescription (VStr s) w = (Ok (VStr t), used_random w) /\
      In t (description_templates (toLowerCase s)).
Proof.
  intros s w Hx. unfold generateDescription.
  unfold bind at 1 2 3 4. unfold lift, str_method. cbv zeta.
  exact (pick_in (description_templates (toLowerCase s)) 4 w Hx eq_refl
           ltac:(lia) unit_floor_4).
Qed.

(** X3: for a string and a random value in [0, 1), [generateDescription]
    returns one of its four sentences around the lower-cased event,
    never [undefined], and consumes exactly one random value. *)
Theorem generateDescription_template :
  forall s w,
    unit_interval (rand_src w (rand_pos w)) ->
    exists t,
      generateDescription (VStr s) w = (Ok (VStr t), used_random w) /\
      In t (description_templates (toLowerCase s)).
Proof. intros s w Hx. apply generateDescription_run. exact Hx. Qed.

(** [generateReality] on a string, with all that its parts establish. *)
Lemma generateReality_run :
  forall s w,
    (forall k, unit_interval (rand_src w k)) ->
    exists r w1,
      generateReality (VStr s) w = (Ok r, w1) /\
      entropy_step w w1 /\
      title r = extractTitle_str s /\
      (exists t, description r = VStr t /\
                 In t (description_templates (toLowerCase s))) /\
      (2 <= List.length (outcomes r) <= 4)%nat /\
      Forall outcome_ok (outcomes r).
Proof.
  intros s w Hrand.
  destruct (generateOutcomes_run (VStr s) w Hrand)
    as (outs & w1 & Hout & Hlen & Hall & _ & _ & _ & Hstep1).
  assert (Hsrc : rand_src w1 = rand_src w) by apply Hstep1.
  destruct (generateDescription_run s w1) as (t & Hdesc & Hin).
  { rewrite Hsrc. apply Hrand. }
  eexists _, _. split.
  - unfold generateReality, try_catch, generateReality_body.
    rewrite (bind_ok _ _ _ _ _ _ _ Hout).
    rewrite (bind_ok _ _ _ _ _ _ _ Hdesc).
    unfold bind, lift, extractTitle, str_method, Math_random, ret.
    reflexivity.
  - cbn [title description outcomes].
    split.
    { eapply entropy_step_trans; [exact Hstep1|].
      unfold entropy_step. cbn. repeat split; auto; lia. }
    split; [reflexivity|]. split; [exists t; auto|]. split; assumption.
Qed.

End GeneratorDetails.

(** ** Creating a reality *)

Lemma trim_nonempty : forall s, trim s <> [] -> s <> [].
Proof. intros s H Hs. subst. apply H. reflexivity. Qed.

Lemma existsb_reality_id_false :
  forall id (l : list reality_row),
    existsb (fun r => str_eqb (r_id r) id) l = false <-> ~ In id (map r_id l).
Proof.
  intros id l. induction l as [|r l IH]; simpl.
  - split; auto.
  - rewrite orb_false_iff, IH, str_eqb_neq. tauto.
Qed.

Lemma insert_reality_spec :
  forall row d,
    insert_reality row d =
    if existsb (fun r => str_eqb (r_id r) (r_id row)) (realities d) then None
    else Some {| realities := realities d ++ [row];
                 reality_trees := reality_trees d;
                 analytics := analytics d;
                 analytics_seq := analytics_seq d |}.
Proof. reflexivity. Qed.

(** UTF-8 keeps a string without surrogates. *)
Lemma utf8_text_plain :
  forall s,
    Forall (fun c => is_high_surrogate c = false /\ is_low_surrogate c = false) s ->
    utf8_text s = s.
Proof.
  induction s as [|c s IH]; intros H; [reflexivity|].
  inversion H as [|? ? [Hh Hl] Hs]; subst.
  cbn [utf8_text]. rewrite Hh, Hl, (IH Hs). reflexivity.
Qed.

Section CreateProperties.
Context {P : Platform}.

Lemma session_of_or_uuid :
  forall us w, fst (or_uuid us w) = Ok (session_of us w).
Proof. intros [s|] w; reflexivity. Qed.

(** [POST /realities] on a string that is not blank, once the reality is
    generated. *)
Lemma post_realities_run :
  forall s us w reality w2,
    trim s <> [] ->
    generateReality (VStr s) (snd (or_uuid us w)) = (Ok reality, w2) ->
    handle (PostRealities (VStr s) us) w =
    match insert_reality (new_reality_row s us reality w) (db w) with
    | None => (Respond 500 (BError (js "Failed to save reality")), used_uuid w2)
    | Some d' =>
        (Respond 200 (BCreated (new_reality_id (VStr s) us w) (session_of us w)
                               reality (clock w)),
         set_db (insert_analytics (utf8_text (session_of us w)) (js "create_reality")
                   (JSON_stringify
                      (VObj [(js "event", VStr s);
                             (js "realityId", VStr (new_reality_id (VStr s) us w))]))
                   (clock w) d') (used_uuid w2))
    end.
Proof.
  intros s us w reality w2 Hs Hgen.
  pose proof (pure_generateReality (VStr s) (snd (or_uuid us w))) as Hpure.
  rewrite Hgen in Hpure. cbn [snd] in Hpure.
  destruct (or_uuid_ok us w) as (session & w1 & Hsess & Hstep1).
  pose proof (session_of_or_uuid us w) as Hsession.
  rewrite Hsess in Hsession, Hgen, Hpure. cbn [fst snd] in Hsession, Hgen, Hpure.
  injection Hsession as ->.
  assert (Hdb : db w2 = db w).
  { destruct Hpure as [H1 _]. destruct Hstep1 as [H2 _]. congruence. }
  assert (Hck : clock w2 = clock w).
  { destruct Hpure as (_ & H1 & _). destruct Hstep1 as (_ & H2 & _). congruence. }
  assert (Hid : new_reality_id (VStr s) us w = uuid_src w2 (uuid_pos w2)).
  { unfold new_reality_id. rewrite Hsess. cbn [snd]. rewrite Hgen. reflexivity. }
  unfold new_reality_row. rewrite Hid.
  unfold handle, run, post_realities, try_catch.
  rewrite (bind_ok _ _ _ _ _ _ _ Hsess).
  assert (Htruthy : truthy (VStr s) = true).
  { destruct s; [exfalso; apply Hs; reflexivity | reflexivity]. }
  rewrite Htruthy. cbn [negb].
  assert (Hlen : (List.length (trim s) =? 0)%nat = false).
  { destruct (trim s); [contradiction | reflexivity]. }
  unfold bind at 1. unfold bind at 1. unfold lift, str_method, ret at 1.
  rewrite Hlen.
  rewrite (bind_ok _ _ _ _ _ _ _ Hgen).
  unfold bind, uuidv4, get_db, get_clock, put_db, logEvent, ret.
  cbn [db clock used_uuid fst snd]. rewrite Hdb, Hck.
  destruct (insert_reality _ (db w)) as [d'|]; [|reflexivity].
  unfold bind, get_db, get_clock, put_db.
  cbn [db clock used_uuid set_db fst snd]. rewrite Hck. reflexivity.
Qed.

(** X4: a well-formed creation.  For an event that is a string with
    something else than white space in it, random values in [0, 1) and
    an identifier not yet in the table, [POST /realities] answers 200
    with the generated reality, appends exactly one row to [realities]
    holding the event, the title extracted from it and the session, each
    as UTF-8 stores it (a lone surrogate becomes U+FFFD, anything else
    is kept), and the time of the request, logs exactly one
    [create_reality] event for the session, and leaves the tree table
    alone. *)
Theorem post_realities_creates :
  forall s us w,
    trim s <> [] ->
    (forall k, unit_interval (rand_src w k)) ->
    ~ In (new_reality_id (VStr s) us w) (map r_id (realities (db w))) ->
    exists reality row event w',
      handle (PostRealities (VStr s) us) w
      = (Respond 200 (BCreated (r_id row) (session_of us w) reality (clock w)), w') /\
      title reality = extractTitle_spec s /\
      realities (db w') = realities (db w) ++ [row] /\
      r_id row = new_reality_id (VStr s) us w /\
      r_user_session row = utf8_text (session_of us w) /\
      r_original_event row = utf8_text s /\
      r_title row = utf8_text (extractTitle_spec s) /\
      r_created_at row = clock w /\
      analytics (db w') = analytics (db w) ++ [event] /\
      a_id event = analytics_seq (db w) + 1 /\
      a_user_session event = utf8_text (session_of us w) /\
      a_event_type event = js "create_reality" /\
      reality_trees (db w') = reality_trees (db w).
Proof.
  intros s us w Hs Hrand Hfresh.
  destruct (or_uuid_ok us w) as (session & w1 & Hsess & Hstep1).
  destruct (generateReality_run s w1) as (reality & w2 & Hgen & Hstep2 & Htitle & _).
  { intros k. destruct Hstep1 as (_ & _ & -> & _). apply Hrand. }
  assert (Hgen' : generateReality (VStr s) (snd (or_uuid us w)) = (Ok reality, w2))
    by (rewrite Hsess; exact Hgen).
  pose proof (post_realities_run s us w reality w2 Hs Hgen') as Hrun.
  rewrite insert_reality_spec in Hrun.
  apply existsb_reality_id_false in Hfresh.
  change (r_id (new_reality_row s us reality w)) with (new_reality_id (VStr s) us w)
    in Hrun.
  rewrite Hfresh in Hrun.
  eexists reality, (new_reality_row s us reality w), _, _.
  split; [exact Hrun|].
  cbn [db set_db insert_analytics realities analytics reality_trees analytics_seq
       new_reality_row r_id r_user_session r_original_event r_title r_created_at
       a_id a_user_session a_event_type].
  rewrite Htitle, extractTitle_str_spec.
  repeat split; reflexivity.
Qed.

(** X5: an event that is truthy but not a string (a number, [true], an
    array, an object) is answered 500 [Failed to generate reality]: the
    call of [trim] raises inside the [try].  Nothing is written. *)
Theorem post_realities_rejects_non_string :
  forall ev us w,
    truthy ev = true ->
    (forall s, ev <> VStr s) ->
    fst (handle (PostRealities ev us) w)
    = Respond 500 (BError (js "Failed to generate reality")) /\
    db (snd (handle (PostRealities ev us) w)) = db w.
Proof.
  intros ev us w Ht Hns.
  destruct (or_uuid_ok us w) as (session & w1 & Hsess & Hstep1).
  unfold handle, run, post_realities, try_catch.
  rewrite (bind_ok _ _ _ _ _ _ _ Hsess). rewrite Ht. cbn [negb].
  assert (Hm : str_method (fun s : jsstring => s) ev = Throw TypeError).
  { destruct ev; try reflexivity. exfalso. apply (Hns s). reflexivity. }
  unfold bind, lift. rewrite Hm. unfold ret. cbn [fst snd].
  split; [reflexivity | apply Hstep1].
Qed.

(** X6: when the identifier drawn for the new row is already a key of
    the table, the INSERT fails on the primary key: the answer is 500
    [Failed to save reality], no row is added and no event is logged. *)
Theorem post_realities_key_collision :
  forall s us w,
    trim s <> [] ->
    (forall k, unit_interval (rand_src w k)) ->
    In (new_reality_id (VStr s) us w) (map r_id (realities (db w))) ->
    fst (handle (PostRealities (VStr s) us) w)
    = Respond 500 (BError (js "Failed to save reality")) /\
    db (snd (handle (PostRealities (VStr s) us) w)) = db w.
Proof.
  intros s us w Hs Hrand Hin.
  destruct (or_uuid_ok us w) as (session & w1 & Hsess & Hstep1).
  destruct (generateReality_run s w1) as (reality & w2 & Hgen & Hstep2 & _).
  { intros k. destruct Hstep1 as (_ & _ & -> & _). apply Hrand. }
  assert (Hgen' : generateReality (VStr s) (snd (or_uuid us w)) = (Ok reality, w2))
    by (rewrite Hsess; exact Hgen).
  pose proof (post_realities_run s us w reality w2 Hs Hgen') as Hrun.
  rewrite insert_reality_spec in Hrun.
  change (r_id (new_reality_row s us reality w)) with (new_reality_id (VStr s) us w)
    in Hrun.
  destruct (existsb _ (realities (db w))) eqn:Hex.
  - rewrite Hrun. cbn [fst snd db used_uuid]. split; [reflexivity|].
    destruct Hstep2 as [H2 _]. destruct Hstep1 as [H1 _]. congruence.
  - apply existsb_reality_id_false in Hex. contradiction.
Qed.

End CreateProperties.

(** ** What a request does to the tables *)

Section Steps.
Context {P : Platform}.

(** [POST /realities] either answers 200 and has inserted one row and
    one event, or answers something else and has written nothing. *)
Lemma post_realities_cases :
  forall event userSession w,
    let r := handle (PostRealities event userSession) w in
    (status_of (fst r) <> Some 200 /\ db (snd r) = db w) \/
    (status_of (fst r) = Some 200 /\
     exists row d1 data,
       insert_reality row (db w) = Some d1 /\
       r_user_session row = utf8_text (session_of userSession w) /\
       db (snd r)
       = insert_analytics (utf8_text (session_of userSession w))
           (js "create_reality") data (clock w) d1).
Proof.
  intros event userSession w. cbv zeta.
  unfold handle, run, post_realities, try_catch.
  destruct (or_uuid_ok userSession w) as (session & w1 & Hs & Hstep1).
  pose proof (session_of_or_uuid userSession w) as Hsession.
  rewrite Hs in Hsession. cbn [fst] in Hsession. injection Hsession as ->.
  rewrite (bind_ok _ _ _ _ _ _ _ Hs).
  assert (Hd1 : db w1 = db w) by apply Hstep1.
  assert (Hc1 : clock w1 = clock w) by apply Hstep1.
  match goal with
  | |- context [bind ?m ?k w1] =>
      assert (Htext : exists r, m w1 = (r, w1))
  end.
  { destruct (negb (truthy event)); [eexists; reflexivity|].
    unfold bind, lift, ret. destruct (str_method (fun s => s) event);
      eexists; reflexivity. }
  destruct Htext as ([text|e] & Htext).
  2:{ rewrite (bind_throw _ _ _ _ _ _ _ Htext). left.
      destruct e; cbn [fst snd ret status_of]; rewrite Hd1;
        split; congruence. }
  rewrite (bind_ok _ _ _ _ _ _ _ Htext).
  destruct text as [original|].
  2:{ left. cbn [fst snd ret status_of]. rewrite Hd1. split; congruence. }
  pose proof (pure_generateReality event w1) as Hgen.
  destruct (generateReality event w1) as [[reality|e] w2] eqn:Egen.
  2:{ rewrite (bind_throw _ _ _ _ _ _ _ Egen). left.
      assert (Hd2 : db w2 = db w1) by apply Hgen.
      destruct e; cbn [fst snd ret status_of]; rewrite Hd2, Hd1;
        split; congruence. }
  rewrite (bind_ok _ _ _ _ _ _ _ Egen).
  assert (Hd2 : db w2 = db w1) by apply Hgen.
  assert (Hc2 : clock w2 = clock w1) by apply Hgen.
  unfold bind, uuidv4, get_db, get_clock, put_db, logEvent, ret.
  cbn [db clock used_uuid fst snd]. rewrite Hd2, Hd1.
  match goal with
  | |- context [insert_reality ?r ?d] =>
      destruct (insert_reality r d) as [d'|] eqn:Hins
  end.
  - right. unfold bind, get_db, get_clock, put_db.
    cbn [db clock used_uuid set_db fst snd status_of].
    split; [reflexivity|]. eexists _, d', _. split; [exact Hins|].
    split; [reflexivity|]. rewrite Hc2, Hc1. reflexivity.
  - left. cbn [fst snd db used_uuid status_of]. rewrite Hd2, Hd1.
    split; congruence.
Qed.

Lemma post_realities_step :
  forall event userSession w,
    db_step (db w) (db (snd (handle (PostRealities event userSession) w))).
Proof.
  intros event userSession w.
  destruct (post_realities_cases event userSession w)
    as [[_ ->] | (_ & row & d1 & data & Hins & Hsess & ->)].
  - constructor.
  - rewrite <- Hsess. eapply step_reality. exact Hins.
Qed.

(** Every request is one step of the tables. *)
Lemma handle_db_step :
  forall req w, db_step (db w) (db (snd (handle req w))).
Proof.
  intros req w. destruct req.
  - unfold handle.
    destruct (run_pure _ pure_get_health w) as [Hd _]. rewrite Hd. constructor.
  - apply post_realities_step.
  - unfold handle.
    destruct (run_pure _ (pure_get_realities userSession limit offset) w) as [Hd _].
    rewrite Hd. constructor.
  - pose proof (post_trees_run treeData userSession makePublic protocol host w)
      as Hrun.
    pose proof (after_tree_ids_step userSession makePublic w) as Hstep.
    cbv zeta in Hrun.
    destruct (insert_tree (new_tree_row treeData userSession makePublic w) (db w))
      as [d'|] eqn:Hins.
    + rewrite Hrun. cbn [snd db set_db].
      eapply step_tree; [exact Hins | reflexivity].
    + rewrite Hrun. cbn [snd]. destruct Hstep as [-> _]. constructor.
  - rewrite get_shared_tree_run.
    destruct (select_shared_tree shareToken (db w)) as [row|] eqn:Hsel.
    + destruct (parse_tree_data row); cbn [snd db set_db]; constructor.
    + constructor.
  - unfold handle.
    destruct (run_pure _ (pure_get_stats userSession) w) as [Hd _].
    rewrite Hd. constructor.
  - unfold handle.
    destruct (run_pure _ (pure_post_enhance reality) w) as [Hd _].
    rewrite Hd. constructor.
Qed.

Lemma serve_snoc :
  forall reqs req w, serve (reqs ++ [req]) w = snd (handle req (serve reqs w)).
Proof. intros reqs req w. unfold serve. rewrite fold_left_app. reflexivity. Qed.

Lemma serve_cons :
  forall req reqs w, serve (req :: reqs) w = serve reqs (snd (handle req w)).
Proof. reflexivity. Qed.

Lemma serve_reachable :
  forall reqs w, reachable w -> reachable (serve reqs w).
Proof.
  induction reqs as [|req reqs IH]; intros w Hw; [exact Hw|].
  rewrite serve_cons. apply IH. apply reach_request. exact Hw.
Qed.

End Steps.

Lemma insert_reality_inv :
  forall row d d1,
    insert_reality row d = Some d1 ->
    ~ In (r_id row) (map r_id (realities d)) /\
    realities d1 = realities d ++ [row] /\
    reality_trees d1 = reality_trees d /\
    analytics d1 = analytics d /\ analytics_seq d1 = analytics_seq d.
Proof.
  intros row d d1 H. rewrite insert_reality_spec in H.
  destruct (existsb _ _) eqn:E; [discriminate|].
  apply existsb_reality_id_false in E. inversion H; subst. cbn. auto.
Qed.

Lemma insert_tree_inv :
  forall row d d1,
    insert_tree row d = Some d1 ->
    realities d1 = realities d /\
    reality_trees d1 = reality_trees d ++ [row] /\
    analytics d1 = analytics d /\ analytics_seq d1 = analytics_seq d.
Proof.
  intros row d d1 H. unfold insert_tree in H.
  repeat match type of H with
         | (if ?c then _ else _) = _ => destruct c; [discriminate|]
         end.
  inversion H; subst. cbn. auto.
Qed.

(** The two tables without UPDATE only grow, by at most one row a step,
    and a step that adds a reality adds an event. *)
Lemma db_step_appends :
  forall d d',
    db_step d d' ->
    exists rs evs,
      realities d' = realities d ++ rs /\
      analytics d' = analytics d ++ evs /\
      (List.length rs <= List.length evs <= 1)%nat.
Proof.
  intros d d' H. destruct H as [d | d row d1 data now Hins | d row d1 data now Hins Hv | d id].
  - exists [], []. rewrite !app_nil_r. cbn. auto.
  - destruct (insert_reality_inv _ _ _ Hins) as (_ & Hr & _ & Ha & _).
    eexists [row], [_]. cbn [insert_analytics realities analytics].
    rewrite Hr, Ha. cbn. auto.
  - destruct (insert_tree_inv _ _ _ Hins) as (Hr & _ & Ha & _).
    eexists [], [_]. cbn [insert_analytics realities analytics].
    rewrite Hr, Ha, app_nil_r. cbn. auto.
  - exists [], []. rewrite !app_nil_r. cbn. auto.
Qed.

Lemma same_tree_refl : forall r, same_tree r r.
Proof. intros r. unfold same_tree. repeat split; auto; lia. Qed.

Lemma same_tree_trans :
  forall a b c, same_tree a b -> same_tree b c -> same_tree a c.
Proof.
  unfold same_tree. intros a b c H1 H2.
  destruct H1 as (?&?&?&?&?&?&?). destruct H2 as (?&?&?&?&?&?&?).
  repeat split; try congruence; lia.
Qed.

(** A step keeps every tree, position by position, and adds at most one. *)
Lemma db_step_trees :
  forall d d',
    db_step d d' ->
    exists kept added,
      reality_trees d' = kept ++ added /\
      Forall2 same_tree (reality_trees d) kept /\
      (List.length added <= 1)%nat.
Proof.
  intros d d' H.
  assert (Hrefl : forall l, Forall2 same_tree l l).
  { induction l; constructor; auto using same_tree_refl. }
  destruct H as [d | d row d1 data now Hins | d row d1 data now Hins Hv | d id].
  - exists (reality_trees d), []. rewrite app_nil_r. cbn. auto.
  - destruct (insert_reality_inv _ _ _ Hins) as (_ & _ & Ht & _).
    exists (reality_trees d), []. cbn [insert_analytics reality_trees].
    rewrite Ht, app_nil_r. cbn. auto.
  - destruct (insert_tree_inv _ _ _ Hins) as (_ & Ht & _).
    exists (reality_trees d), [row]. cbn [insert_analytics reality_trees].
    rewrite Ht. cbn. auto.
  - eexists _, []. rewrite app_nil_r. cbn [bump_view_count reality_trees].
    split; [reflexivity|]. split; [|cbn; lia].
    induction (reality_trees d) as [|r l IH]; cbn [map]; constructor; auto.
    destruct (str_eqb (t_id r) id); [|apply same_tree_refl].
    unfold same_tree, count_view. cbn. repeat split; auto; lia.
Qed.

Lemma map_of_nat_seq_snoc :
  forall n, map Z.of_nat (seq 1 (S n)) = map Z.of_nat (seq 1 n) ++ [Z.of_nat n + 1].
Proof.
  intros n. rewrite seq_S, map_app. cbn [map]. f_equal. f_equal. lia.
Qed.

(** A step keeps the keys of the realities distinct and the identifiers
    of the events consecutive. *)
Lemma db_step_keys :
  forall d d',
    db_step d d' ->
    NoDup (map r_id (realities d)) -> analytics_numbered d ->
    NoDup (map r_id (realities d')) /\ analytics_numbered d'.
Proof.
  intros d d' H Hnd [Hids Hseq].
  assert (Hsnoc : forall d1 s t data now,
             analytics d1 = analytics d -> analytics_seq d1 = analytics_seq d ->
             analytics_numbered (insert_analytics s t data now d1)).
  { intros d1 s t data now Ha Hs. unfold analytics_numbered.
    cbn [insert_analytics analytics analytics_seq].
    rewrite Ha, Hs, map_app, length_app. cbn [map List.length a_id].
    rewrite Nat.add_1_r, map_of_nat_seq_snoc, Hids, Hseq. split; [reflexivity|lia]. }
  destruct H as [d | d row d1 data now Hins | d row d1 data now Hins Hv | d id].
  - split; [exact Hnd | split; assumption].
  - destruct (insert_reality_inv _ _ _ Hins) as (Hfresh & Hr & _ & Ha & Hs).
    split; [|apply Hsnoc; assumption].
    cbn [insert_analytics realities]. rewrite Hr, map_app. cbn [map].
    apply NoDup_snoc; assumption.
  - destruct (insert_tree_inv _ _ _ Hins) as (Hr & _ & Ha & Hs).
    split; [|apply Hsnoc; assumption].
    cbn [insert_analytics realities]. rewrite Hr. exact Hnd.
  - split; [exact Hnd | split; assumption].
Qed.

Section StepProperties.
Context {P : Platform}.

(** X7: the four routes that only read (health, the list of realities,
    the statistics and the enhancement) leave every table as it was,
    whatever they answer. *)
Theorem read_routes_write_nothing :
  forall req w,
    reads_only req = true -> db (snd (handle req w)) = db w.
Proof.
  intros req w Hreq. destruct req; try discriminate; unfold handle.
  - apply (run_pure _ pure_get_health w).
  - apply (run_pure _ (pure_get_realities userSession limit offset) w).
  - apply (run_pure _ (pure_get_stats userSession) w).
  - apply (run_pure _ (pure_post_enhance reality) w).
Qed.

(** X8: no request deletes or rewrites a reality or an event.  After any
    sequence of requests both tables are the old ones followed by new
    rows; there are at most as many new events as requests, and at
    least as many new events as new realities. *)
Theorem realities_and_events_append_only :
  forall reqs w,
    exists rs evs,
      realities (db (serve reqs w)) = realities (db w) ++ rs /\
      analytics (db (serve reqs w)) = analytics (db w) ++ evs /\
      (List.length rs <= List.length evs <= List.length reqs)%nat.
Proof.
  induction reqs as [|req reqs IH] using rev_ind; intros w.
  - exists [], []. rewrite !app_nil_r. cbn. auto.
  - destruct (IH w) as (rs & evs & Hr & Ha & Hlen).
    rewrite serve_snoc.
    destruct (db_step_appends _ _ (handle_db_step req (serve reqs w)))
      as (rs1 & evs1 & Hr1 & Ha1 & Hlen1).
    exists (rs ++ rs1), (evs ++ evs1).
    rewrite Hr1, Ha1, Hr, Ha, <- !app_assoc, !length_app. cbn [List.length].
    repeat split; lia.
Qed.

(** X9: no request deletes a tree or changes anything of it but its
    view count, which never goes down.  After any sequence of requests
    the tree table holds, in the same order, the old rows each with its
    identifier, session, data, token, visibility and creation time, and
    then the rows saved since. *)
Theorem trees_are_kept :
  forall reqs w,
    exists kept added,
      reality_trees (db (serve reqs w)) = kept ++ added /\
      Forall2 same_tree (reality_trees (db w)) kept.
Proof.
  induction reqs as [|req reqs IH] using rev_ind; intros w.
  - exists (reality_trees (db w)), []. rewrite app_nil_r. split; [reflexivity|].
    induction (reality_trees (db w)); constructor; auto using same_tree_refl.
  - destruct (IH w) as (kept & added & Ht & Hk).
    rewrite serve_snoc.
    destruct (db_step_trees _ _ (handle_db_step req (serve reqs w)))
      as (kept1 & added1 & Ht1 & Hk1 & _).
    rewrite Ht in Hk1. apply Forall2_app_inv_l in Hk1.
    destruct Hk1 as (k1 & k2 & Hka & Hkb & ->).
    exists k1, (k2 ++ added1). rewrite Ht1, <- app_assoc. split; [reflexivity|].
    clear -Hk Hka. revert k1 Hka.
    induction Hk as [|a b l l' Hab Hl IHl]; intros k1 Hka; inversion Hka; subst;
      constructor.
    + eapply same_tree_trans; eassumption.
    + apply IHl. assumption.
Qed.

(** X10: in every state that the server can reach, the identifiers of
    the realities are pairwise distinct, so are those of the trees and
    the share tokens, and the events are numbered 1, 2, ... in the order
    of their insertion. *)
Theorem reachable_keys :
  forall w,
    reachable w ->
    NoDup (map r_id (realities (db w))) /\
    NoDup (map t_id (reality_trees (db w))) /\
    NoDup (share_tokens (reality_trees (db w))) /\
    analytics_numbered (db w).
Proof.
  intros w Hw.
  assert (Hk : NoDup (map r_id (realities (db w))) /\ analytics_numbered (db w)).
  { induction Hw as [w Hinit | w t H IH Ht | w req H IH].
    - rewrite Hinit. split; [constructor | split; reflexivity].
    - exact IH.
    - destruct IH as [H1 H2].
      apply (db_step_keys _ _ (handle_db_step req w) H1 H2). }
  destruct (reachable_tree_inv w Hw) as [Hids Htoks _].
  destruct Hk as [H1 H2]. auto.
Qed.

End StepProperties.

(** ** Reading back *)

Lemma filter_length_snoc :
  forall A (f : A -> bool) l x,
    Z.of_nat (List.length (filter f (l ++ [x])))
    = Z.of_nat (List.length (filter f l)) + (if f x then 1 else 0).
Proof.
  intros A f l x. rewrite filter_app, length_app. cbn [filter].
  destruct (f x); cbn [List.length]; lia.
Qed.

Lemma str_eqb_sym : forall a b, str_eqb a b = str_eqb b a.
Proof.
  intros a b. destruct (str_eqb a b) eqn:E.
  - apply str_eqb_eq in E. subst. symmetry. apply str_eqb_refl.
  - destruct (str_eqb b a) eqn:E'; [|reflexivity].
    apply str_eqb_eq in E'. subst. rewrite str_eqb_refl in E. discriminate.
Qed.

Lemma insert_desc_in :
  forall row x l, In x (insert_desc row l) <-> x = row \/ In x l.
Proof.
  intros row x l. induction l as [|r l IH]; cbn [insert_desc].
  - cbn. intuition congruence.
  - destruct (r_created_at r <? r_created_at row); cbn [In].
    + intuition congruence.
    + rewrite IH. intuition congruence.
Qed.

Lemma insert_desc_sorted :
  forall row l, newest_first l -> newest_first (insert_desc row l).
Proof.
  unfold newest_first. intros row l H. induction H as [|r l Hl IH Hr]; cbn [insert_desc].
  - constructor; constructor.
  - destruct (r_created_at r <? r_created_at row) eqn:E.
    + apply Z.ltb_lt in E. constructor; [constructor; assumption|].
      constructor; [lia|]. rewrite Forall_forall in *. intros x Hx.
      specialize (Hr x Hx). cbv beta in Hr. lia.
    + apply Z.ltb_ge in E. constructor; [exact IH|].
      rewrite Forall_forall in *. intros x Hx. apply insert_desc_in in Hx.
      destruct Hx as [->|Hx]; [exact E | apply Hr; exact Hx].
Qed.

Lemma insert_desc_length :
  forall row l, List.length (insert_desc row l) = S (List.length l).
Proof.
  intros row l. induction l as [|r l IH]; cbn [insert_desc]; [reflexivity|].
  destruct (r_created_at r <? r_created_at row); cbn [List.length]; congruence.
Qed.

Lemma order_desc_spec :
  forall rows,
    newest_first (order_desc rows) /\
    (forall x, In x (order_desc rows) <-> In x rows) /\
    List.length (order_desc rows) = List.length rows.
Proof.
  intros rows. unfold order_desc.
  assert (H : forall acc,
             newest_first acc ->
             newest_first (fold_left (fun sorted row => insert_desc row sorted) rows acc) /\
             (forall x, In x (fold_left (fun sorted row => insert_desc row sorted) rows acc)
                        <-> In x rows \/ In x acc) /\
             List.length (fold_left (fun sorted row => insert_desc row sorted) rows acc)
             = (List.length rows + List.length acc)%nat).
  { induction rows as [|r rows IH]; intros acc Hacc; cbn [fold_left].
    - split; [exact Hacc|]. split; [cbn; tauto | reflexivity].
    - destruct (IH (insert_desc r acc) (insert_desc_sorted r acc Hacc))
        as (H1 & H2 & H3).
      split; [exact H1|]. split.
      + intros x. rewrite H2, insert_desc_in. cbn [In]. intuition congruence.
      + rewrite H3, insert_desc_length. cbn [List.length]. lia. }
  destruct (H [] ltac:(constructor)) as (H1 & H2 & H3).
  split; [exact H1|]. split.
  - intros x. rewrite H2. cbn. tauto.
  - rewrite H3. cbn. lia.
Qed.

Lemma In_firstn :
  forall A n (l : list A) x, In x (firstn n l) -> In x l.
Proof.
  intros A n l x H. rewrite <- (firstn_skipn n l). apply in_or_app. left. exact H.
Qed.

Lemma In_skipn :
  forall A n (l : list A) x, In x (skipn n l) -> In x l.
Proof.
  intros A n l x H. rewrite <- (firstn_skipn n l). apply in_or_app. right. exact H.
Qed.

Lemma newest_first_skipn :
  forall n l, newest_first l -> newest_first (skipn n l).
Proof.
  unfold newest_first. induction n as [|n IH]; intros l H; [exact H|].
  destruct l as [|r l]; [exact H|]. cbn [skipn]. apply IH.
  inversion H; assumption.
Qed.

Lemma newest_first_firstn :
  forall n l, newest_first l -> newest_first (firstn n l).
Proof.
  unfold newest_first. induction n as [|n IH]; intros l H; [constructor|].
  destruct l as [|r l]; [constructor|]. cbn [firstn].
  inversion H as [|? ? Hl Hr]; subst. constructor; [apply IH; exact Hl|].
  rewrite Forall_forall in *. intros x Hx. apply Hr.
  eapply In_firstn; eassumption.
Qed.

(** The rows of a SELECT on the realities of a session. *)
Lemma select_realities_spec :
  forall session limit offset d,
    let rows := select_realities session limit offset d in
    newest_first rows /\
    (forall row, In row rows ->
       In row (realities d) /\ r_user_session row = session) /\
    (0 <= limit -> Z.of_nat (List.length rows) <= limit) /\
    (limit < 0 -> offset <= 0 ->
     List.length rows
     = List.length (filter (fun r => str_eqb (r_user_session r) session)
                           (realities d)) /\
     forall row, In row (realities d) -> r_user_session row = session ->
                 In row rows).
Proof.
  intros session limit offset d rows. unfold rows, select_realities, limit_offset.
  set (mine := filter (fun r => str_eqb (r_user_session r) session) (realities d)).
  destruct (order_desc_spec mine) as (Hsorted & Hin & Hlen).
  assert (Hmine : forall row, In row mine <->
                              In row (realities d) /\ r_user_session row = session).
  { intros row. unfold mine. rewrite filter_In, str_eqb_eq. tauto. }
  split; [|split; [|split]].
  - destruct (limit <? 0).
    + apply newest_first_skipn. exact Hsorted.
    + apply newest_first_firstn, newest_first_skipn. exact Hsorted.
  - intros row Hrow. apply Hmine, Hin.
    destruct (limit <? 0).
    + eapply In_skipn; eassumption.
    + eapply In_skipn. eapply In_firstn. eassumption.
  - intros Hl. destruct (limit <? 0) eqn:E; [apply Z.ltb_lt in E; lia|].
    rewrite length_firstn. lia.
  - intros Hl Ho. destruct (limit <? 0) eqn:E; [|apply Z.ltb_ge in E; lia].
    replace (Z.to_nat offset) with O by lia. cbn [skipn].
    split; [exact Hlen|]. intros row H1 H2. apply Hin, Hmine. auto.
Qed.

Lemma map_result_pairs :
  forall (rows : list reality_row) l,
    map_result (fun row => match parse_outcomes row with
                           | Ok v => Ok (row, v)
                           | Throw e => Throw e
                           end) rows = Ok l ->
    map fst l = rows /\
    Forall (fun rv => parse_outcomes (fst rv) = Ok (snd rv)) l.
Proof.
  induction rows as [|row rows IH]; intros l H; cbn [map_result] in H.
  - inversion H. split; [reflexivity | constructor].
  - destruct (parse_outcomes row) as [v|e] eqn:Ev; [|discriminate].
    destruct (map_result _ rows) as [bs|e] eqn:Em; [|discriminate].
    inversion H; subst. destruct (IH bs eq_refl) as [H1 H2].
    cbn [map fst]. split; [congruence|]. constructor; [exact Ev | exact H2].
Qed.

Lemma find_app_some :
  forall A (f : A -> bool) l1 l2 x,
    find f l1 = Some x -> find f (l1 ++ l2) = Some x.
Proof.
  intros A f l1 l2 x. induction l1 as [|a l1 IH]; cbn [find app]; [discriminate|].
  destruct (f a); auto.
Qed.

Lemma find_over_app :
  forall A (f : A -> bool) l1 l2,
    find f (l1 ++ l2)
    = match find f l1 with
      | Some x => Some x
      | None => find f l2
      end.
Proof.
  intros A f l1 l2. induction l1 as [|a l1 IH]; cbn [find app]; [reflexivity|].
  destruct (f a); auto.
Qed.

(** A step keeps what a share token resolves to. *)
Lemma db_step_select :
  forall d d' token row,
    db_step d d' ->
    select_shared_tree token d = Some row ->
    exists row', select_shared_tree token d' = Some row' /\ same_tree row row'.
Proof.
  intros d d' token row H Hsel.
  destruct H as [d | d r d1 data now Hins | d r d1 data now Hins Hv | d id].
  - exists row. split; [exact Hsel | apply same_tree_refl].
  - destruct (insert_reality_inv _ _ _ Hins) as (_ & _ & Ht & _).
    exists row. split; [|apply same_tree_refl].
    unfold select_shared_tree in *. cbn [insert_analytics reality_trees].
    rewrite Ht. exact Hsel.
  - destruct (insert_tree_inv _ _ _ Hins) as (_ & Ht & _).
    exists row. split; [|apply same_tree_refl].
    unfold select_shared_tree in *. cbn [insert_analytics reality_trees].
    rewrite Ht. apply find_app_some. exact Hsel.
  - rewrite select_after_bump, Hsel. cbn [option_map].
    eexists. split; [reflexivity|].
    destruct (str_eqb (t_id row) id); [|apply same_tree_refl].
    unfold same_tree, count_view. cbn. repeat split; auto; lia.
Qed.

Lemma find_obj_set_same :
  forall k v fields,
    find (fun kv => str_eqb k (fst kv)) (obj_set k v fields) = Some (k, v).
Proof.
  intros k v fields. induction fields as [|[k' v'] rest IH]; cbn [obj_set].
  - cbn. rewrite str_eqb_refl. reflexivity.
  - destruct (str_eqb k k') eqn:E.
    + cbn. rewrite str_eqb_refl. reflexivity.
    + destruct (key_before k k' && negb (existsb _ rest)).
      * cbn. rewrite str_eqb_refl. reflexivity.
      * cbn [find fst]. rewrite E. exact IH.
Qed.

Lemma find_obj_set_other :
  forall k v k1 fields,
    k1 <> k ->
    find (fun kv => str_eqb k1 (fst kv)) (obj_set k v fields)
    = find (fun kv => str_eqb k1 (fst kv)) fields.
Proof.
  intros k v k1 fields Hne. apply str_eqb_neq in Hne.
  induction fields as [|[k' v'] rest IH]; cbn [obj_set].
  - cbn. rewrite Hne. reflexivity.
  - destruct (str_eqb k k') eqn:E.
    + apply str_eqb_eq in E. subst k'. cbn. rewrite Hne. reflexivity.
    + destruct (key_before k k' && negb (existsb _ rest)).
      * cbn [find fst]. rewrite Hne. reflexivity.
      * cbn [find fst]. destruct (str_eqb k1 k'); [reflexivity | exact IH].
Qed.

Lemma own_prop_set_same :
  forall k v fields, own_prop k (obj_set k v fields) = Some v.
Proof. intros. unfold own_prop. rewrite find_obj_set_same. reflexivity. Qed.

Lemma own_prop_set_other :
  forall k v k1 fields,
    k1 <> k -> own_prop k1 (obj_set k v fields) = own_prop k1 fields.
Proof. intros. unfold own_prop. rewrite find_obj_set_other by assumption. reflexivity. Qed.

Section RouteProperties.
Context {P : Platform}.

Lemma ToString_array :
  forall items,
    ToString (VArr items)
    = match element_strings items with
      | Ok ts => Ok (join (js ",") ts)
      | Throw x => Throw x
      end.
Proof. reflexivity. Qed.

Lemma element_strings_cons :
  forall a l,
    element_strings (a :: l)
    = match (match a with
             | VUndefined | VNull => Ok []
             | _ => ToString a
             end) with
      | Throw x => Throw x
      | Ok t =>
          match element_strings l with
          | Throw x => Throw x
          | Ok ts => Ok (t :: ts)
          end
      end.
Proof. reflexivity. Qed.

(** The only error of ToString is a TypeError. *)
Lemma ToString_error :
  forall v e, ToString v = Throw e -> e = TypeError.
Proof.
  assert (H : forall n v e, (cost v <= n)%nat -> ToString v = Throw e -> e = TypeError).
  { induction n as [|n IH]; intros v e Hn Hv.
    { destruct v; cbn in Hn; lia. }
    destruct v; try (cbn [ToString] in Hv; discriminate).
    - destruct b; discriminate.
    - change (cost (VArr items)) with (S (elements_cost items)) in Hn.
      assert (Hle : (elements_cost items <= n)%nat) by lia. clear Hn.
      rewrite ToString_array in Hv.
      assert (Hel : forall x, element_strings items = Throw x -> x = TypeError).
      { clear Hv. induction items as [|a l IHl]; intros x Hx; [discriminate|].
        change (elements_cost (a :: l)) with (S (cost a + elements_cost l)) in Hle.
        rewrite element_strings_cons in Hx.
        destruct (match a with
                  | VUndefined | VNull => Ok []
                  | _ => ToString a
                  end) as [t|x0] eqn:Ehead.
        - destruct (element_strings l) as [ts|x1] eqn:Erest; [discriminate|].
          inversion Hx; subst. apply IHl; [lia | reflexivity].
        - inversion Hx; subst.
          destruct a; try discriminate; (eapply IH; [|exact Ehead]; lia). }
      destruct (element_strings items) as [ts|x] eqn:Er; [discriminate|].
      inversion Hv; subst. apply Hel. reflexivity.
    - cbn [ToString] in Hv.
      destruct (existsb _ fields); [|discriminate]. inversion Hv. reflexivity. }
  intros v e. apply (H (cost v)). lia.
Qed.

(** X11: [GET /realities/:userSession], when it answers 200, has read
    its limit and its offset from the query as integers (20 and 0 when
    the query has none) and lists rows of the table that all belong to
    the session, from the newest to the oldest, each next to the value
    parsed from its [outcomes]; [count] is the number of rows listed,
    at most the limit, and with a negative limit and no offset every
    row of the session is listed. *)
Theorem get_realities_listing :
  forall session limit offset w,
    status_of (fst (handle (GetRealities session limit offset) w)) = Some 200 ->
    exists lim off l,
      query_integer limit 20 = Some lim /\
      query_integer offset 0 = Some off /\
      fst (handle (GetRealities session limit offset) w)
      = Respond 200 (BRealities l (Z.of_nat (List.length l))) /\
      Forall (fun rv => In (fst rv) (realities (db w)) /\
                        r_user_session (fst rv) = session /\
                        parse_outcomes (fst rv) = Ok (snd rv)) l /\
      newest_first (map fst l) /\
      (0 <= lim -> Z.of_nat (List.length l) <= lim) /\
      (lim < 0 -> off <= 0 ->
       forall row, In row (realities (db w)) -> r_user_session row = session ->
                   In row (map fst l)).
Proof.
  intros session limit offset w Hst.
  rewrite get_realities_run in *.
  destruct (query_integer limit 20) as [lim|]; [|discriminate].
  destruct (query_integer offset 0) as [off|]; [|discriminate].
  exists lim, off.
  destruct (select_realities_spec session lim off (db w)) as (Hs & Hin & Hlen & Hall).
  destruct (map_result _ (select_realities session lim off (db w))) as [l|e] eqn:Em;
    cbn [fst status_of] in Hst; [|discriminate].
  destruct (map_result_pairs _ _ Em) as [Hfst Hparse].
  exists l. cbn [fst]. rewrite <- Hfst at 1. rewrite length_map.
  split; [reflexivity|]. split; [reflexivity|]. split; [reflexivity|]. rewrite Hfst.
  split; [|split; [exact Hs|split]].
  - rewrite Forall_forall in *. intros rv Hrv.
    assert (Hr : In (fst rv) (select_realities session lim off (db w))).
    { rewrite <- Hfst. apply in_map. exact Hrv. }
    destruct (Hin _ Hr) as [H1 H2]. auto.
  - intros H0. rewrite <- (length_map fst l), Hfst. apply Hlen. exact H0.
  - intros H0 H1. apply Hall; assumption.
Qed.

(** X12: a created reality counts.  After [POST /realities] answered 200
    for a session, [GET /stats] of the session as the table holds it
    (UTF-8 stores a lone surrogate as U+FFFD) reports one reality and
    one interaction more than before and the same number of trees; the
    counts of every other session are unchanged. *)
Theorem stats_after_create :
  forall event s w session,
    status_of (fst (handle (PostRealities event (Some s)) w)) = Some 200 ->
    let w' := snd (handle (PostRealities event (Some s)) w) in
    let one := if str_eqb (utf8_text s) session then 1 else 0 in
    exists score,
      fst (handle (GetStats session) w')
      = Respond 200 (BStats (count_realities session (db w) + one)
                            (count_trees session (db w))
                            (count_analytics session (db w) + one) score).
Proof.
  intros event s w session Hst w' one. unfold w', one.
  destruct (post_realities_cases event (Some s) w)
    as [[Hne _] | (_ & row & d1 & data & Hins & Hsess & Hdb)];
    [contradiction|].
  rewrite get_stats_run. cbn [fst]. eexists.
  destruct (insert_reality_inv _ _ _ Hins) as (_ & Hr & Ht & Ha & _).
  unfold count_realities, count_trees, count_analytics. rewrite Hdb.
  cbn [insert_analytics realities reality_trees analytics].
  rewrite Hr, Ht, Ha, !filter_length_snoc. cbn [a_user_session session_of].
  rewrite Hsess. cbn [session_of].
  reflexivity.
Qed.

(** X13: a saved tree counts.  After [POST /trees] answered 200 for a
    session, [GET /stats] of the session as the table holds it reports
    one tree and one interaction more than before and the same number
    of realities; the counts of every other session are unchanged. *)
Theorem stats_after_save :
  forall treeData s makePublic protocol host w session,
    status_of (fst (handle (PostTrees treeData (Some s) makePublic protocol host) w))
    = Some 200 ->
    let w' := snd (handle (PostTrees treeData (Some s) makePublic protocol host) w) in
    let one := if str_eqb (utf8_text s) session then 1 else 0 in
    exists score,
      fst (handle (GetStats session) w')
      = Respond 200 (BStats (count_realities session (db w))
                            (count_trees session (db w) + one)
                            (count_analytics session (db w) + one) score).
Proof.
  intros treeData s makePublic protocol host w session Hst w' one. unfold w', one.
  pose proof (post_trees_run treeData (Some s) makePublic protocol host w) as Hrun.
  cbv zeta in Hrun.
  destruct (insert_tree _ (db w)) as [d1|] eqn:Hins;
    rewrite Hrun in *; cbn [fst snd status_of] in *; [|discriminate].
  rewrite get_stats_run. cbn [fst]. eexists.
  destruct (insert_tree_inv _ _ _ Hins) as (Hr & Ht & Ha & _).
  unfold count_realities, count_trees, count_analytics.
  cbn [db set_db insert_analytics realities reality_trees analytics].
  rewrite Hr, Ht, Ha, !filter_length_snoc.
  cbn [a_user_session t_user_session new_tree_row].
  reflexivity.
Qed.


(** X15: a share link keeps its target.  Once a token resolves to a
    tree, it resolves after any further requests to a row with the same
    identifier, session, data, visibility and creation time, whose view
    count has not gone down: no later save can shadow or replace it. *)
Theorem share_link_is_stable :
  forall reqs w token row,
    select_shared_tree token (db w) = Some row ->
    exists row',
      select_shared_tree token (db (serve reqs w)) = Some row' /\
      same_tree row row'.
Proof.
  induction reqs as [|req reqs IH] using rev_ind; intros w token row Hsel.
  - exists row. split; [exact Hsel | apply same_tree_refl].
  - destruct (IH w token row Hsel) as (row1 & Hsel1 & Hsame1).
    rewrite serve_snoc.
    destruct (db_step_select _ _ token row1 (handle_db_step req (serve reqs w)) Hsel1)
      as (row2 & Hsel2 & Hsame2).
    exists row2. split; [exact Hsel2 | eapply same_tree_trans; eassumption].
Qed.

(** X16: [POST /ai/enhance-reality] without a reality ([undefined] or
    [null]) is answered 500 [Failed to enhance reality]; nothing is
    drawn and nothing is written. *)
Theorem post_enhance_rejects_missing :
  forall reality w,
    reality = VUndefined \/ reality = VNull ->
    handle (PostEnhance reality) w
    = (Respond 500 (BError (js "Failed to enhance reality")), w).
Proof. intros reality w [-> | ->]; reflexivity. Qed.

(** X17: on any other value whose description has a text and random
    values in [0, 1), [POST /ai/enhance-reality] answers 200 with an
    object in which [enhancedDescription] is that text followed by the
    canned sentence, [insights] the three canned insights and
    [alternativeOutcomes] two to four well-formed outcomes; every other
    property of the reality is copied as it is.  When the description
    has no text (an object with an own [toString], or an array that
    holds one) the answer is 500 and nothing is drawn. *)
Theorem post_enhance_adds_three_properties :
  forall reality desc w,
    get_prop reality (js "description") = Ok desc ->
    (forall text,
        ToString desc = Ok text ->
        (forall k, unit_interval (rand_src w k)) ->
        exists out alternatives w',
          handle (PostEnhance reality) w = (Respond 200 (BValue (VObj out)), w') /\
          own_prop (js "enhancedDescription") out
          = Some (VStr (text ++ enhance_suffix)) /\
          own_prop (js "insights") out = Some enhance_insights /\
          own_prop (js "alternativeOutcomes") out
          = Some (VArr (map outcome_to_val alternatives)) /\
          (2 <= List.length alternatives <= 4)%nat /\
          Forall outcome_ok alternatives /\
          (forall k, ~ In k enhance_keys ->
                     own_prop k out = own_prop k (spread reality)) /\
          db w' = db w) /\
    (forall e,
        ToString desc = Throw e ->
        handle (PostEnhance reality) w
        = (Respond 500 (BError (js "Failed to enhance reality")), w)).
Proof.
  intros reality desc w Hdesc. split.
  - intros text Htext Hrand.
    assert (Htitle : exists t, get_prop reality (js "title") = Ok t).
    { destruct reality; try discriminate; cbn [get_prop]; try (eexists; reflexivity).
      destruct (find _ fields); eexists; reflexivity. }
    destruct Htitle as [t Ht].
    destruct (generateOutcomes_run t w Hrand)
      as (alts & w1 & Hrun & Hlen & Hall & _ & _ & _ & Hstep).
    eexists _, alts, w1. split.
    + unfold handle, run, post_enhance, try_catch. cbv zeta.
      unfold bind at 1. unfold lift at 1. rewrite Hdesc.
      unfold bind at 1. unfold lift at 1. rewrite Htext.
      unfold bind at 1. unfold lift at 1. rewrite Ht.
      rewrite (bind_ok _ _ _ _ _ _ _ Hrun). unfold ret. reflexivity.
    + split.
      { rewrite own_prop_set_other, own_prop_set_other, own_prop_set_same.
        - reflexivity.
        - intros H. apply str_eqb_eq in H. vm_compute in H. discriminate.
        - intros H. apply str_eqb_eq in H. vm_compute in H. discriminate. }
      split; [apply own_prop_set_same|].
      split.
      { rewrite own_prop_set_other, own_prop_set_same; [reflexivity|].
        intros H. apply str_eqb_eq in H. vm_compute in H. discriminate. }
      split; [exact Hlen|]. split; [exact Hall|]. split; [|apply Hstep].
      intros k Hk. unfold enhance_keys in Hk. cbn [In] in Hk.
      rewrite !own_prop_set_other; [reflexivity| | |]; intros ->; tauto.
  - intros e Hthrow.
    unfold handle, run, post_enhance, try_catch. cbv zeta.
    unfold bind at 1. unfold lift at 1. rewrite Hdesc.
    unfold bind at 1. unfold lift at 1. rewrite Hthrow.
    rewrite (ToString_error _ _ Hthrow). reflexivity.
Qed.

(** X23: when the identifier drawn for a tree is already a key of the
    table, or the token drawn for it is already the token of a stored
    tree, the INSERT fails on the constraint: [POST /trees] answers 500
    [Failed to save tree], stores nothing and logs nothing. *)
Theorem post_trees_key_collision :
  forall treeData us makePublic protocol host w,
    In (new_tree_id us w) (map t_id (reality_trees (db w))) \/
    (exists token,
        new_share_token us makePublic w = Some token /\
        In token (share_tokens (reality_trees (db w)))) ->
    fst (handle (PostTrees treeData us makePublic protocol host) w)
    = Respond 500 (BError (js "Failed to save tree")) /\
    db (snd (handle (PostTrees treeData us makePublic protocol host) w)) = db w.
Proof.
  intros treeData us makePublic protocol host w Hcol.
  pose proof (post_trees_run treeData us makePublic protocol host w) as Hrun.
  pose proof (after_tree_ids_step us makePublic w) as Hstep.
  cbv zeta in Hrun.
  destruct (insert_tree (new_tree_row treeData us makePublic w) (db w))
    as [d1|] eqn:Hins.
  - exfalso.
    destruct (insert_tree_fresh (new_tree_row treeData us makePublic w) (db w))
      as [Hid Htok]; [congruence|].
    destruct Hcol as [Hin | (token & Ht & Hin)].
    + apply Hid. exact Hin.
    + apply (Htok token Ht). exact Hin.
  - rewrite Hrun. cbn [fst snd]. split; [reflexivity | apply Hstep].
Qed.

End RouteProperties.

(** ** Titles *)

Lemma drop_space_suffix :
  forall s, exists p, s = p ++ drop_space s /\ Forall (fun c => is_space c = true) p.
Proof.
  induction s as [|c s IH]; cbn [drop_space].
  - exists []. split; [reflexivity | constructor].
  - destruct (is_space c) eqn:E.
    + destruct IH as (p & Hp & Hall). exists (c :: p). split.
      * cbn [app]. congruence.
      * constructor; assumption.
    + exists []. split; [reflexivity | constructor].
Qed.

Lemma drop_space_head : forall s, followed_by_space (drop_space s) = false.
Proof.
  induction s as [|c s IH]; cbn [drop_space]; [reflexivity|].
  destruct (is_space c) eqn:E; [exact IH | cbn; exact E].
Qed.

Lemma Forall_space_rev :
  forall p, Forall (fun c => is_space c = true) p ->
            Forall (fun c => is_space c = true) (rev p).
Proof.
  intros p H. rewrite Forall_forall in *. intros c Hc. apply H.
  apply in_rev. exact Hc.
Qed.

(** [trim] cuts white space off both ends and nothing else. *)
Lemma trim_spec :
  forall s,
    exists pre post,
      s = pre ++ trim s ++ post /\
      Forall (fun c => is_space c = true) pre /\
      Forall (fun c => is_space c = true) post /\
      followed_by_space (trim s) = false /\
      followed_by_space (rev (trim s)) = false.
Proof.
  intros s. unfold trim.
  destruct (drop_space_suffix s) as (p & Hp & Hpall).
  destruct (drop_space_suffix (rev (drop_space s))) as (q & Hq & Hqall).
  assert (Hx : drop_space s = rev (drop_space (rev (drop_space s))) ++ rev q).
  { rewrite <- rev_app_distr, <- Hq, rev_involutive. reflexivity. }
  exists p, (rev q). split; [|split; [|split; [|split]]].
  - rewrite <- Hx. exact Hp.
  - exact Hpall.
  - apply Forall_space_rev. exact Hqall.
  - pose proof (drop_space_head s) as Hh. rewrite Hx in Hh.
    destruct (rev (drop_space (rev (drop_space s)))); [reflexivity | exact Hh].
  - rewrite rev_involutive. apply drop_space_head.
Qed.

Lemma strip_word_prefix :
  forall w s rest,
    strip_word w s = Some rest ->
    exists p, s = p ++ rest /\ List.length p = List.length w.
Proof.
  induction w as [|a w IH]; intros s rest H; cbn [strip_word] in H.
  - inversion H. exists []. split; reflexivity.
  - destruct s as [|b s]; [discriminate|].
    destruct (same_letter b a); [|discriminate].
    destruct (IH s rest H) as (p & Hp & Hlen).
    exists (b :: p). cbn [app List.length]. split; congruence.
Qed.

Lemma strip_word_app :
  forall w p ws, strip_word w p = Some [] -> strip_word w (p ++ ws) = Some ws.
Proof.
  induction w as [|a w IH]; intros p ws H; cbn [strip_word] in *.
  - inversion H. reflexivity.
  - destruct p as [|b p]; [discriminate|]. cbn [app].
    destruct (same_letter b a); [apply IH; exact H | discriminate].
Qed.

(** A code unit that is a letter of the prefix, in either case, is not
    white space. *)
Lemma letter_not_space :
  forall c a,
    (65 <= canonicalize a <= 90)%N -> same_letter c a = true -> is_space c = false.
Proof.
  intros c a Ha H. unfold same_letter, code_eqb in H. apply N.eqb_eq in H.
  rewrite <- H in Ha. unfold canonicalize in Ha.
  assert (Hc : (65 <= c <= 122)%N).
  { destruct ((97 <=? c)%N && (c <=? 122)%N) eqn:E.
    - apply andb_true_iff in E. destruct E as [E1 E2].
      apply N.leb_le in E1, E2. lia.
    - lia. }
  unfold is_space.
  repeat match goal with
         | |- context [Z.of_N c =? ?k] =>
             replace (Z.of_N c =? k) with false
               by (symmetry; apply Z.eqb_neq; lia)
         end.
  replace (8192 <=? Z.of_N c) with false by (symmetry; apply Z.leb_gt; lia).
  reflexivity.
Qed.

(** X18: the title is cut out of the event.  [extractTitle] returns a
    contiguous part of the event that neither begins nor ends with white
    space, and all that follows it in the event is white space: nothing
    is added, reordered or changed in case. *)
Theorem extractTitle_is_trimmed_part :
  forall s,
    exists pre post,
      s = pre ++ extractTitle_str s ++ post /\
      Forall (fun c => is_space c = true) post /\
      followed_by_space (extractTitle_str s) = false /\
      followed_by_space (rev (extractTitle_str s)) = false.
Proof.
  intros s. rewrite extractTitle_str_spec. unfold extractTitle_spec.
  assert (Hpart : forall rest,
             (exists p, s = p ++ rest) ->
             exists pre post,
               s = pre ++ trim rest ++ post /\
               Forall (fun c => is_space c = true) post /\
               followed_by_space (trim rest) = false /\
               followed_by_space (rev (trim rest)) = false).
  { intros rest [p Hp].
    destruct (trim_spec rest) as (pre & post & Hr & _ & Hpost & Hh & Ht).
    exists (p ++ pre), post. rewrite <- app_assoc, <- Hr. auto. }
  assert (Hword : forall w rest,
             strip_prefix_word w s = Some rest -> exists p, s = p ++ rest).
  { intros w rest H. unfold strip_prefix_word in H.
    destruct (strip_word w s) as [r|] eqn:E; [|discriminate].
    destruct (followed_by_space r); [|discriminate]. inversion H; subst.
    destruct (strip_word_prefix _ _ _ E) as (p & Hp & _). exists p. exact Hp. }
  destruct (strip_prefix_word (js "what if") s) as [r1|] eqn:E1.
  - apply Hpart. eapply Hword; eassumption.
  - destruct (strip_prefix_word (js "if") s) as [r2|] eqn:E2.
    + apply Hpart. eapply Hword; eassumption.
    + apply Hpart. exists []. reflexivity.
Qed.

(** X19: an event made of the prefix alone, [what if] or [if] in any
    case followed only by white space, passes the validation of
    [POST /realities] (it is not blank) and its title is the empty
    string. *)
Theorem extractTitle_of_bare_prefix :
  forall p ws,
    strip_word (js "what if") p = Some [] \/ strip_word (js "if") p = Some [] ->
    ws <> [] ->
    Forall (fun c => is_space c = true) ws ->
    trim (p ++ ws) <> [] /\ extractTitle_str (p ++ ws) = [].
Proof.
  intros p ws Hp Hws Hall.
  assert (Hspace : followed_by_space ws = true).
  { destruct ws as [|c ws]; [contradiction|]. inversion Hall; assumption. }
  assert (Htrim : trim ws = []) by (apply trim_nil_iff; exact Hall).
  split.
  - rewrite trim_nil_iff. intros H.
    destruct p as [|c p]; [destruct Hp as [Hp|Hp]; discriminate|].
    inversion H as [|? ? Hc _]; subst.
    destruct Hp as [Hp|Hp]; cbn [strip_word js list_ascii_of_string map] in Hp;
      destruct (same_letter c _) eqn:E; try discriminate;
      (eapply letter_not_space in E;
       [rewrite E in Hc; discriminate | vm_compute; split; discriminate]).
  - rewrite extractTitle_str_spec. unfold extractTitle_spec, strip_prefix_word.
    destruct Hp as [Hp|Hp].
    + rewrite (strip_word_app _ _ ws Hp), Hspace. exact Htrim.
    + assert (Hno : strip_word (js "what if") (p ++ ws) = None).
      { destruct p as [|c p]; [discriminate|].
        cbn [strip_word js list_ascii_of_string map] in Hp |- *.
        cbn [app]. unfold same_letter, code_eqb in *.
        destruct (canonicalize c =? canonicalize (N_of_ascii "i"))%N eqn:E;
          [|discriminate].
        apply N.eqb_eq in E. rewrite E. reflexivity. }
      rewrite Hno, (strip_word_app _ _ ws Hp), Hspace. exact Htrim.
Qed.

(** ** JSON text read back *)

Lemma hex_val_digit : forall d, (d < 16)%N -> hex_val (hex_digit d) = Some d.
Proof.
  intros d Hd.
  assert (Hc : In d [0;1;2;3;4;5;6;7;8;9;10;11;12;13;14;15]%N).
  { cbn [In]. lia. }
  cbn [In] in Hc.
  repeat (destruct Hc as [<-|Hc]; [vm_compute; reflexivity|]). contradiction.
Qed.

Lemma hex_four :
  forall c, (c < 65536)%N ->
    ((((c / 4096) mod 16 * 16 + (c / 256) mod 16) * 16 + (c / 16) mod 16) * 16
     + c mod 16 = c)%N.
Proof.
  intros c Hc.
  pose proof (N.div_mod c 16 ltac:(lia)) as H1.
  pose proof (N.div_mod (c / 16) 16 ltac:(lia)) as H2.
  pose proof (N.div_mod (c / 256) 16 ltac:(lia)) as H3.
  pose proof (N.Div0.div_div c 16 16) as E2.
  pose proof (N.Div0.div_div c 256 16) as E3.
  change (16 * 16)%N with 256%N in E2. change (256 * 16)%N with 4096%N in E3.
  rewrite E2 in H2. rewrite E3 in H3.
  assert (H4 : (c / 4096 < 16)%N) by (apply N.Div0.div_lt_upper_bound; lia).
  rewrite (N.mod_small (c / 4096) 16 H4).
  pose proof (N.mod_lt c 16 ltac:(lia)).
  pose proof (N.mod_lt (c / 16) 16 ltac:(lia)).
  pose proof (N.mod_lt (c / 256) 16 ltac:(lia)).
  lia.
Qed.

Lemma parse_uescape :
  forall c t acc,
    (c < 65536)%N ->
    parse_string_body (uescape c ++ t) acc = parse_string_body t (c :: acc).
Proof.
  intros c t acc Hc. unfold uescape. cbn [app parse_string_body].
  change (92 =? 34)%N with false. change (92 =? 92)%N with true.
  cbn match. cbn [N.eqb Pos.eqb orb].
  rewrite !hex_val_digit by (apply N.mod_lt; lia).
  rewrite hex_four by exact Hc. reflexivity.
Qed.

Lemma parse_plain :
  forall c t acc,
    (c =? 34)%N = false -> (c =? 92)%N = false -> (c <? 32)%N = false ->
    parse_string_body (c :: t) acc = parse_string_body t (c :: acc).
Proof. intros c t acc H1 H2 H3. cbn [parse_string_body]. rewrite H1, H2, H3. reflexivity. Qed.

Lemma surrogate_plain :
  forall c, (55296 <= c)%N ->
    (c =? 34)%N = false /\ (c =? 92)%N = false /\ (c <? 32)%N = false.
Proof.
  intros c Hc. repeat split.
  - apply N.eqb_neq. lia.
  - apply N.eqb_neq. lia.
  - apply N.ltb_ge. lia.
Qed.

(** Reading back what [quote_body] wrote, up to the closing quote. *)
Lemma parse_quote_body :
  forall n s acc rest,
    (List.length s <= n)%nat -> code_units s ->
    parse_string_body (quote_body s ++ 34%N :: rest) acc = Some (rev acc ++ s, rest).
Proof.
  induction n as [|n IH]; intros s acc rest Hlen Hs.
  - destruct s; [|cbn in Hlen; lia]. cbn. rewrite app_nil_r. reflexivity.
  - destruct s as [|c t].
    { cbn. rewrite app_nil_r. reflexivity. }
    inversion Hs as [|? ? Hc Ht]; subst. cbn [List.length] in Hlen.
    assert (Hnext : forall acc', parse_string_body (quote_body t ++ 34%N :: rest) acc'
                                 = Some (rev acc' ++ t, rest)).
    { intros acc'. apply IH; [lia | exact Ht]. }
    assert (Hgoal : forall x, parse_string_body x acc = parse_string_body
                                (quote_body t ++ 34%N :: rest) (c :: acc) ->
                              parse_string_body x acc = Some (rev acc ++ c :: t, rest)).
    { intros x ->. rewrite Hnext. cbn [rev]. rewrite <- app_assoc. reflexivity. }
    cbn [quote_body].
    destruct (c =? 34)%N eqn:E34.
    { apply N.eqb_eq in E34. subst c. apply Hgoal. reflexivity. }
    destruct (c =? 92)%N eqn:E92.
    { apply N.eqb_eq in E92. subst c. apply Hgoal. reflexivity. }
    destruct (c =? 8)%N eqn:E8.
    { apply N.eqb_eq in E8. subst c. apply Hgoal. reflexivity. }
    destruct (c =? 12)%N eqn:E12.
    { apply N.eqb_eq in E12. subst c. apply Hgoal. reflexivity. }
    destruct (c =? 10)%N eqn:E10.
    { apply N.eqb_eq in E10. subst c. apply Hgoal. reflexivity. }
    destruct (c =? 13)%N eqn:E13.
    { apply N.eqb_eq in E13. subst c. apply Hgoal. reflexivity. }
    destruct (c =? 9)%N eqn:E9.
    { apply N.eqb_eq in E9. subst c. apply Hgoal. reflexivity. }
    destruct (c <? 32)%N eqn:E32.
    { apply Hgoal. rewrite <- app_assoc. apply parse_uescape. exact Hc. }
    unfold is_high_surrogate, is_low_surrogate.
    destruct ((55296 <=? c)%N && (c <=? 56319)%N) eqn:Ehigh.
    { apply andb_true_iff in Ehigh. destruct Ehigh as [Eh1 Eh2].
      apply N.leb_le in Eh1, Eh2.
      destruct t as [|d t'].
      - apply Hgoal. cbn [quote_body app]. apply parse_uescape. exact Hc.
      - destruct ((56320 <=? d)%N && (d <=? 57343)%N) eqn:Elow.
        + apply andb_true_iff in Elow. destruct Elow as [El1 El2].
          apply N.leb_le in El1, El2.
          inversion Ht as [|? ? Hd Ht']; subst.
          destruct (surrogate_plain c ltac:(lia)) as (C1 & C2 & C3).
          destruct (surrogate_plain d ltac:(lia)) as (D1 & D2 & D3).
          cbn [app]. rewrite (parse_plain c _ acc C1 C2 C3).
          rewrite (parse_plain d _ (c :: acc) D1 D2 D3).
          rewrite IH by (cbn [List.length] in Hlen; try lia; exact Ht').
          cbn [rev]. rewrite <- !app_assoc. reflexivity.
        + apply Hgoal. rewrite <- app_assoc. apply parse_uescape. exact Hc. }
    destruct ((56320 <=? c)%N && (c <=? 57343)%N) eqn:Elow.
    { apply Hgoal. rewrite <- app_assoc. apply parse_uescape. exact Hc. }
    apply Hgoal. cbn [app]. apply parse_plain; assumption.
Qed.

Lemma parse_quote :
  forall s rest,
    code_units s ->
    exists body, quote s ++ rest = 34%N :: body /\
                 parse_string_body body [] = Some (s, rest).
Proof.
  intros s rest Hs. unfold quote. cbn [app]. rewrite <- app_assoc. cbn [app].
  eexists. split; [reflexivity|].
  apply (parse_quote_body (List.length s)); [lia | exact Hs].
Qed.

Lemma skip_ws_head :
  forall c t, is_json_ws c = false -> skip_ws (c :: t) = c :: t.
Proof. intros c t H. cbn [skip_ws]. rewrite H. reflexivity. Qed.

(** A number begins with a minus sign or a digit. *)
Lemma parse_number_head :
  forall s r,
    parse_number s = Some r ->
    exists c t, s = c :: t /\ (c = 45 \/ 48 <= c <= 57)%N.
Proof.
  intros s r H. destruct s as [|c t]; [discriminate|].
  exists c, t. split; [reflexivity|].
  destruct (c =? 45)%N eqn:E45; [left; apply N.eqb_eq; exact E45|].
  right. unfold parse_number in H. rewrite E45 in H.
  destruct (c =? 48)%N eqn:E48; [apply N.eqb_eq in E48; lia|].
  destruct ((49 <=? c)%N && (c <=? 57)%N) eqn:E49; [|discriminate].
  apply andb_true_iff in E49. destruct E49 as [E1 E2].
  apply N.leb_le in E1, E2. lia.
Qed.

Lemma number_head_tests :
  forall c, (c = 45 \/ 48 <= c <= 57)%N ->
    is_json_ws c = false /\
    (c =? 110)%N = false /\ (c =? 116)%N = false /\ (c =? 102)%N = false /\
    (c =? 34)%N = false /\ (c =? 91)%N = false /\ (c =? 123)%N = false /\
    (c =? 93)%N = false /\ (c =? 125)%N = false.
Proof.
  intros c Hc. unfold is_json_ws.
  repeat match goal with
         | |- context [(c =? ?k)%N] =>
             replace (c =? k)%N with false by (symmetry; apply N.eqb_neq; lia)
         end.
  repeat split; reflexivity.
Qed.

Section ReadBack.
Context {P : Platform}.

Lemma carried_text :
  forall v, carried v -> JSON_stringify v = Some (element_text v).
Proof.
  intros v Hv. unfold element_text.
  destruct (JSON_stringify v) eqn:E; [reflexivity|].
  destruct v; try discriminate; try contradiction.
  destruct b; discriminate.
Qed.

Lemma array_text :
  forall items,
    element_text (VArr items)
    = 91%N :: join (js ",") (elements_text items) ++ [93%N].
Proof. reflexivity. Qed.

Lemma object_text :
  forall fields,
    element_text (VObj fields)
    = 123%N :: join (js ",") (members_text fields) ++ [125%N].
Proof. reflexivity. Qed.

Lemma elements_text_cons :
  forall e l, elements_text (e :: l) = element_text e :: elements_text l.
Proof. reflexivity. Qed.

Lemma members_text_cons :
  forall k e l,
    carried e ->
    members_text ((k, e) :: l)
    = (quote k ++ 58%N :: element_text e) :: members_text l.
Proof.
  intros k e l He. cbn [members_text]. rewrite (carried_text e He). reflexivity.
Qed.

(** The first code unit of the text of a value opens the value. *)
Lemma text_head :
  forall v, carried v ->
    exists c t, element_text v = c :: t /\
                is_json_ws c = false /\ (c =? 93)%N = false /\ (c =? 125)%N = false.
Proof.
  intros v Hv. destruct v; cbn [carried] in Hv; try contradiction.
  - eexists _, _. split; [reflexivity|]. repeat split; reflexivity.
  - destruct b; (eexists _, _; split; [reflexivity|]; repeat split; reflexivity).
  - destruct Hv as [Hfin Hback]. unfold element_text. cbn [JSON_stringify].
    rewrite Hfin. specialize (Hback [] I). rewrite app_nil_r in Hback.
    destruct (parse_number_head _ _ Hback) as (c & t & -> & Hc).
    exists c, t. split; [reflexivity|].
    destruct (number_head_tests c Hc) as (H1 & _ & _ & _ & _ & _ & _ & H2 & H3).
    auto.
  - eexists _, _. split; [reflexivity|]. repeat split; reflexivity.
  - rewrite array_text. eexists _, _. split; [reflexivity|].
    repeat split; reflexivity.
  - rewrite object_text. eexists _, _. split; [reflexivity|].
    repeat split; reflexivity.
Qed.

Lemma join_two :
  forall sep x y l, join sep (x :: y :: l) = x ++ sep ++ join sep (y :: l).
Proof. reflexivity. Qed.

(** Reading back the text of a value, of the elements of an array and
    of the members of an object, by induction on the nested calls. *)
Lemma parse_text :
  forall fuel,
    (forall v rest,
        carried v -> (cost v <= fuel)%nat -> ends_value rest ->
        parse_value fuel (element_text v ++ rest) = Some (v, rest)) /\
    (forall items acc rest,
        items <> [] -> all_carried items -> (elements_cost items <= fuel)%nat ->
        parse_elements fuel (join (js ",") (elements_text items) ++ 93%N :: rest) acc
        = Some (VArr (rev acc ++ items), rest)) /\
    (forall fields acc rest,
        fields <> [] -> members_carried fields -> (members_cost fields <= fuel)%nat ->
        parse_members fuel (join (js ",") (members_text fields) ++ 125%N :: rest) acc
        = Some (VObj (define_all fields acc), rest)).
Proof.
  induction fuel as [|f (IHv & IHe & IHm)].
  { split; [|split].
    - intros v rest _ Hc _. destruct v; cbn in Hc; lia.
    - intros [|e l] acc rest Hne _ Hc; [contradiction | cbn in Hc; lia].
    - intros [|[k e] l] acc rest Hne _ Hc; [contradiction | cbn in Hc; lia]. }
  split; [|split].
  - (* a value *)
    intros v rest Hv Hcost Hrest.
    destruct (text_head v Hv) as (c & t & Htext & Hws & _).
    cbn [parse_value]. rewrite Htext. cbn [app]. rewrite (skip_ws_head _ _ Hws).
    destruct v; cbn [carried] in Hv; try contradiction.
    + inversion Htext; subst. reflexivity.
    + destruct b; inversion Htext; subst; reflexivity.
    + destruct Hv as [Hfin Hback]. unfold element_text in Htext.
      cbn [JSON_stringify] in Htext. rewrite Hfin in Htext.
      pose proof (Hback rest Hrest) as Hnum. rewrite Htext in Hnum.
      cbn [app] in Hnum.
      destruct (parse_number_head _ _ Hnum) as (c' & t' & Hct & Hc).
      inversion Hct; subst c'.
      destruct (number_head_tests c Hc) as (_ & T1 & T2 & T3 & T4 & T5 & T6 & _).
      rewrite T1, T2, T3, T4, T5, T6, Hnum. reflexivity.
    + destruct (parse_quote s rest Hv) as (body & Hq & Hbody).
      change (element_text (VStr s)) with (quote s) in Htext.
      assert (Hb : c = 34%N /\ t ++ rest = body).
      { rewrite Htext in Hq. cbn [app] in Hq. inversion Hq. auto. }
      destruct Hb as [-> ->]. cbn [N.eqb Pos.eqb]. rewrite Hbody. reflexivity.
    + rewrite array_text in Htext. inversion Htext; subst c t.
      cbn [N.eqb Pos.eqb]. rewrite <- app_assoc. cbn [app].
      destruct items as [|e l].
      * cbn [elements_text join app skip_ws is_json_ws N.eqb Pos.eqb orb].
        reflexivity.
      * assert (He : carried e) by apply Hv.
        destruct (text_head e He) as (c & t & Hte & Hws1 & H93 & _).
        assert (Hhead : exists t1,
                   join (js ",") (elements_text (e :: l)) ++ 93%N :: rest = c :: t1).
        { rewrite elements_text_cons, Hte. destruct (elements_text l);
            cbn [join app]; eexists; reflexivity. }
        destruct Hhead as [t1 Hhead]. rewrite Hhead.
        rewrite (skip_ws_head _ _ Hws1), H93, <- Hhead.
        rewrite (IHe (e :: l) [] rest); [reflexivity | discriminate | exact Hv |].
        change (S (elements_cost (e :: l)) <= S f)%nat in Hcost. lia.
    + rewrite object_text in Htext. inversion Htext; subst c t.
      cbn [N.eqb Pos.eqb]. rewrite <- app_assoc. cbn [app].
      destruct Hv as [Hord Hv].
      destruct fields as [|[k e] l].
      * cbn [members_text join app skip_ws is_json_ws N.eqb Pos.eqb orb].
        reflexivity.
      * assert (He : carried e) by apply Hv.
        assert (Hhead : exists t1,
                   join (js ",") (members_text ((k, e) :: l)) ++ 125%N :: rest
                   = 34%N :: t1).
        { rewrite (members_text_cons k e l He). unfold quote.
          destruct (members_text l); cbn [join app]; eexists; reflexivity. }
        destruct Hhead as [t1 Hhead]. rewrite Hhead.
        rewrite (skip_ws_head 34%N _ eq_refl). cbn [N.eqb Pos.eqb]. rewrite <- Hhead.
        rewrite (IHm ((k, e) :: l) [] rest); [| discriminate | exact Hv |].
        { unfold in_order in Hord. rewrite Hord. reflexivity. }
        change (S (members_cost ((k, e) :: l)) <= S f)%nat in Hcost. lia.
  - (* the elements of an array *)
    intros items acc rest Hne Hall Hcost.
    destruct items as [|e l]; [contradiction|].
    destruct Hall as [He Hl]. fold all_carried in Hl.
    change (S (cost e + elements_cost l) <= S f)%nat in Hcost.
    cbn [parse_elements]. rewrite elements_text_cons.
    destruct l as [|e2 l'].
    + cbn [elements_text join].
      rewrite (IHv e (93%N :: rest) He); [| lia | cbn; auto].
      rewrite (skip_ws_head 93%N _ eq_refl). cbn [N.eqb Pos.eqb rev].
      reflexivity.
    + rewrite elements_text_cons, join_two, <- app_assoc.
      change (js ",") with [44%N] at 1. cbn [app].
      rewrite (IHv e _ He); [| lia | cbn; auto].
      rewrite (skip_ws_head 44%N _ eq_refl). cbn [N.eqb Pos.eqb].
      rewrite <- elements_text_cons.
      rewrite (IHe (e2 :: l') (e :: acc) rest); [| discriminate | exact Hl | lia].
      cbn [rev]. rewrite <- app_assoc. reflexivity.
  - (* the members of an object *)
    intros fields acc rest Hne Hall Hcost.
    destruct fields as [|[k e] l]; [contradiction|].
    destruct Hall as (Hk & He & Hl). fold members_carried in Hl.
    change (S (cost e + members_cost l) <= S f)%nat in Hcost.
    cbn [parse_members]. rewrite (members_text_cons k e l He).
    assert (Hmember : forall tail,
               (quote k ++ 58%N :: element_text e) ++ tail
               = 34%N :: (quote_body k ++ 34%N :: 58%N :: element_text e ++ tail)).
    { intros tail. unfold quote. cbn [app]. rewrite <- !app_assoc. reflexivity. }
    assert (Hstep : forall tail (k2 : list (jsstring * jsval) -> option (jsval * jsstring)),
               ends_value tail ->
               match skip_ws ((quote k ++ 58%N :: element_text e) ++ tail) with
               | q :: t =>
                   if (q =? 34)%N then
                     match parse_string_body t [] with
                     | None => None
                     | Some (key, rest0) =>
                         match skip_ws rest0 with
                         | c :: t1 =>
                             if (c =? 58)%N then
                               match parse_value f t1 with
                               | None => None
                               | Some (v, rest') =>
                                   match skip_ws rest' with
                                   | c' :: t2 =>
                                       if (c' =? 44)%N
                                       then parse_members f t2 (obj_set key v acc)
                                       else if (c' =? 125)%N
                                       then Some (VObj (obj_set key v acc), t2)
                                       else None
                                   | [] => None
                                   end
                               end
                             else None
                         | [] => None
                         end
                     end
                   else None
               | [] => None
               end
               = match skip_ws tail with
                 | c' :: t2 =>
                     if (c' =? 44)%N
                     then parse_members f t2 (obj_set k e acc)
                     else if (c' =? 125)%N
                     then Some (VObj (obj_set k e acc), t2)
                     else None
                 | [] => None
                 end).
    { intros tail _ Htail. rewrite Hmember.
      rewrite (skip_ws_head 34%N _ eq_refl). cbn [N.eqb Pos.eqb].
      rewrite (parse_quote_body (List.length k) k [] _ ltac:(lia) Hk).
      cbn [rev app]. rewrite (skip_ws_head 58%N _ eq_refl). cbn [N.eqb Pos.eqb].
      rewrite (IHv e tail He); [reflexivity | lia | exact Htail]. }
    destruct l as [|[k2 e2] l'].
    + cbn [members_text join].
      rewrite (Hstep (125%N :: rest) (fun _ => None)); [| cbn; auto].
      rewrite (skip_ws_head 125%N _ eq_refl). cbn [N.eqb Pos.eqb].
      reflexivity.
    + assert (He2 : carried e2) by apply Hl.
      rewrite (members_text_cons k2 e2 l' He2), join_two, <- app_assoc.
      change (js ",") with [44%N] at 1. cbn [app].
      rewrite (Hstep (44%N :: _) (fun _ => None)); [| cbn; auto].
      rewrite (skip_ws_head 44%N _ eq_refl). cbn [N.eqb Pos.eqb].
      pose proof (IHm ((k2, e2) :: l') (obj_set k e acc) rest
                    ltac:(discriminate) Hl ltac:(lia)) as Hm.
      rewrite (members_text_cons k2 e2 l' He2) in Hm. exact Hm.
Qed.

End ReadBack.

Section RoundTrip.
Context {P : Platform}.

Lemma text_nonempty :
  forall v, carried v -> (1 <= List.length (element_text v))%nat.
Proof.
  intros v Hv. destruct (text_head v Hv) as (c & t & -> & _). cbn. lia.
Qed.

Lemma join_length_cons :
  forall (sep x y : jsstring) l,
    List.length (join sep (x :: y :: l))
    = (List.length x + List.length sep + List.length (join sep (y :: l)))%nat.
Proof. intros. rewrite join_two, !length_app. lia. Qed.

(** The nested calls are covered by twice the length of the text. *)
Lemma cost_bound :
  forall n v,
    (cost v <= n)%nat -> carried v ->
    (cost v <= 2 * List.length (element_text v))%nat.
Proof.
  induction n as [|n IH]; intros v Hn Hv.
  { destruct v; cbn in Hn; lia. }
  pose proof (text_nonempty v Hv) as Hlen.
  destruct v; try (cbn [cost]; lia).
  - (* arrays *)
    change (cost (VArr items)) with (S (elements_cost items)) in *.
    rewrite array_text. cbn [List.length]. rewrite length_app. cbn [List.length].
    cbn [carried] in Hv. fold all_carried in Hv.
    assert (H : (elements_cost items
                 <= 2 * List.length (join (js ",") (elements_text items)) + 1)%nat).
    { assert (Hle : (elements_cost items <= n)%nat) by lia.
      clear Hn Hlen. induction items as [|e l IHl]; [cbn; lia|].
      destruct Hv as [He Hl].
      change (elements_cost (e :: l)) with (S (cost e + elements_cost l)) in *.
      pose proof (IH e ltac:(lia) He) as Hce.
      specialize (IHl Hl ltac:(lia)).
      rewrite elements_text_cons.
      destruct l as [|e2 l'].
      - cbn [elements_text join elements_cost]. lia.
      - rewrite elements_text_cons in *. rewrite join_length_cons.
        change (List.length (js ",")) with 1%nat. lia. }
    lia.
  - (* objects *)
    change (cost (VObj fields)) with (S (members_cost fields)) in *.
    rewrite object_text. cbn [List.length]. rewrite length_app. cbn [List.length].
    cbn [carried] in Hv. fold members_carried in Hv. destruct Hv as [_ Hv].
    assert (H : (members_cost fields
                 <= 2 * List.length (join (js ",") (members_text fields)) + 1)%nat).
    { assert (Hle : (members_cost fields <= n)%nat) by lia.
      clear Hn Hlen. induction fields as [|[k e] l IHl]; [cbn; lia|].
      destruct Hv as (Hk & He & Hl).
      change (members_cost ((k, e) :: l)) with (S (cost e + members_cost l)) in *.
      pose proof (IH e ltac:(lia) He) as Hce.
      specialize (IHl Hl ltac:(lia)).
      rewrite (members_text_cons k e l He).
      destruct l as [|[k2 e2] l'].
      - cbn [members_text join members_cost]. rewrite length_app.
        cbn [List.length]. lia.
      - destruct Hl as (_ & He2 & _).
        rewrite (members_text_cons k2 e2 l' He2) in *. rewrite join_length_cons.
        change (List.length (js ",")) with 1%nat.
        rewrite length_app. cbn [List.length]. unfold jsstring in *. lia. }
    lia.
Qed.

Lemma JSON_parse_text :
  forall v, carried v -> JSON_parse (element_text v) = Ok v.
Proof.
  intros v Hv. unfold JSON_parse.
  pose proof (cost_bound (cost v) v (le_n _) Hv) as Hc.
  destruct (parse_text (2 * List.length (element_text v) + 2)) as (Hparse & _ & _).
  specialize (Hparse v [] Hv ltac:(lia) I). rewrite app_nil_r in Hparse.
  rewrite Hparse. reflexivity.
Qed.

(** X20: what [JSON.stringify] writes, [JSON.parse] reads back.  For a
    value without [undefined], whose numbers are finite and read back
    from their decimal text, whose strings are made of 16-bit code
    units and whose objects hold their properties in the order of
    definition, [JSON.stringify] gives a text and [JSON.parse] of this
    text is the value itself; the bound on nested calls is never hit. *)
Theorem JSON_parse_stringify :
  forall v,
    carried v ->
    exists text, JSON_stringify v = Some text /\ JSON_parse text = Ok v.
Proof.
  intros v Hv. exists (element_text v).
  split; [apply carried_text; exact Hv | apply JSON_parse_text; exact Hv].
Qed.

End RoundTrip.

(** ** What is stored is what is read *)

Lemma code_unitsb_ok : forall s, code_unitsb s = true -> code_units s.
Proof.
  intros s H. unfold code_unitsb in H. rewrite forallb_forall in H.
  apply Forall_forall. intros c Hc. apply N.ltb_lt. apply H. exact Hc.
Qed.

Section StoredAndRead.
Context {P : Platform}.

(** X21: a shared tree comes back as it was saved.  When [POST /trees]
    with a truthy [makePublic] answered 200 for tree data that JSON
    text carries, [GET /trees/share/:shareToken] with the token of the
    answer returns 200 with the identifier of the new tree, the very
    same tree data, the creation time and a view count of 1. *)
Theorem shared_tree_round_trip :
  forall treeData us makePublic protocol host w,
    carried treeData ->
    public_flag makePublic = true ->
    status_of (fst (handle (PostTrees treeData us makePublic protocol host) w))
    = Some 200 ->
    exists token,
      fst (handle (PostTrees treeData us makePublic protocol host) w)
      = Respond 200 (BTree (new_tree_id us w) (Some token)
                           (share_url protocol host (Some token))) /\
      fst (handle (GetSharedTree token)
             (snd (handle (PostTrees treeData us makePublic protocol host) w)))
      = Respond 200 (BShared (new_tree_id us w) treeData 1 (clock w)).
Proof.
  intros treeData us makePublic protocol host w Hv Hpub Hst.
  pose proof (post_trees_run treeData us makePublic protocol host w) as Hrun.
  cbv zeta in Hrun.
  destruct (insert_tree _ (db w)) as [d1|] eqn:Hins;
    rewrite Hrun in *; cbn [fst snd status_of] in *; [|discriminate].
  set (row := new_tree_row treeData us makePublic w) in *.
  assert (Htok : exists token, t_share_token row = Some token).
  { unfold row, new_tree_row, new_share_token. cbn [t_share_token].
    rewrite Hpub. eexists. reflexivity. }
  destruct Htok as [token Htok]. exists token.
  assert (Hflag : t_is_public row = 1).
  { unfold row, new_tree_row. cbn [t_is_public]. rewrite Hpub. reflexivity. }
  split.
  { rewrite Htok. reflexivity. }
  rewrite get_shared_tree_run. cbn [db set_db].
  assert (Hsel : select_shared_tree token
                   (insert_analytics (t_user_session row) (js "save_tree")
                      (JSON_stringify
                         (VObj [(js "treeId", VStr (t_id row));
                                (js "makePublic",
                                 match makePublic with
                                 | VUndefined => VBool false
                                 | v => v
                                 end)])) (clock w) d1)
                 = Some row).
  { apply (select_new_row row (db w) d1 Hins token Htok Hflag). }
  rewrite Hsel. cbn [fst].
  assert (Hparse : parse_tree_data row = Ok treeData).
  { unfold parse_tree_data, row, new_tree_row. cbn [t_tree_data].
    rewrite (carried_text treeData Hv). apply JSON_parse_text. exact Hv. }
  rewrite Hparse. reflexivity.
Qed.

(** X22: a created reality comes back with its outcomes.  When the
    event is not blank, the reality was generated, its identifier is
    new, its outcomes are values that JSON text carries and the session,
    as the table holds it, had no reality yet, [POST /realities] answers
    200 with the reality and [GET /realities/:userSession] for the
    stored session then lists exactly the new row, with the outcomes of
    the answer next to it and a count of 1.  The row holds the event,
    the title, the description and the session as UTF-8 stores them: a
    lone surrogate has become U+FFFD. *)
Theorem created_reality_round_trip :
  forall s session w reality w2,
    trim s <> [] ->
    generateReality (VStr s) w = (Ok reality, w2) ->
    ~ In (new_reality_id (VStr s) (Some session) w) (map r_id (realities (db w))) ->
    carried (VArr (map outcome_to_val (outcomes reality))) ->
    count_realities (utf8_text session) (db w) = 0 ->
    fst (handle (PostRealities (VStr s) (Some session)) w)
    = Respond 200 (BCreated (new_reality_id (VStr s) (Some session) w) session
                            reality (clock w)) /\
    exists row,
      fst (handle (GetRealities (utf8_text session) None None)
             (snd (handle (PostRealities (VStr s) (Some session)) w)))
      = Respond 200
          (BRealities [(row, VArr (map outcome_to_val (outcomes reality)))] 1) /\
      r_id row = new_reality_id (VStr s) (Some session) w /\
      r_user_session row = utf8_text session /\
      r_original_event row = utf8_text s /\
      r_title row = utf8_text (title reality) /\
      r_description row = sql_text (description reality) /\
      r_outcomes row = JSON_stringify (VArr (map outcome_to_val (outcomes reality))).
Proof.
  intros s session w reality w2 Hs Hgen Hfresh Hv Hcount.
  pose proof (post_realities_run s (Some session) w reality w2 Hs Hgen) as Hrun.
  rewrite insert_reality_spec in Hrun.
  apply existsb_reality_id_false in Hfresh.
  change (r_id (new_reality_row s (Some session) reality w))
    with (new_reality_id (VStr s) (Some session) w) in Hrun.
  rewrite Hfresh in Hrun. rewrite Hrun. cbn [fst snd session_of].
  split; [reflexivity|].
  set (row := new_reality_row s (Some session) reality w).
  exists row. split; [|repeat split].
  rewrite get_realities_run. cbn [fst db set_db query_integer].
  assert (Hmine : filter (fun r => str_eqb (r_user_session r) (utf8_text session))
                         (realities (db w)) = []).
  { unfold count_realities in Hcount.
    destruct (filter _ (realities (db w))); [reflexivity | cbn in Hcount; lia]. }
  assert (Hsel : forall data now,
             select_realities (utf8_text session) 20 0
               (insert_analytics (utf8_text session) (js "create_reality") data now
                  {| realities := realities (db w) ++ [row];
                     reality_trees := reality_trees (db w);
                     analytics := analytics (db w);
                     analytics_seq := analytics_seq (db w) |})
             = [row]).
  { intros data now. unfold select_realities.
    cbn [insert_analytics realities]. rewrite filter_app, Hmine.
    cbn [filter app]. unfold row at 1, new_reality_row at 1.
    cbn [r_user_session session_of]. rewrite str_eqb_refl. reflexivity. }
  rewrite Hsel.
  assert (Hparse : parse_outcomes row
                   = Ok (VArr (map outcome_to_val (outcomes reality)))).
  { unfold parse_outcomes, row, new_reality_row. cbn [r_outcomes].
    rewrite (carried_text _ Hv). rewrite array_text.
    apply (JSON_parse_text _ Hv). }
  cbn [map_result]. rewrite Hparse. reflexivity.
Qed.

(** X24: a tree saved without data is shared as [null].  When the body
    of [POST /trees] has no [treeData] and a truthy [makePublic], and
    the answer is 200, the column holds NULL and the share link answers
    200 with [treeData: null] and a view count of 1. *)
Theorem shared_tree_without_data :
  forall us makePublic protocol host w,
    public_flag makePublic = true ->
    status_of (fst (handle (PostTrees VUndefined us makePublic protocol host) w))
    = Some 200 ->
    exists token,
      fst (handle (PostTrees VUndefined us makePublic protocol host) w)
      = Respond 200 (BTree (new_tree_id us w) (Some token)
                           (share_url protocol host (Some token))) /\
      fst (handle (GetSharedTree token)
             (snd (handle (PostTrees VUndefined us makePublic protocol host) w)))
      = Respond 200 (BShared (new_tree_id us w) VNull 1 (clock w)).
Proof.
  intros us makePublic protocol host w Hpub Hst.
  pose proof (post_trees_run VUndefined us makePublic protocol host w) as Hrun.
  cbv zeta in Hrun.
  destruct (insert_tree _ (db w)) as [d1|] eqn:Hins;
    rewrite Hrun in *; cbn [fst snd status_of] in *; [|discriminate].
  set (row := new_tree_row VUndefined us makePublic w) in *.
  assert (Htok : exists token, t_share_token row = Some token).
  { unfold row, new_tree_row, new_share_token. cbn [t_share_token].
    rewrite Hpub. eexists. reflexivity. }
  destruct Htok as [token Htok]. exists token.
  assert (Hflag : t_is_public row = 1).
  { unfold row, new_tree_row. cbn [t_is_public]. rewrite Hpub. reflexivity. }
  split.
  { rewrite Htok. reflexivity. }
  rewrite get_shared_tree_run. cbn [db set_db].
  assert (Hsel : forall s t data now,
             select_shared_tree token (insert_analytics s t data now d1) = Some row).
  { intros s t data now.
    apply (select_new_row row (db w) d1 Hins token Htok Hflag). }
  rewrite Hsel. reflexivity.
Qed.

(** X25: a private tree opens no link.  After [POST /trees] with a
    falsy [makePublic], whatever it answered, every share token gets
    from [GET /trees/share/:shareToken] the answer it got before. *)
Theorem private_tree_opens_no_link :
  forall treeData us makePublic protocol host w token,
    public_flag makePublic = false ->
    fst (handle (GetSharedTree token)
           (snd (handle (PostTrees treeData us makePublic protocol host) w)))
    = fst (handle (GetSharedTree token) w).
Proof.
  intros treeData us makePublic protocol host w token Hpub.
  pose proof (post_trees_run treeData us makePublic protocol host w) as Hrun.
  pose proof (after_tree_ids_step us makePublic w) as Hstep.
  cbv zeta in Hrun.
  assert (Hsel : select_shared_tree token
                   (db (snd (handle (PostTrees treeData us makePublic protocol host) w)))
                 = select_shared_tree token (db w)).
  { destruct (insert_tree _ (db w)) as [d1|] eqn:Hins; rewrite Hrun; cbn [snd].
    - cbn [db set_db]. destruct (insert_tree_inv _ _ _ Hins) as (_ & Ht & _).
      unfold select_shared_tree. cbn [insert_analytics reality_trees].
      rewrite Ht, find_over_app. cbn [find].
      unfold new_tree_row at 1, new_share_token. cbn [t_share_token].
      rewrite Hpub. cbn [token_eqb andb].
      destruct (find _ (reality_trees (db w))); reflexivity.
    - destruct Hstep as [-> _]. reflexivity. }
  rewrite !get_shared_tree_run, Hsel.
  destruct (select_shared_tree token (db w)) as [row|]; [|reflexivity].
  destruct (parse_tree_data row); reflexivity.
Qed.

(** X26: sessions do not see each other.  A [POST /realities] made for
    one session, whatever it answered, leaves the answer of
    [GET /realities/:userSession] as it was for every session other
    than the one the table holds for it (the session of the body as
    UTF-8 stores it). *)
Theorem other_sessions_list_unchanged :
  forall event s other limit offset w,
    other <> utf8_text s ->
    fst (handle (GetRealities other limit offset)
           (snd (handle (PostRealities event (Some s)) w)))
    = fst (handle (GetRealities other limit offset) w).
Proof.
  intros event s other limit offset w Hne.
  assert (Hsel : forall lim off,
             select_realities other lim off
               (db (snd (handle (PostRealities event (Some s)) w)))
             = select_realities other lim off (db w)).
  { intros lim off.
    destruct (post_realities_cases event (Some s) w)
      as [[_ ->] | (_ & row & d1 & data & Hins & Hsess & ->)]; [reflexivity|].
    destruct (insert_reality_inv _ _ _ Hins) as (_ & Hr & _).
    unfold select_realities. cbn [insert_analytics realities].
    rewrite Hr, filter_app. cbn [filter]. rewrite Hsess. cbn [session_of].
    assert (Hx : str_eqb (utf8_text s) other = false).
    { apply str_eqb_neq. congruence. }
    rewrite Hx, app_nil_r. reflexivity. }
  rewrite !get_realities_run.
  destruct (query_integer limit 20); [|reflexivity].
  destruct (query_integer offset 0); [|reflexivity].
  rewrite !Hsel. reflexivity.
Qed.

End StoredAndRead.

(** ** The properties on concrete requests *)

Lemma start_world_reachable : reachable (P:=basic_platform) start_world.
Proof. apply reach_init. reflexivity. Defined.

Lemma create_realities_reachable :
  forall n s w,
    reachable (P:=basic_platform) w ->
    reachable (P:=basic_platform) (create_realities (P:=basic_platform) n s w).
Proof.
  induction n as [|n IH]; intros s w H; cbn [create_realities]; [exact H|].
  apply IH. apply reach_request. exact H.
Defined.

(** An event of three spaces is rejected. *)
Lemma post_realities_rejects_blank_event_witness :
  fst (handle (P:=basic_platform) (PostRealities (VStr (js "   ")) None) start_world)
  = Respond 400 (BError (js "Event description is required")).
Proof.
  apply (post_realities_rejects_blank_event (P:=basic_platform)
           (VStr (js "   ")) None start_world).
  right. exists (js "   "). split; [reflexivity|].
  repeat constructor.
Defined.

(** The token of a private tree is answered 404. *)
Lemma shared_tree_not_found_witness :
  handle (P:=basic_platform) (GetSharedTree (js "tok-1")) private_world
  = (Respond 404 (BError (js "Shared tree not found")), private_world).
Proof.
  apply (shared_tree_not_found (P:=basic_platform) (js "tok-1") private_world).
  intros row [<-|[]] _. simpl. lia.
Defined.

(** A tree saved as public on the empty database is fetched twice. *)
Lemma shared_tree_view_count_witness :
  exists treeData createdAt w2,
    fst (handle (P:=basic_platform) (GetSharedTree (js "uuid-1"))
           (snd (handle (P:=basic_platform) save_public start_world)))
    = Respond 200 (BShared (js "uuid-0") treeData 1 createdAt) /\
    handle (P:=basic_platform) (GetSharedTree (js "uuid-1"))
      (snd (handle (P:=basic_platform) (GetSharedTree (js "uuid-1"))
              (snd (handle (P:=basic_platform) save_public start_world))))
    = (Respond 200 (BShared (js "uuid-0") treeData 2 createdAt), w2).
Proof.
  destruct (proj2 (shared_tree_view_count (P:=basic_platform) start_world
                     start_world_reachable)
              (VObj [(js "root", VStr (js "a"))]) (Some (js "s")) (VBool true)
              (js "http") (js "localhost:3001")
              (js "uuid-0") (js "uuid-1")
              (Some (js "http://localhost:3001/share/uuid-1"))
              (snd (handle (P:=basic_platform) save_public start_world))
              (BShared (js "uuid-0") (VObj [(js "root", VStr (js "a"))]) 1 1700000000)
              (snd (handle (P:=basic_platform) (GetSharedTree (js "uuid-1"))
                      (snd (handle (P:=basic_platform) save_public start_world)))))
    as (treeData & createdAt & Hb & w2 & H2).
  - vm_compute. reflexivity.
  - vm_compute. reflexivity.
  - exists treeData, createdAt, w2. split; [|exact H2].
    rewrite <- Hb. vm_compute. reflexivity.
Defined.

(** On the empty database a public save stores a row with the token it
    answers and [is_public = 1]; a private save after it stores a row
    without a token and with [is_public = 0]. *)
Lemma share_token_iff_public_witness :
  (exists w1 row,
      handle (P:=basic_platform) save_public start_world
      = (Respond 200 (BTree (js "uuid-0") (Some (js "uuid-1"))
                            (Some (js "http://localhost:3001/share/uuid-1"))), w1) /\
      reality_trees (db w1) = [row] /\
      t_share_token row = Some (js "uuid-1") /\ t_is_public row = 1) /\
  (exists w2 row,
      handle (P:=basic_platform) save_private
        (snd (handle (P:=basic_platform) save_public start_world))
      = (Respond 200 (BTree (js "uuid-2") None None), w2) /\
      reality_trees (db w2)
      = reality_trees (db (snd (handle (P:=basic_platform) save_public start_world)))
        ++ [row] /\
      t_share_token row = None /\ t_is_public row = 0).
Proof.
  split.
  - destruct (share_token_iff_public (P:=basic_platform) start_world
                start_world_reachable)
      as (_ & _ & Hpublic & _).
    destruct (Hpublic (VObj [(js "root", VStr (js "a"))]) (Some (js "s"))
                (js "http") (js "localhost:3001") (js "uuid-1"))
      as (w1 & row & Hrun & Htrees & _ & Htok & Hflag).
    + intros [].
    + reflexivity.
    + intros [].
    + exists w1, row. split; [exact Hrun|]. split; [exact Htrees|].
      split; [exact Htok | exact Hflag].
  - destruct (share_token_iff_public (P:=basic_platform)
                (snd (handle (P:=basic_platform) save_public start_world))
                (reach_request _ save_public start_world_reachable))
      as (_ & Hprivate & _).
    destruct (Hprivate VUndefined (Some (js "s")) (js "http") (js "localhost:3001"))
      as (w2 & row & Hrun & Htrees & _ & Htok & Hflag).
    + vm_compute. intros [H|[]]. discriminate.
    + exists w2, row. split; [exact Hrun|]. split; [exact Htrees|].
      split; [exact Htok | exact Hflag].
Defined.

(** A body without [treeData] is accepted. *)
Lemma post_trees_accepts_any_body_witness :
  exists w' row,
    handle (P:=basic_platform) save_private start_world
    = (Respond 200 (BTree (js "uuid-0") None None), w') /\
    reality_trees (db w') = [row] /\ t_tree_data row = None.
Proof.
  destruct (post_trees_accepts_any_body (P:=basic_platform)
              VUndefined (Some (js "s")) (VBool false) (js "http")
              (js "localhost:3001") start_world)
    as (w' & row & Hrun & Htrees & _ & _ & _ & Hdata & _).
  - simpl. tauto.
  - intros tok H. vm_compute in H. discriminate.
  - exists w', row. repeat split.
    + exact Hrun.
    + exact Htrees.
    + apply Hdata. reflexivity.
Defined.

Lemma parse_outcomes_checked :
  forall row,
    match parse_outcomes row with Ok _ => true | Throw _ => false end = true ->
    exists v, parse_outcomes row = Ok v.
Proof.
  intros row H. destruct (parse_outcomes row) as [v|e];
    [exists v; reflexivity | discriminate].
Defined.

(** The two realities of a session, listed with a limit of five. *)
Lemma get_realities_outcomes_witness :
  exists vs,
    handle (P:=basic_platform) (GetRealities (js "s") (Some (js "5")) None)
      (create_realities (P:=basic_platform) 2 (js "s") start_world)
    = (Respond 200
         (BRealities
            (combine
               (select_realities (js "s") 5 0
                  (db (create_realities (P:=basic_platform) 2 (js "s") start_world)))
               vs)
            (Z.of_nat
               (List.length
                  (select_realities (js "s") 5 0
                     (db (create_realities (P:=basic_platform) 2 (js "s")
                            start_world)))))),
       create_realities (P:=basic_platform) 2 (js "s") start_world) /\
    List.length vs = 2%nat.
Proof.
  destruct (get_realities_outcomes (P:=basic_platform) (js "s") (Some (js "5")) None
              (create_realities (P:=basic_platform) 2 (js "s") start_world))
    as (_ & Hlist & _).
  destruct (Hlist 5 0) as [Hok _].
  - vm_compute. reflexivity.
  - reflexivity.
  - destruct Hok as (vs & Hrun & Hall).
    + assert (Hcheck :
                forallb (fun row => match parse_outcomes row with
                                    | Ok _ => true
                                    | Throw _ => false
                                    end)
                        (select_realities (js "s") 5 0
                           (db (create_realities (P:=basic_platform) 2 (js "s")
                                  start_world)))
                = true) by (vm_compute; reflexivity).
      rewrite forallb_forall in Hcheck.
      intros row Hin. apply parse_outcomes_checked. apply Hcheck. exact Hin.
    + exists vs. split; [exact Hrun|].
      apply Forall2_length in Hall. rewrite <- Hall. vm_compute. reflexivity.
Defined.

(** C1 as stated fails: on a table whose only row holds text that is not
    JSON, the request for its session gets no response at all. *)
Lemma get_realities_corrupt_row :
  In corrupt_row (select_realities (js "s") 20 0 corrupt_db) /\
  fst (handle (P:=basic_platform) (GetRealities (js "s") None None)
         (sample_world (decimal false 5 (-1)) corrupt_db))
  = Uncaught SyntaxError /\
  forall status b,
    fst (handle (P:=basic_platform) (GetRealities (js "s") None None)
           (sample_world (decimal false 5 (-1)) corrupt_db))
    <> Respond status b.
Proof.
  split; [left; reflexivity|].
  assert (H : fst (handle (P:=basic_platform) (GetRealities (js "s") None None)
                     (sample_world (decimal false 5 (-1)) corrupt_db))
              = Uncaught SyntaxError) by (vm_compute; reflexivity).
  split; [exact H|]. intros status b. rewrite H. discriminate.
Qed.


(** Three realities and two saved trees of one session: three rows in
    [realities], five in [analytics]. *)
Lemma stats_diversity_score_witness :
  fst (handle (P:=basic_platform) (GetStats (js "s"))
         (snd (handle (P:=basic_platform) save_private
            (snd (handle (P:=basic_platform) save_public
               (create_realities (P:=basic_platform) 3 (js "s") start_world))))))
  = Respond 200 (BStats 3 2 5 (num_of_Z 6)).
Proof.
  pose proof (stats_diversity_score (P:=basic_platform) (js "s")
                (snd (handle (P:=basic_platform) save_private
                   (snd (handle (P:=basic_platform) save_public
                      (create_realities (P:=basic_platform) 3 (js "s") start_world)))))
                3 5) as H.
  destruct H as (Hrun & Hsix & _).
  - vm_compute. reflexivity.
  - vm_compute. reflexivity.
  - rewrite Hrun. vm_compute. reflexivity.
Defined.

(** C7 as stated fails: after thirteen realities were created in one
    session (thirteen rows in [realities], thirteen in [analytics]) the
    score is 25, and the floor of 13 * 1.7 + 13 * 0.3 = 26 is 26. *)
Lemma stats_diversity_score_13 :
  fst (handle (P:=basic_platform) (GetStats (js "s"))
         (create_realities (P:=basic_platform) 13 (js "s") start_world))
  = Respond 200 (BStats 13 0 13 (num_of_Z 25)) /\
  diversity_exact 13 13 = 26 /\
  diversity_binary64 13 13 <> num_of_Z (diversity_exact 13 13).
Proof.
  split; [vm_compute; reflexivity|].
  split; [vm_compute; reflexivity|].
  vm_compute. discriminate.
Qed.

(** A constant random source of one half is within the contract of
    [Math.random]; the reality generated from it has three outcomes. *)
Lemma generateReality_shape_witness :
  exists r w',
    generateReality (P:=basic_platform) (VStr (js "what if I had stayed")) start_world
    = (Ok r, w') /\
    (2 <= List.length (outcomes r) <= 4)%nat.
Proof.
  destruct (generateReality_shape (P:=basic_platform)
              (js "what if I had stayed") start_world)
    as (r & w' & Hrun & Hlen & _).
  - discriminate.
  - intros n. cbn. repeat split.
  - exists r, w'. split; assumption.
Defined.

(** ** The further properties on concrete requests *)

Lemma start_world_random :
  forall k, unit_interval (rand_src start_world k).
Proof. intros k. cbn. repeat split. Defined.

(** On the constant source of one half every outcome is well formed. *)
Lemma generateOutcomes_well_formed_witness :
  exists outs w1,
    generateOutcomes (P:=basic_platform) (VStr (js "I had stayed")) start_world
    = (Ok outs, w1) /\
    (2 <= List.length outs <= 4)%nat /\
    Forall outcome_ok outs.
Proof.
  apply (generateOutcomes_well_formed (P:=basic_platform)
           (VStr (js "I had stayed")) start_world).
  exact start_world_random.
Defined.

(** The outcomes on the same source use the identifiers from the first
    one on. *)
Lemma generateOutcomes_numbering_witness :
  exists outs w1,
    generateOutcomes (P:=basic_platform) (VStr (js "I had stayed")) start_world
    = (Ok outs, w1) /\
    uuid_pos w1 = List.length outs.
Proof.
  destruct (generateOutcomes_numbering (P:=basic_platform)
              (VStr (js "I had stayed")) start_world start_world_random)
    as (outs & w1 & Hrun & _ & _ & Hu).
  exists outs, w1. split; [exact Hrun | exact Hu].
Defined.

(** The description of an event is one of the four sentences. *)
Lemma generateDescription_template_witness :
  exists t,
    generateDescription (P:=basic_platform) (VStr (js "Stay")) start_world
    = (Ok (VStr t), used_random start_world) /\
    In t (description_templates (js "stay")).
Proof.
  apply (generateDescription_template (P:=basic_platform) (js "Stay") start_world).
  apply start_world_random.
Defined.

(** An event with a lone surrogate, on the empty database: the row
    holds U+FFFD in its place. *)
Lemma post_realities_creates_witness :
  exists reality row w',
    handle (P:=basic_platform) (PostRealities (VStr [55357; 32; 120]%N) (Some (js "s")))
      start_world
    = (Respond 200 (BCreated (r_id row) (js "s") reality 1700000000), w') /\
    title reality = [55357; 32; 120]%N /\
    realities (db w') = [row] /\
    r_original_event row = [65533; 32; 120]%N /\
    r_title row = [65533; 32; 120]%N.
Proof.
  destruct (post_realities_creates (P:=basic_platform)
              [55357; 32; 120]%N (Some (js "s")) start_world)
    as (reality & row & event & w' & Hrun & Htitle & Hrows & _ & _ & Hev & Hrt & _).
  - vm_compute. discriminate.
  - exact start_world_random.
  - intros [].
  - exists reality, row, w'. split; [exact Hrun|].
    split; [rewrite Htitle; vm_compute; reflexivity|].
    split; [exact Hrows|].
    split; [rewrite Hev | rewrite Hrt]; vm_compute; reflexivity.
Defined.

(** The number 5 as an event. *)
Lemma post_realities_rejects_non_string_witness :
  fst (handle (P:=basic_platform) (PostRealities (VNum (num_of_Z 5)) None) start_world)
  = Respond 500 (BError (js "Failed to generate reality")).
Proof.
  apply (post_realities_rejects_non_string (P:=basic_platform)
           (VNum (num_of_Z 5)) None start_world).
  - reflexivity.
  - discriminate.
Defined.

(** The same creation replayed on a source of identifiers that starts
    over. *)
Lemma post_realities_key_collision_witness :
  fst (handle (P:=basic_platform) create_stayed
         (rewind (snd (handle (P:=basic_platform) create_stayed start_world))))
  = Respond 500 (BError (js "Failed to save reality")).
Proof.
  apply (post_realities_key_collision (P:=basic_platform)
           (js "what if I had stayed") (Some (js "s"))
           (rewind (snd (handle (P:=basic_platform) create_stayed start_world)))).
  - vm_compute. discriminate.
  - intros k. cbn. repeat split.
  - vm_compute. left. reflexivity.
Defined.

(** The statistics of a session are read without a write. *)
Lemma read_routes_write_nothing_witness :
  db (snd (handle (P:=basic_platform) (GetStats (js "s")) start_world))
  = db start_world.
Proof.
  apply (read_routes_write_nothing (P:=basic_platform) (GetStats (js "s")) start_world).
  reflexivity.
Defined.

(** The keys after two creations. *)
Lemma reachable_keys_witness :
  NoDup (map r_id (realities (db (create_realities (P:=basic_platform) 2 (js "s")
                                    start_world)))) /\
  analytics_numbered (db (create_realities (P:=basic_platform) 2 (js "s") start_world)).
Proof.
  destruct (reachable_keys (P:=basic_platform)
              (create_realities (P:=basic_platform) 2 (js "s") start_world))
    as (H1 & _ & _ & H2).
  - apply create_realities_reachable. exact start_world_reachable.
  - split; [exact H1 | exact H2].
Defined.

(** The list of a session after two creations, with a limit of one. *)
Lemma get_realities_listing_witness :
  exists l,
    fst (handle (P:=basic_platform) (GetRealities (js "s") (Some (js "1")) None)
           (create_realities (P:=basic_platform) 2 (js "s") start_world))
    = Respond 200 (BRealities l (Z.of_nat (List.length l))) /\
    newest_first (map fst l) /\
    Z.of_nat (List.length l) <= 1.
Proof.
  destruct (get_realities_listing (P:=basic_platform) (js "s") (Some (js "1")) None
              (create_realities (P:=basic_platform) 2 (js "s") start_world))
    as (lim & off & l & Hlim & _ & Hrun & _ & Hsorted & Hbound & _).
  - vm_compute. reflexivity.
  - exists l. split; [exact Hrun|]. split; [exact Hsorted|].
    assert (Hone : lim = 1).
    { vm_compute in Hlim. inversion Hlim. reflexivity. }
    subst lim. apply Hbound. lia.
Defined.

(** A creation for a session that is a lone surrogate counts for the
    session U+FFFD. *)
Lemma stats_after_create_witness :
  exists score,
    fst (handle (P:=basic_platform) (GetStats [65533%N])
           (snd (handle (P:=basic_platform)
                   (PostRealities (VStr (js "what if I had stayed")) (Some [55296%N]))
                   start_world)))
    = Respond 200 (BStats 1 0 1 score).
Proof.
  apply (stats_after_create (P:=basic_platform)
           (VStr (js "what if I had stayed")) [55296%N] start_world [65533%N]).
  vm_compute. reflexivity.
Defined.

(** A save for a session that is a lone surrogate counts for the
    session U+FFFD. *)
Lemma stats_after_save_witness :
  exists score,
    fst (handle (P:=basic_platform) (GetStats [65533%N])
           (snd (handle (P:=basic_platform)
                   (PostTrees (VObj [(js "root", VStr (js "a"))]) (Some [55296%N])
                      (VBool true) (js "http") (js "localhost:3001"))
                   start_world)))
    = Respond 200 (BStats 0 1 1 score).
Proof.
  apply (stats_after_save (P:=basic_platform)
           (VObj [(js "root", VStr (js "a"))]) [55296%N] (VBool true)
           (js "http") (js "localhost:3001") start_world [65533%N]).
  vm_compute. reflexivity.
Defined.


(** A link that still resolves after another save and a creation. *)
Lemma share_link_is_stable_witness :
  exists row',
    select_shared_tree (js "uuid-1")
      (db (serve (P:=basic_platform) [save_private; create_stayed]
             (snd (handle (P:=basic_platform) save_public start_world))))
    = Some row' /\
    t_id row' = js "uuid-0".
Proof.
  destruct (share_link_is_stable (P:=basic_platform) [save_private; create_stayed]
              (snd (handle (P:=basic_platform) save_public start_world))
              (js "uuid-1")
              (new_tree_row (P:=basic_platform) (VObj [(js "root", VStr (js "a"))])
                 (Some (js "s")) (VBool true) start_world))
    as (row' & Hsel & Hsame).
  - vm_compute. reflexivity.
  - exists row'. split; [exact Hsel|]. destruct Hsame as [Hid _]. rewrite Hid.
    vm_compute. reflexivity.
Defined.

(** An enhancement of nothing. *)
Lemma post_enhance_rejects_missing_witness :
  handle (P:=basic_platform) (PostEnhance VNull) start_world
  = (Respond 500 (BError (js "Failed to enhance reality")), start_world).
Proof.
  apply (post_enhance_rejects_missing (P:=basic_platform) VNull start_world).
  right. reflexivity.
Defined.

(** An enhancement of a reality keeps its probability; one whose
    description has an own [toString] is answered 500. *)
Lemma post_enhance_adds_three_properties_witness :
  (exists out w',
      handle (P:=basic_platform) (PostEnhance sent_reality) start_world
      = (Respond 200 (BValue (VObj out)), w') /\
      own_prop (js "enhancedDescription") out
      = Some (VStr (js "The decision to stay" ++ enhance_suffix)) /\
      own_prop (js "probability") out = Some (VNum (decimal false 5 (-1)))) /\
  handle (P:=basic_platform)
    (PostEnhance (VObj [(js "description",
                         VObj [(js "toString", VNum (num_of_Z 1))])]))
    start_world
  = (Respond 500 (BError (js "Failed to enhance reality")), start_world).
Proof.
  split.
  - destruct (post_enhance_adds_three_properties (P:=basic_platform) sent_reality
                (VStr (js "The decision to stay")) start_world eq_refl)
      as [Hok _].
    destruct (Hok (js "The decision to stay") eq_refl start_world_random)
      as (out & alts & w' & Hrun & Hdesc & _ & _ & _ & _ & Hkeep & _).
    exists out, w'. split; [exact Hrun|]. split; [exact Hdesc|].
    rewrite (Hkeep (js "probability")); [reflexivity|].
    intros H. vm_compute in H. intuition discriminate.
  - destruct (post_enhance_adds_three_properties (P:=basic_platform)
                (VObj [(js "description",
                        VObj [(js "toString", VNum (num_of_Z 1))])])
                (VObj [(js "toString", VNum (num_of_Z 1))]) start_world eq_refl)
      as [_ Hbad].
    apply (Hbad TypeError). reflexivity.
Defined.

(** The prefix alone, in another case. *)
Lemma extractTitle_of_bare_prefix_witness :
  trim (js "What If" ++ js "  ") <> [] /\
  extractTitle_str (js "What If" ++ js "  ") = [].
Proof.
  apply (extractTitle_of_bare_prefix (js "What If") (js "  ")).
  - left. vm_compute. reflexivity.
  - discriminate.
  - repeat constructor.
Defined.

Lemma half_reads_back : reads_back (P:=basic_platform) (decimal false 5 (-1)).
Proof.
  split; [reflexivity|]. intros [|c rest] Hrest; [vm_compute; reflexivity|].
  destruct Hrest as [->|[->| ->]]; vm_compute; reflexivity.
Defined.

Lemma six_reads_back : reads_back (P:=basic_platform) (num_of_Z 6).
Proof.
  split; [reflexivity|]. intros [|c rest] Hrest; [vm_compute; reflexivity|].
  destruct Hrest as [->|[->| ->]]; vm_compute; reflexivity.
Defined.

Lemma sample_tree_carried : carried (P:=basic_platform) sample_tree.
Proof.
  unfold sample_tree. cbn [carried]. split; [reflexivity|].
  repeat split; try (apply code_unitsb_ok; reflexivity);
    apply half_reads_back.
Defined.

(** Tree data through its text and back. *)
Lemma JSON_parse_stringify_witness :
  exists text,
    JSON_stringify (P:=basic_platform) sample_tree = Some text /\
    JSON_parse text = Ok sample_tree.
Proof.
  apply (JSON_parse_stringify (P:=basic_platform) sample_tree).
  exact sample_tree_carried.
Defined.

(** The same tree data saved as public and fetched by its token. *)
Lemma shared_tree_round_trip_witness :
  exists token,
    fst (handle (P:=basic_platform)
           (PostTrees sample_tree (Some (js "s")) (VBool true)
              (js "http") (js "localhost:3001")) start_world)
    = Respond 200 (BTree (js "uuid-0") (Some token)
                     (share_url (js "http") (js "localhost:3001") (Some token))) /\
    fst (handle (P:=basic_platform) (GetSharedTree token)
           (snd (handle (P:=basic_platform)
                   (PostTrees sample_tree (Some (js "s")) (VBool true)
                      (js "http") (js "localhost:3001")) start_world)))
    = Respond 200 (BShared (js "uuid-0") sample_tree 1 1700000000).
Proof.
  apply (shared_tree_round_trip (P:=basic_platform) sample_tree (Some (js "s"))
           (VBool true) (js "http") (js "localhost:3001") start_world).
  - exact sample_tree_carried.
  - reflexivity.
  - vm_compute. reflexivity.
Defined.

(** A tree saved on a source of identifiers that starts over. *)
Lemma post_trees_key_collision_witness :
  fst (handle (P:=basic_platform) save_private
         (rewind (snd (handle (P:=basic_platform) save_private start_world))))
  = Respond 500 (BError (js "Failed to save tree")).
Proof.
  apply (post_trees_key_collision (P:=basic_platform) VUndefined (Some (js "s"))
           (VBool false) (js "http") (js "localhost:3001")
           (rewind (snd (handle (P:=basic_platform) save_private start_world)))).
  left. vm_compute. left. reflexivity.
Defined.

(** The first reality of the empty database, created and then listed. *)
Lemma created_reality_round_trip_witness :
  exists reality w2 row,
    generateReality (P:=basic_platform) (VStr (js "what if I had stayed")) start_world
    = (Ok reality, w2) /\
    fst (handle (P:=basic_platform) (GetRealities (js "s") None None)
           (snd (handle (P:=basic_platform) create_stayed start_world)))
    = Respond 200
        (BRealities [(row, VArr (map outcome_to_val (outcomes reality)))] 1) /\
    r_original_event row = js "what if I had stayed".
Proof.
  let res := eval vm_compute in
      (generateReality (P:=basic_platform) (VStr (js "what if I had stayed"))
         start_world) in
  match res with
  | (Ok ?r, ?w) =>
      exists r, w;
      assert (Hgen : generateReality (P:=basic_platform)
                       (VStr (js "what if I had stayed")) start_world = (Ok r, w))
        by (vm_compute; reflexivity);
      destruct (created_reality_round_trip (P:=basic_platform)
                  (js "what if I had stayed") (js "s") start_world r w)
        as (_ & row & Hlist & _ & _ & Hevent & _);
      [ vm_compute; discriminate
      | exact Hgen
      | intros []
      |
      | reflexivity
      | exists row; split; [exact Hgen|]; split; [exact Hlist|];
        rewrite Hevent; vm_compute; reflexivity ]
  end.
  cbn [carried outcomes map outcome_to_val o_id o_title o_description
       o_probability o_impact o_consequences].
  repeat split; try (apply code_unitsb_ok; vm_compute; reflexivity);
    first [apply half_reads_back | apply six_reads_back].
Defined.

(** A public tree saved without data. *)
Lemma shared_tree_without_data_witness :
  exists token,
    fst (handle (P:=basic_platform)
           (PostTrees VUndefined (Some (js "s")) (VBool true)
              (js "http") (js "localhost:3001")) start_world)
    = Respond 200 (BTree (js "uuid-0") (Some token)
                     (share_url (js "http") (js "localhost:3001") (Some token))) /\
    fst (handle (P:=basic_platform) (GetSharedTree token)
           (snd (handle (P:=basic_platform)
                   (PostTrees VUndefined (Some (js "s")) (VBool true)
                      (js "http") (js "localhost:3001")) start_world)))
    = Respond 200 (BShared (js "uuid-0") VNull 1 1700000000).
Proof.
  apply (shared_tree_without_data (P:=basic_platform) (Some (js "s"))
           (VBool true) (js "http") (js "localhost:3001") start_world).
  - reflexivity.
  - vm_compute. reflexivity.
Defined.

(** The link of a public tree after a private save. *)
Lemma private_tree_opens_no_link_witness :
  fst (handle (P:=basic_platform) (GetSharedTree (js "uuid-1"))
         (snd (handle (P:=basic_platform) save_private
                 (snd (handle (P:=basic_platform) save_public start_world)))))
  = fst (handle (P:=basic_platform) (GetSharedTree (js "uuid-1"))
           (snd (handle (P:=basic_platform) save_public start_world))).
Proof.
  apply (private_tree_opens_no_link (P:=basic_platform) VUndefined (Some (js "s"))
           (VBool false) (js "http") (js "localhost:3001")
           (snd (handle (P:=basic_platform) save_public start_world)) (js "uuid-1")).
  reflexivity.
Defined.

(** The list of another session after a creation. *)
Lemma other_sessions_list_unchanged_witness :
  fst (handle (P:=basic_platform) (GetRealities (js "t") None None)
         (snd (handle (P:=basic_platform) create_stayed start_world)))
  = fst (handle (P:=basic_platform) (GetRealities (js "t") None None) start_world).
Proof.
  apply (other_sessions_list_unchanged (P:=basic_platform)
           (VStr (js "what if I had stayed")) (js "s") (js "t") None None start_world).
  vm_compute. discriminate.
Defined.
